(** * center-randomize: the allocation engine of [school_center.py]

    A shallow embedding of the candidate selector, the capacity ledger and the
    two-pass allocation loop, followed by the properties the specification
    states about them.

    Conventions of the embedding.
    - A TSV row is a record.  The [count] and [capacity] columns are kept as
      the integers [int(...)] yields: the script applies [int] to every one of
      them while it sets up ([school_sort_key], [centers_remaining_cap]), so a
      run that reaches the main loop has parsed them all.
    - The module-level dictionaries ([allocations], [centers_remaining_cap]),
      the counter [remaining], the two output files, the log and the seeded
      random generator form one record [World] that every stateful function
      threads; a raised exception leaves the world as it was at the raise.
    - Binary floating point (coordinates, the haversine distance, the jitter
      of the sort keys) is an interface, [Numerics]; nothing is assumed about
      it except where a theorem says so. *)

From Stdlib Require Import ZArith QArith Qround String List Lia DecimalString.
From stdpp Require Import base gmap strings list fin_maps.

Local Open Scope string_scope.
Local Open Scope Z_scope.

(** ** Parameters (lines 11-15) *)

Definition MIN_STUDENT_IN_CENTER : Z := 10.
Definition STRETCH_CAPACITY_FACTOR : Q := (2 # 100)%Q.
Definition PREF_CUTOFF : Z := -4.

(** ** Rows *)

Record School := mkSchool {
  scode : string;
  count : Z;
  name_address : string;
  s_lat : string;
  s_long : string
}.

Record Center := mkCenter {
  cscode : string;
  name : string;
  address : string;
  capacity : Z;
  lat : string;
  long : string
}.

(** ** Exceptions and results *)

Inductive exn := KeyError | TypeError | ValueError | IndexError.

Inductive result (A : Type) :=
| Ok (a : A)
| Raise (e : exn).
Arguments Ok {A} a.
Arguments Raise {A} e.

(** ** Floating point and the random generator *)

Class Numerics := {
  float_t : Type;
  (** [float(s)]; [None] stands for the [ValueError] of an unparsable string *)
  float : string -> option float_t;
  (** the conversion of an integer operand, for integers in the range of a
      double; beyond it Python raises [OverflowError], which is not modelled *)
  float_of_int : Z -> float_t;
  (** [None] stands for the [ValueError] the [math] functions raise on an
      operand outside their domain (an infinite coordinate) *)
  haversine_distance : float_t -> float_t -> float_t -> float_t -> option float_t;
  fmul : float_t -> float_t -> float_t;
  fsub : float_t -> float_t -> float_t;
  flt : float_t -> float_t -> bool;
  fle : float_t -> float_t -> bool;
  Rng : Type;
  (** [random.uniform(a, b)] *)
  uniform : float_t -> float_t -> Rng -> float_t * Rng
}.

(** [calc_per_center] (lines 144-153) *)
Definition calc_per_center (count : Z) : Z :=
  if count <=? 400 then 100 else 200.

(** [math.floor(int(capacity) * STRETCH_CAPACITY_FACTOR + centers_cap_left)]
    (line 207), in exact rational arithmetic with 1/50 for the factor.  The
    script computes in doubles: the two agree on the capacities and counters
    of the examples below, and differ for capacities of sixteen digits and
    more.  The general properties below hold whatever the value of this
    ceiling; only the examples evaluate it. *)
Definition stretched_capacity_of (capacity centers_cap_left : Z) : Z :=
  Qfloor (inject_Z capacity * STRETCH_CAPACITY_FACTOR + inject_Z centers_cap_left)%Q.

(** [get_pref] (lines 130-141): an absent or empty inner dictionary and an
    absent or zero score are all falsy. *)
Definition get_pref (prefs : gmap string (gmap string Z)) (scode cscode : string) : Z :=
  match prefs !! scode with
  | Some d =>
      if bool_decide (d = ∅) then 0
      else match d !! cscode with
           | Some v => if v =? 0 then 0 else v
           | None => 0
           end
  | None => 0
  end.

(** [allocated_centers], a Python dict: assignment to a present key keeps the
    key's position, a new key goes last. *)
Fixpoint dict_set {V : Type} (d : list (string * V)) (k : string) (v : V) : list (string * V) :=
  match d with
  | [] => [(k, v)]
  | (k', v') :: d' =>
      if String.eqb k' k then (k, v) :: d' else (k', v') :: dict_set d' k v
  end.

Definition dict_keys {V : Type} (d : list (string * V)) : list string := map fst d.
Definition dict_values {V : Type} (d : list (string * V)) : list V := map snd d.

Section Model.
Context `{Numerics}.

(** The dictionary [center_to_dict] builds (lines 57-64): the six columns of
    the center and the distance. *)
Record CandidateCenter := center_to_dict {
  cand : Center;
  distance_km : float_t
}.

(** A row of the allocation file (lines 292-298). *)
Record AllocationRow := mkRow {
  row_scode : string;
  row_school : string;
  row_cscode : string;
  row_center : string;
  row_center_address : string;
  row_allocation : Z;
  row_distance_km : float_t
}.

Record World := mkWorld {
  allocations : gmap string (gmap string Z);
  centers_remaining_cap : gmap string Z;
  remaining : Z;
  intermediate_file : list (School * CandidateCenter);
  allocation_file : list AllocationRow;
  warnings : list (Z * School * nat);
  rng : Rng
}.

Definition set_allocations (a : gmap string (gmap string Z)) (w : World) : World :=
  mkWorld a (centers_remaining_cap w) (remaining w) (intermediate_file w)
          (allocation_file w) (warnings w) (rng w).
Definition set_centers_remaining_cap (c : gmap string Z) (w : World) : World :=
  mkWorld (allocations w) c (remaining w) (intermediate_file w)
          (allocation_file w) (warnings w) (rng w).
Definition set_remaining (r : Z) (w : World) : World :=
  mkWorld (allocations w) (centers_remaining_cap w) r (intermediate_file w)
          (allocation_file w) (warnings w) (rng w).
Definition set_intermediate_file (l : list (School * CandidateCenter)) (w : World) : World :=
  mkWorld (allocations w) (centers_remaining_cap w) (remaining w) l
          (allocation_file w) (warnings w) (rng w).
Definition set_allocation_file (l : list AllocationRow) (w : World) : World :=
  mkWorld (allocations w) (centers_remaining_cap w) (remaining w) (intermediate_file w)
          l (warnings w) (rng w).
Definition set_warnings (l : list (Z * School * nat)) (w : World) : World :=
  mkWorld (allocations w) (centers_remaining_cap w) (remaining w) (intermediate_file w)
          (allocation_file w) l (rng w).
Definition set_rng (g : Rng) (w : World) : World :=
  mkWorld (allocations w) (centers_remaining_cap w) (remaining w) (intermediate_file w)
          (allocation_file w) (warnings w) g.

(** ** The monad of the script: state, and exceptions that keep the state *)

Definition M (A : Type) : Type := World -> result A * World.

Definition ret {A : Type} (a : A) : M A := fun w => (Ok a, w).
Definition raise {A : Type} (e : exn) : M A := fun w => (Raise e, w).
Definition bind {A B : Type} (m : M A) (k : A -> M B) : M B :=
  fun w => match m w with
           | (Ok a, w') => k a w'
           | (Raise e, w') => (Raise e, w')
           end.

Notation "'let*' x := m 'in' k" := (bind m (fun x => k))
  (at level 10, x name, m at level 100, k at level 200).
Notation "'let*' ' p := m 'in' k" := (bind m (fun x => match x with p => k end))
  (at level 10, p pattern, m at level 100, k at level 200).

(** [for x in l: body], with the loop's local variables as [s]. *)
Fixpoint for_each {A S : Type} (l : list A) (body : A -> S -> M S) (s : S) : M S :=
  match l with
  | [] => ret s
  | x :: l' => let* s' := body x s in for_each l' body s'
  end.

(** ** [sorted(l, key=...)]

    The keys are computed once per element, in list order, each computation
    free to draw from the generator; the elements are then put in ascending
    key order, equal keys keeping their order.  The built-in is modelled by
    a stable insertion sort, which returns what the built-in returns when
    [<] is a strict weak order on the keys (no key is a NaN). *)
Fixpoint decorate {A : Type} (key : A -> Rng -> float_t * Rng) (l : list A) (g : Rng)
  : list (float_t * A) * Rng :=
  match l with
  | [] => ([], g)
  | x :: l' =>
      let '(k, g1) := key x g in
      let '(r, g2) := decorate key l' g1 in
      ((k, x) :: r, g2)
  end.

Fixpoint insert_by_key {A : Type} (x : float_t * A) (l : list (float_t * A))
  : list (float_t * A) :=
  match l with
  | [] => [x]
  | y :: l' => if flt (fst x) (fst y) then x :: y :: l' else y :: insert_by_key x l'
  end.

Definition sort_decorated {A : Type} (l : list (float_t * A)) : list (float_t * A) :=
  fold_left (fun acc x => insert_by_key x acc) l [].

Definition sorted {A : Type} (key : A -> Rng -> float_t * Rng) (l : list A) : M (list A) :=
  fun w =>
    let '(d, g) := decorate key l (rng w) in
    (Ok (map snd (sort_decorated d)), set_rng g w).

(** ** Candidate selection (lines 49-94) *)

(** [sort_key] (lines 66-69) *)
Definition sort_key (prefs : gmap string (gmap string Z)) (school : School)
    (c : CandidateCenter) (g : Rng) : float_t * Rng :=
  let '(u, g') := uniform (float_of_int 1) (float_of_int 5) g in
  (fsub (fmul (distance_km c) u)
        (float_of_int (get_pref prefs (scode school) (cscode (cand c)) * 100)), g').

Definition value_or_raise {A : Type} (o : option A) : M A :=
  match o with
  | Some x => ret x
  | None => raise ValueError
  end.

(** The loop's variables: [within_distance] and the pair
    ([nearest_center], [nearest_distance]), [None] until first set. *)
Definition scan_state : Type := list CandidateCenter * option (Center * float_t).

(** The body of the loop of lines 79-89. *)
Definition scan_center (prefs : gmap string (gmap string Z)) (school : School)
    (distance_threshold : float_t) (c : Center) (st : scan_state) : M scan_state :=
  let '(within_distance, nearest) := st in
  let* a1 := value_or_raise (float (s_lat school)) in
  let* a2 := value_or_raise (float (s_long school)) in
  let* a3 := value_or_raise (float (lat c)) in
  let* a4 := value_or_raise (float (long c)) in
  let* distance := value_or_raise (haversine_distance a1 a2 a3 a4) in
  if String.eqb (scode school) (cscode c) then ret st
  else
    let nearest' :=
      match nearest with
      | None => Some (c, distance)
      | Some (_, nearest_distance) =>
          if flt distance nearest_distance then Some (c, distance) else nearest
      end in
    if fle distance distance_threshold
       && (PREF_CUTOFF <? get_pref prefs (scode school) (cscode c))
    then ret ((within_distance ++ [center_to_dict c distance])%list, nearest')
    else ret (within_distance, nearest').

Definition centers_within_distance (prefs : gmap string (gmap string Z))
    (school : School) (centers : list Center) (distance_threshold : float_t)
  : M (list CandidateCenter) :=
  if (String.length (s_lat school) =? 0)%nat || (String.length (s_long school) =? 0)%nat
  then ret []
  else
    let* '(within_distance, nearest) :=
      for_each centers (scan_center prefs school distance_threshold) ([], None) in
    if (0 <? length within_distance)%nat
    then sorted (sort_key prefs school) within_distance
    else match nearest with
         | Some (nearest_center, nearest_distance) =>
             ret [center_to_dict nearest_center nearest_distance]
         | None => raise TypeError   (* center_to_dict(None, None) subscripts None *)
         end.

(** ** The ledger (lines 162-178) *)

(** [allocate] *)
Definition allocate (scode cscode : string) (count : Z) : M unit :=
  fun w =>
    let a := allocations w in
    match a !! scode with
    | None => (Ok tt, set_allocations (<[scode := {[cscode := count]}]> a) w)
    | Some d =>
        match d !! cscode with
        | None => (Ok tt, set_allocations (<[scode := <[cscode := count]> d]> a) w)
        | Some n => (Ok tt, set_allocations (<[scode := <[cscode := n + count]> d]> a) w)
        end
    end.

(** [is_allocated] *)
Definition is_allocated (scode1 scode2 : string) : M bool :=
  fun w =>
    match allocations w !! scode1 with
    | Some d => (Ok (match d !! scode2 with Some _ => true | None => false end), w)
    | None => (Ok false, w)
    end.

(** ** The allocation loop (lines 181-225) *)

(** [remaining_cap[center_code]]; the parameter [remaining_cap] is the one
    dictionary [centers_remaining_cap] at both call sites. *)
Definition remaining_cap_get (center_code : string) : M Z :=
  fun w =>
    match centers_remaining_cap w !! center_code with
    | Some v => (Ok v, w)
    | None => (Raise KeyError, w)
    end.

(** [remaining_cap[center_code] -= n] *)
Definition remaining_cap_sub (center_code : string) (n : Z) : M unit :=
  fun w =>
    match centers_remaining_cap w !! center_code with
    | Some v =>
        (Ok tt, set_centers_remaining_cap (<[center_code := v - n]> (centers_remaining_cap w)) w)
    | None => (Raise KeyError, w)
    end.

(** [writer.writerow] of lines 188-199 *)
Definition writerow (school : School) (center : CandidateCenter) : M unit :=
  fun w => (Ok tt, set_intermediate_file (intermediate_file w ++ [(school, center)])%list w).

(** Lines 206-211: the proposed amount and the capacity it is tested against. *)
Definition next_allot_of (stretch : bool) (to_allot per_center : Z)
    (center : CandidateCenter) (centers_cap_left : Z) : Z * Z :=
  if stretch then
    let stretched_capacity := stretched_capacity_of (capacity (cand center)) centers_cap_left in
    (Z.min to_allot (Z.max stretched_capacity MIN_STUDENT_IN_CENTER), stretched_capacity)
  else
    (Z.min to_allot (Z.min per_center (Z.max centers_cap_left MIN_STUDENT_IN_CENTER)),
     centers_cap_left).

(** The loop's variables: [to_allot] and [allocated_centers]. *)
Definition loop_state : Type := Z * list (string * CandidateCenter).

(** The body of the loop of lines 185-223. *)
Definition allocate_to_centers_body (centers : list CandidateCenter) (school : School)
    (per_center : Z) (stretch : bool) (center : CandidateCenter) (st : loop_state)
  : M loop_state :=
  let '(to_allot, allocated_centers) := st in
  let school_code := scode school in
  let center_code := cscode (cand center) in
  let* _ := writerow school center in
  let* skip := is_allocated center_code school_code in
  if skip then ret st
  else
    let* centers_cap_left := remaining_cap_get center_code in
    let '(next_allot, centers_cap_left) :=
      next_allot_of stretch to_allot per_center center centers_cap_left in
    if (0 <? to_allot) && (0 <? next_allot) && (next_allot <=? centers_cap_left)
    then
      let* '(allocate_center_code, allocated_centers) :=
        if (next_allot <? MIN_STUDENT_IN_CENTER) && (0 <? length allocated_centers)%nat
        then match centers with
             | c0 :: _ => ret (cscode (cand c0), allocated_centers)
             | [] => raise IndexError
             end
        else ret (center_code, dict_set allocated_centers center_code center) in
      let* _ := allocate school_code allocate_center_code next_allot in
      let* _ := remaining_cap_sub center_code next_allot in
      ret (to_allot - next_allot, allocated_centers)
    else ret st.

Definition allocate_to_centers (centers : list CandidateCenter) (school : School)
    (to_allot : Z) (stretch : bool) : M loop_state :=
  let allocated_centers := [] in
  let per_center := calc_per_center to_allot in
  for_each centers (allocate_to_centers_body centers school per_center stretch)
           (to_allot, allocated_centers).

(** A call [allocate_to_centers(centers, school, to_allot, centers_remaining_cap, **kwargs)].
    After the four positional parameters the signature has only [stretch]
    (default [False]); a keyword of any other name is a [TypeError], raised
    before the body runs. *)
Definition bind_keywords (kwargs : list (string * bool)) : option bool :=
  match kwargs with
  | [] => Some false
  | [(k, v)] => if String.eqb k "stretch" then Some v else None
  | _ => None
  end.

Definition call_allocate_to_centers (centers : list CandidateCenter) (school : School)
    (to_allot : Z) (kwargs : list (string * bool)) : M loop_state :=
  match bind_keywords kwargs with
  | Some stretch => allocate_to_centers centers school to_allot stretch
  | None => raise TypeError
  end.

(** ** The run (lines 246-303) *)

Definition PREF_DISTANCE_THRESHOLD : Z := 2.
Definition ABS_DISTANCE_THRESHOLD : Z := 7.

(** [school_sort_key] (lines 156-159) *)
Definition school_sort_key (s : School) (g : Rng) : float_t * Rng :=
  let '(u, g') := uniform (float_of_int 1) (float_of_int 100) g in
  (fmul (float_of_int (if 500 <? count s then -1 else 1)) u, g').

(** One [allocation_file.writerow] of lines 292-298. *)
Definition write_allocation_row (s : School) (c : CandidateCenter) (_ : unit) : M unit :=
  fun w =>
    match allocations w !! scode s with
    | Some d =>
        match d !! cscode (cand c) with
        | Some n =>
            (Ok tt,
             set_allocation_file
               (allocation_file w ++
                  [mkRow (scode s) (name_address s) (cscode (cand c)) (name (cand c))
                         (address (cand c)) n (distance_km c)])%list w)
        | None => (Raise KeyError, w)
        end
    | None => (Raise KeyError, w)
    end.

(** Lines 300-303 *)
Definition report_shortfall (s : School) (to_allot : Z) (n_centers : nat) : M unit :=
  fun w =>
    (Ok tt, set_warnings (warnings w ++ [(to_allot, s, n_centers)])%list
              (set_remaining (remaining w + to_allot) w)).

(** The body of the loop over the schools (lines 280-303). *)
Definition school_iteration (prefs : gmap string (gmap string Z)) (centers : list Center)
    (s : School) (_ : unit) : M unit :=
  let* centers_for_school :=
    centers_within_distance prefs s centers (float_of_int PREF_DISTANCE_THRESHOLD) in
  let to_allot := count s in
  let* '(to_allot, allocated_centers) :=
    call_allocate_to_centers centers_for_school s to_allot [] in
  let* '(to_allot, allocated_centers) :=
    if 0 <? to_allot then
      let* expanded_centers :=
        centers_within_distance prefs s centers (float_of_int ABS_DISTANCE_THRESHOLD) in
      call_allocate_to_centers expanded_centers s to_allot [("stretch_capacity", true)]
    else ret (to_allot, allocated_centers) in
  let* _ := for_each (dict_values allocated_centers) (write_allocation_row s) tt in
  if 0 <? to_allot
  then report_shortfall s to_allot (length centers_for_school)
  else ret tt.

(** The state before the loop: lines 248-252 and the freshly opened files. *)
Definition initial_world (centers : list Center) (g : Rng) : World :=
  mkWorld ∅
          (fold_left (fun d c => <[cscode c := capacity c]> d) centers ∅)
          0 [] [] [] g.

(** The script from line 246 on: [schools_tsv] and [centers] are the rows
    [read_tsv] returned, [prefs] what [read_prefs] returned, [seed] the
    generator of line 244. *)
Definition main (prefs : gmap string (gmap string Z)) (schools_tsv : list School)
    (centers : list Center) (seed : Rng) : result unit * World :=
  (let* schools := sorted school_sort_key schools_tsv in
   for_each schools (school_iteration prefs centers) tt)
    (initial_world centers seed).

(** ** Observations used by the statements *)

(** [allocations[s][c]], [None] when either key is absent. *)
Definition recorded (w : World) (s c : string) : option Z :=
  match allocations w !! s with
  | Some d => d !! c
  | None => None
  end.

(** The students recorded against center [c], over all schools: the
    [allocation] column of the output summed over the rows of [c]. *)
Definition allocated_to_center (w : World) (c : string) : Z :=
  map_fold (fun _ d acc => acc + default 0 (d !! c)) 0 (allocations w).

(** [math.floor(capacity * STRETCH_CAPACITY_FACTOR)] *)
Definition stretch_allowance (capacity : Z) : Z :=
  Qfloor (inject_Z capacity * STRETCH_CAPACITY_FACTOR)%Q.

(** The candidates of a result, none when the selection raised. *)
Definition candidates_of (r : result (list CandidateCenter)) : list CandidateCenter :=
  match r with
  | Ok l => l
  | Raise _ => []
  end.

(** The distance the loop of [centers_within_distance] computes for [c]. *)
Definition distance_to (school : School) (c : Center) : option float_t :=
  match float (s_lat school), float (s_long school), float (lat c), float (long c) with
  | Some a1, Some a2, Some a3, Some a4 => haversine_distance a1 a2 a3 a4
  | _, _, _, _ => None
  end.

(** Line 88: [c] belongs to the within-distance set. *)
Definition qualifies (prefs : gmap string (gmap string Z)) (school : School)
    (distance_threshold : float_t) (c : Center) : bool :=
  negb (String.eqb (scode school) (cscode c))
  && match distance_to school c with
     | Some d => fle d distance_threshold
     | None => false
     end
  && (PREF_CUTOFF <? get_pref prefs (scode school) (cscode c)).

(** [satisfies P Q m]: the computation [m] keeps the property [P] of the
    world, whether it returns or raises, and a value it returns has [Q]. *)
Definition satisfies {A : Type} (P : World -> Prop) (Q : A -> Prop) (m : M A) : Prop :=
  forall w, P w -> P (snd (m w)) /\ forall a, fst (m w) = Ok a -> Q a.

(** No school has an allocation recorded against its own code. *)
Definition no_self_allocation (w : World) : Prop :=
  forall code, recorded w code code = None.

(** The loop variables of [centers_within_distance] hold no center of the
    school's own code. *)
Definition scan_excludes_self (school : School) (st : scan_state) : Prop :=
  Forall (fun c => cscode (cand c) <> scode school) (fst st)
  /\ forall c d, snd st = Some (c, d) -> cscode c <> scode school.

(** [nr] is what the nearest-center tracking holds after the centers [seen]:
    nothing while every center seen has the school's code, otherwise a center
    of another code than which no such center seen is strictly nearer. *)
Definition nearest_among (school : School) (seen : list Center)
    (nr : option (Center * float_t)) : Prop :=
  match nr with
  | None => forall c, In c seen -> cscode c = scode school
  | Some (c, d) =>
      In c seen /\ cscode c <> scode school /\ distance_to school c = Some d
      /\ forall c' d', In c' seen -> cscode c' <> scode school ->
                       distance_to school c' = Some d' -> flt d' d = false
  end.

(** A sequence of calls of [allocate_to_centers] on one ledger, stopping at
    the first exception. *)
Record Call := mkCall {
  call_centers : list CandidateCenter;
  call_school : School;
  call_to_allot : Z;
  call_stretch : bool
}.

Fixpoint run_calls (calls : list Call) : M unit :=
  match calls with
  | [] => ret tt
  | c :: calls' =>
      let* _ := allocate_to_centers (call_centers c) (call_school c)
                                    (call_to_allot c) (call_stretch c) in
      run_calls calls'
  end.

End Model.

(** ** A concrete instance for running the model

    Coordinates are decimal integers on a grid and the distance is the
    taxicab distance in grid units; [uniform(a, b)] always draws [a]. *)

Definition grid_float (s : string) : option Z :=
  if String.eqb s "" then None else option_map Z.of_int (NilZero.int_of_string s).

#[export] Instance grid_numerics : Numerics := {|
  float_t := Z;
  float := grid_float;
  float_of_int := fun z => z;
  haversine_distance :=
    fun lat1 lon1 lat2 lon2 => Some (Z.abs (lat2 - lat1) + Z.abs (lon2 - lon1));
  fmul := Z.mul;
  fsub := Z.sub;
  flt := Z.ltb;
  fle := Z.leb;
  Rng := unit;
  uniform := fun a _ g => (a, g)
|}.

(** ** Example rows *)

Definition school_S (n : Z) : School := mkSchool "S" n "School S" "0" "0".
Definition center_A : Center := mkCenter "A" "Center A" "A road" 100 "1" "0".
Definition center_A5 : Center := mkCenter "A" "Center A" "A road" 5 "1" "0".
Definition center_B : Center := mkCenter "B" "Center B" "B road" 100 "0" "1".
Definition center_C : Center := mkCenter "C" "Center C" "C road" 50 "1" "0".
Definition cand_A : CandidateCenter := center_to_dict center_A 1.
Definition cand_A5 : CandidateCenter := center_to_dict center_A5 1.
Definition cand_B : CandidateCenter := center_to_dict center_B 1.
Definition cand_C : CandidateCenter := center_to_dict center_C 1.

(** Scenario C of the specification: 500 students, one center of 30 seats. *)
Definition school_S3 : School := mkSchool "S3" 500 "School Three" "0" "0".
Definition center_C1 : Center := mkCenter "C1" "Center One" "C1 road" 30 "1" "0".
Definition cand_C1 : CandidateCenter := center_to_dict center_C1 1.

(** A school whose latitude column is empty. *)
Definition school_nolat : School := mkSchool "N" 50 "School N" "" "0".

(** The state before the loop, for the given centers. *)
Definition grid_world (centers : list Center) : World :=
  @initial_world grid_numerics centers tt.

(** Preferences that rank A before B before C for school S. *)
Definition prefs_ABC : gmap string (gmap string Z) :=
  {[ "S" := {[ "A" := 3; "B" := 2; "C" := 1 ]} ]}.

(** The normal pass for 102 students at center A, then a stretch pass for
    the two that are left. *)
Definition normal_then_stretch : list Call :=
  [mkCall [cand_A] (school_S 102) 102 false; mkCall [cand_A] (school_S 102) 2 true].

(** * More of the script *)

(** ** Reading the preferences (lines 110-127) *)

(** A row of the preference file as [csv.DictReader] yields it. *)
Record PrefRow := mkPrefRow {
  p_scode : string;
  p_cscode : string;
  p_pref : string
}.

Section Preferences.

(** [int(s)]; [None] stands for the [ValueError] of an unparsable string. *)
Variable int : string -> option Z.

(** [... int(row['pref'])], continued by [k] when the string parses. *)
Definition with_int_pref {A : Type} (row : PrefRow) (k : Z -> A) : result A :=
  match int (p_pref row) with
  | Some n => Ok (k n)
  | None => Raise ValueError
  end.

(** The body of the loop of lines 118-125. *)
Definition read_prefs_row (prefs : gmap string (gmap string Z)) (row : PrefRow)
  : result (gmap string (gmap string Z)) :=
  match prefs !! p_scode row with
  | Some d =>
      if bool_decide (d = ∅)
      then with_int_pref row (fun n => <[p_scode row := {[p_cscode row := n]}]> prefs)
      else
        match d !! p_cscode row with
        | Some v =>
            if v =? 0
            then with_int_pref row (fun n => <[p_scode row := <[p_cscode row := n]> d]> prefs)
            else with_int_pref row
                   (fun n => <[p_scode row := <[p_cscode row := v + n]> d]> prefs)
        | None =>
            with_int_pref row (fun n => <[p_scode row := <[p_cscode row := n]> d]> prefs)
        end
  | None => with_int_pref row (fun n => <[p_scode row := {[p_cscode row := n]}]> prefs)
  end.

Fixpoint read_prefs_loop (rows : list PrefRow) (prefs : gmap string (gmap string Z))
  : result (gmap string (gmap string Z)) :=
  match rows with
  | [] => Ok prefs
  | row :: rows' =>
      match read_prefs_row prefs row with
      | Ok prefs' => read_prefs_loop rows' prefs'
      | Raise e => Raise e
      end
  end.

(** [read_prefs], on the rows of the file. *)
Definition read_prefs (rows : list PrefRow) : result (gmap string (gmap string Z)) :=
  read_prefs_loop rows ∅.

(** The sum of the scores of the rows of one (school, center) pair. *)
Definition pref_total (rows : list PrefRow) (scode cscode : string) : Z :=
  fold_right
    (fun row acc =>
       if String.eqb (p_scode row) scode && String.eqb (p_cscode row) cscode
       then default 0 (int (p_pref row)) + acc
       else acc)
    0 rows.

End Preferences.

(** Decimal integers, the strings [int] accepts in the examples. *)
Definition decimal_int (s : string) : option Z :=
  if String.eqb s "" then None else option_map Z.of_int (NilZero.int_of_string s).

(** ** Totals *)

Definition sum_values (m : gmap string Z) : Z :=
  map_fold (fun _ n acc => acc + n) 0 m.

(** The students of the rows of [schools] whose code is [code]. *)
Definition count_total (schools : list School) (code : string) : Z :=
  fold_right (fun s acc => if String.eqb (scode s) code then count s + acc else acc) 0 schools.

Section Observations.
Context `{Numerics}.

(** The students recorded for school [s], over all centers. *)
Definition school_total (w : World) (s : string) : Z :=
  match allocations w !! s with
  | Some d => sum_values d
  | None => 0
  end.

(** The seats left, over all centers. *)
Definition cap_total (w : World) : Z := sum_values (centers_remaining_cap w).

(** [triple P m Q E]: from a world with [P], the computation [m] either
    returns a value and a world with [Q] or raises an exception with [E]. *)
Definition triple {A : Type} (P : World -> Prop) (m : M A)
    (Q : A -> World -> Prop) (E : exn -> World -> Prop) : Prop :=
  forall w, P w ->
    match m w with
    | (Ok a, w') => Q a w'
    | (Raise e, w') => E e w'
    end.

(** The within-distance set of line 88-89, in the order of the centers. *)
Definition qualifying (prefs : gmap string (gmap string Z)) (school : School)
    (distance_threshold : float_t) (centers : list Center) : list CandidateCenter :=
  omap (fun c =>
          match distance_to school c with
          | Some d =>
              if qualifies prefs school distance_threshold c
              then Some (center_to_dict c d) else None
          | None => None
          end) centers.

(** Every entry of [allocated_centers] maps the code of a candidate of
    [centers] to that candidate, no code appears twice, and each of these
    centers has an allocation recorded for the school. *)
Definition entries_recorded (centers : list CandidateCenter) (school : School)
    (allocated_centers : list (string * CandidateCenter)) (w : World) : Prop :=
  NoDup (dict_keys allocated_centers)
  /\ forall k x, In (k, x) allocated_centers ->
       k = cscode (cand x) /\ In x centers /\ is_Some (recorded w (scode school) k).

(** The loop variables of [centers_within_distance] hold only rows of
    [centers]. *)
Definition scan_within (centers : list Center) (st : scan_state) : Prop :=
  (forall x, In x (fst st) -> In (cand x) centers)
  /\ forall c d, snd st = Some (c, d) -> In c centers.

(** Every center row has a counter. *)
Definition counters_cover (centers : list Center) (w : World) : Prop :=
  forall c, In c centers -> is_Some (centers_remaining_cap w !! cscode c).

(** The tracked nearest center sits at a position of [seen] before which
    every center of another code is strictly farther. *)
Definition nearest_is_first (school : School) (seen : list Center)
    (nr : option (Center * float_t)) : Prop :=
  match nr with
  | None => True
  | Some (c, d) =>
      exists i : nat,
        seen !! i = Some c
        /\ forall (j : nat) c' d', (j < i)%nat -> seen !! j = Some c' ->
             cscode c' <> scode school -> distance_to school c' = Some d' ->
             flt d d' = true
  end.

(** The counter of [k] is where it started, at [v], or it has been taken
    down to a value that is not negative. *)
Definition never_below_zero (k : string) (v : Z) (w : World) : Prop :=
  exists v', centers_remaining_cap w !! k = Some v' /\ v' <= v /\ (v' = v \/ 0 <= v').

(** The seats of center [c] accounted for: the students recorded against it
    and what is left on its counter. *)
Definition held (w : World) (c : string) : Z :=
  allocated_to_center w c + default 0 (centers_remaining_cap w !! c).

(** The guard of line 201 does not skip the candidate and line 204 finds no
    counter for its code. *)
Definition lacks_counter (school : School) (w : World) (c : CandidateCenter) : bool :=
  match recorded w (cscode (cand c)) (scode school),
        centers_remaining_cap w !! cscode (cand c) with
  | None, None => true
  | _, _ => false
  end.

(** [<] is cotransitive on the distances from the school to the centers of
    the list, as [<] on doubles is when none of these distances is a NaN. *)
Definition distances_ordered (school : School) (centers : list Center) : Prop :=
  forall c1 c2 c3 d1 d2 d3,
    In c1 centers -> In c2 centers -> In c3 centers ->
    distance_to school c1 = Some d1 -> distance_to school c2 = Some d2 ->
    distance_to school c3 = Some d3 ->
    flt d1 d2 = true -> flt d1 d3 = true \/ flt d3 d2 = true.

(** No element of a list of keyed elements has a key strictly below the key
    of an element before it. *)
Fixpoint keys_ascending {A : Type} (l : list (float_t * A)) : Prop :=
  match l with
  | [] => True
  | x :: l' => Forall (fun y => flt (fst y) (fst x) = false) l' /\ keys_ascending l'
  end.

End Observations.

(** ** More example rows *)

Definition pref_rows : list PrefRow :=
  [mkPrefRow "S" "A" "3"; mkPrefRow "S" "A" "4"; mkPrefRow "S" "B" "-1"].

(** A center with the code of school S, and one whose latitude is no number. *)
Definition center_self : Center := mkCenter "S" "Center S" "S road" 40 "0" "0".
Definition center_bad : Center := mkCenter "X" "Center X" "X road" 40 "north" "0".

Definition school_small : School := mkSchool "T" 100 "School T" "0" "0".
Definition school_L1 : School := mkSchool "L1" 600 "School L1" "0" "0".
Definition school_L2 : School := mkSchool "L2" 700 "School L2" "0" "0".

(** The ledger after the normal pass of [normal_then_stretch]: center A is
    full. *)
Definition world_A_full : World :=
  snd (run_calls (firstn 1 normal_then_stretch) (grid_world [center_A])).

(** * Properties *)

Section Properties.
Context `{Numerics}.

(** ** The ledger *)

Lemma allocate_result (s c : string) (n : Z) (w : World) :
  exists a, allocate s c n w = (Ok tt, set_allocations a w)
    /\ (match a !! s with Some d => d !! c | None => None end)
       = Some (match recorded w s c with Some m => m + n | None => n end)
    /\ (forall s' c', (s' <> s \/ c' <> c) ->
          (match a !! s' with Some d => d !! c' | None => None end) = recorded w s' c').
Proof.
  unfold allocate, recorded.
  destruct (allocations w !! s) as [d|] eqn:Hs.
  - destruct (d !! c) as [m|] eqn:Hc; eexists; (split; [reflexivity|]); split.
    + rewrite lookup_insert_eq. apply lookup_insert_eq.
    + intros s' c' Hne. destruct (decide (s = s')) as [<-|Hss].
      * rewrite lookup_insert_eq, Hs. destruct Hne as [Hne|Hne]; [congruence|].
        apply lookup_insert_ne. congruence.
      * rewrite lookup_insert_ne by exact Hss. reflexivity.
    + rewrite lookup_insert_eq. apply lookup_insert_eq.
    + intros s' c' Hne. destruct (decide (s = s')) as [<-|Hss].
      * rewrite lookup_insert_eq, Hs. destruct Hne as [Hne|Hne]; [congruence|].
        apply lookup_insert_ne. congruence.
      * rewrite lookup_insert_ne by exact Hss. reflexivity.
  - eexists; (split; [reflexivity|]); split.
    + rewrite lookup_insert_eq. apply lookup_singleton_eq.
    + intros s' c' Hne. destruct (decide (s = s')) as [<-|Hss].
      * rewrite lookup_insert_eq, Hs. destruct Hne as [Hne|Hne]; [congruence|].
        apply lookup_singleton_ne. congruence.
      * rewrite lookup_insert_ne by exact Hss. reflexivity.
Qed.

Lemma is_allocated_result (scode1 scode2 : string) (w : World) :
  is_allocated scode1 scode2 w
  = (Ok (match recorded w scode1 scode2 with Some _ => true | None => false end), w).
Proof.
  unfold is_allocated, recorded.
  destruct (allocations w !! scode1); reflexivity.
Qed.

(** ** One iteration of the allocation loop

    Every iteration appends its row to the intermediate file.  Beyond that it
    either leaves the ledger alone (the candidate is skipped, fails the
    test of line 213, or an exception is raised), or it records [next] students
    for the school and takes them off the candidate's counter. *)

Lemma body_cases (centers : list CandidateCenter) (school : School) (pc : Z)
    (stretch : bool) (center : CandidateCenter) (to_allot : Z)
    (ac : list (string * CandidateCenter)) (w : World) :
  let w0 := set_intermediate_file (intermediate_file w ++ [(school, center)]) w in
  let r := allocate_to_centers_body centers school pc stretch center (to_allot, ac) w in
  (snd r = w0 /\ (fst r = Ok (to_allot, ac) \/ exists e, fst r = Raise e))
  \/ exists v next tested code ac' a,
       centers_remaining_cap w !! cscode (cand center) = Some v
    /\ next_allot_of stretch to_allot pc center v = (next, tested)
    /\ 0 < to_allot /\ 0 < next /\ next <= tested
    /\ recorded w (cscode (cand center)) (scode school) = None
    /\ ((code = cscode (cand center) /\ ac' = dict_set ac code center
         /\ ~ (next < MIN_STUDENT_IN_CENTER /\ ac <> []))
        \/ (next < MIN_STUDENT_IN_CENTER /\ ac <> [] /\ ac' = ac
            /\ exists c0 rest, centers = c0 :: rest /\ code = cscode (cand c0)))
    /\ (match a !! scode school with Some d => d !! code | None => None end)
       = Some (match recorded w (scode school) code with Some m => m + next | None => next end)
    /\ (forall s' c', (s' <> scode school \/ c' <> code) ->
          (match a !! s' with Some d => d !! c' | None => None end) = recorded w s' c')
    /\ r = (Ok (to_allot - next, ac'),
            mkWorld a (<[cscode (cand center) := v - next]> (centers_remaining_cap w))
                    (remaining w) (intermediate_file w0) (allocation_file w)
                    (warnings w) (rng w)).
Proof.
  intros w0 r. subst r.
  unfold allocate_to_centers_body, bind, writerow. fold w0.
  rewrite (is_allocated_result (cscode (cand center)) (scode school) w0).
  change (recorded w0 (cscode (cand center)) (scode school))
    with (recorded w (cscode (cand center)) (scode school)).
  destruct (recorded w (cscode (cand center)) (scode school)) as [m|] eqn:Hrec.
  { left. cbn. auto. }
  unfold remaining_cap_get.
  change (centers_remaining_cap w0) with (centers_remaining_cap w).
  destruct (centers_remaining_cap w !! cscode (cand center)) as [v|] eqn:Hv.
  2:{ left. cbn. eauto. }
  destruct (next_allot_of stretch to_allot pc center v) as [next tested] eqn:Hnext.
  destruct ((0 <? to_allot) && (0 <? next) && (next <=? tested)) eqn:Hadm.
  2:{ left. cbn. auto. }
  apply andb_true_iff in Hadm as [Hadm H3]. apply andb_true_iff in Hadm as [H1 H2].
  apply Z.ltb_lt in H1. apply Z.ltb_lt in H2. apply Z.leb_le in H3.
  destruct ((next <? MIN_STUDENT_IN_CENTER) && (0 <? length ac)%nat) eqn:Hred.
  - apply andb_true_iff in Hred as [H4 H5].
    apply Z.ltb_lt in H4. apply Nat.ltb_lt in H5.
    assert (Hac : ac <> []) by (intros ->; cbn in H5; lia).
    destruct centers as [|c0 rest].
    { left. cbn. eauto. }
    right. unfold ret.
    destruct (allocate_result (scode school) (cscode (cand c0)) next w0)
      as (a & Ha & Hrec1 & Hrec2).
    rewrite Ha. unfold remaining_cap_sub.
    change (centers_remaining_cap (set_allocations a w0)) with (centers_remaining_cap w).
    rewrite Hv.
    exists v, next, tested, (cscode (cand c0)), ac, a.
    repeat split; try assumption.
    right. repeat split; try assumption. eauto.
  - right. unfold ret.
    destruct (allocate_result (scode school) (cscode (cand center)) next w0)
      as (a & Ha & Hrec1 & Hrec2).
    rewrite Ha. unfold remaining_cap_sub.
    change (centers_remaining_cap (set_allocations a w0)) with (centers_remaining_cap w).
    rewrite Hv.
    exists v, next, tested, (cscode (cand center)), (dict_set ac (cscode (cand center)) center), a.
    repeat split; try assumption.
    left. repeat split.
    intros [H4 Hac]. apply andb_false_iff in Hred as [Hred|Hred].
    + apply Z.ltb_ge in Hred. lia.
    + apply Nat.ltb_ge in Hred. destruct ac; [congruence | cbn in Hred; lia].
Qed.

(** ** The remaining-capacity counters *)

(** Without stretch, an amount that passes the test of line 213 leaves the
    candidate's counter at zero or above. *)
Lemma next_allot_leaves (to_allot pc : Z) (center : CandidateCenter) (v next tested : Z) :
  next_allot_of false to_allot pc center v = (next, tested) ->
  next <= tested ->
  0 <= v - next.
Proof.
  unfold next_allot_of. intros [= <- <-] Hle. lia.
Qed.

Lemma body_cap (centers : list CandidateCenter) (school : School) (pc : Z)
    (stretch : bool) (center : CandidateCenter) (st : loop_state) (w : World)
    (k : string) (v : Z) :
  centers_remaining_cap w !! k = Some v ->
  exists v',
    centers_remaining_cap (snd (allocate_to_centers_body centers school pc stretch center st w)) !! k
      = Some v'
    /\ v' <= v
    /\ (v' = v \/ (cscode (cand center) = k /\ (stretch = false -> 0 <= v'))).
Proof.
  intros Hk. destruct st as [to_allot ac].
  destruct (body_cases centers school pc stretch center to_allot ac w)
    as [[Hw _] | (v0 & next & tested & code & ac' & a & Hv0 & Hnext & H1 & H2 & H3 & _ & _ & _ & _ & Hr)].
  - rewrite Hw. exists v. cbn. auto with zarith.
  - rewrite Hr. cbn [snd centers_remaining_cap].
    destruct (decide (cscode (cand center) = k)) as [Heq|Hne].
    + subst k. rewrite Hk in Hv0. injection Hv0 as <-.
      exists (v - next). rewrite lookup_insert_eq.
      split; [reflexivity|]. split; [lia|]. right. split; [reflexivity|].
      intros ->. eapply next_allot_leaves; eassumption.
    + exists v. rewrite lookup_insert_ne by exact Hne. auto with zarith.
Qed.

Lemma for_each_body_cap (centers : list CandidateCenter) (school : School) (pc : Z)
    (stretch : bool) (l : list CandidateCenter) (st : loop_state) (w : World)
    (k : string) (v : Z) :
  centers_remaining_cap w !! k = Some v ->
  exists v',
    centers_remaining_cap
      (snd (for_each l (allocate_to_centers_body centers school pc stretch) st w)) !! k
      = Some v'
    /\ v' <= v
    /\ (v' = v
        \/ exists c, In c l /\ cscode (cand c) = k /\ (stretch = false -> 0 <= v')).
Proof.
  revert st w v. induction l as [|c l IH]; intros st w v Hk.
  - exists v. cbn. auto with zarith.
  - cbn [for_each]. unfold bind.
    destruct (body_cap centers school pc stretch c st w k v Hk) as (v1 & Hv1 & Hle1 & Hc1).
    destruct (allocate_to_centers_body centers school pc stretch c st w) as [[st1|e] w1];
      cbn [snd] in Hv1.
    + destruct (IH st1 w1 v1 Hv1) as (v2 & Hv2 & Hle2 & Hc2).
      exists v2. split; [exact Hv2|]. split; [lia|].
      destruct Hc2 as [-> | (c' & Hin & Hcode & Hb)].
      * destruct Hc1 as [-> | [Hcode Hb]]; [left; reflexivity|].
        right. exists c. split; [left; reflexivity|]. auto.
      * right. exists c'. split; [right; exact Hin|]. auto.
    + exists v1. cbn [snd]. split; [exact Hv1|]. split; [exact Hle1|].
      destruct Hc1 as [-> | [Hcode Hb]]; [left; reflexivity|].
      right. exists c. split; [left; reflexivity|]. auto.
Qed.

(** C7.  In a non-stretch call the loop uses the per-center cap
    [calc_per_center] gives for the count the call received (100 up to 400,
    200 above), and an iteration that reaches the counter [v] of its
    candidate proposes
    [min(to_allot, perCenterCap, max(v, MIN_STUDENT_IN_CENTER))]: either
    nothing is allocated, or exactly that amount is, and then
    [to_allot > 0], the amount is positive and [v] is at least the amount. *)
Theorem non_stretch_amount (centers : list CandidateCenter) (school : School) (count0 : Z)
    (center : CandidateCenter) (to_allot : Z) (ac : list (string * CandidateCenter))
    (w : World) (v : Z) (st' : loop_state) (w' : World) :
  centers_remaining_cap w !! cscode (cand center) = Some v ->
  allocate_to_centers_body centers school (calc_per_center count0) false center
    (to_allot, ac) w = (Ok st', w') ->
  let perCenterCap := if count0 <=? 400 then 100 else 200 in
  let amount := Z.min to_allot (Z.min perCenterCap (Z.max v MIN_STUDENT_IN_CENTER)) in
  allocate_to_centers centers school count0 false
  = for_each centers (allocate_to_centers_body centers school perCenterCap false) (count0, [])
  /\ ((fst st' = to_allot /\ allocations w' = allocations w
       /\ centers_remaining_cap w' = centers_remaining_cap w)
      \/ (0 < to_allot /\ 0 < amount /\ amount <= v
          /\ fst st' = to_allot - amount
          /\ centers_remaining_cap w'
             = <[cscode (cand center) := v - amount]> (centers_remaining_cap w)
          /\ exists code,
               recorded w' (scode school) code
               = Some (match recorded w (scode school) code with
                       | Some m => m + amount
                       | None => amount
                       end))).
Proof.
  intros Hv Hbody perCenterCap amount. split; [reflexivity|].
  destruct (body_cases centers school (calc_per_center count0) false center to_allot ac w)
    as [[Hw Hres] | (v0 & next & tested & code & ac' & a & Hv0 & Hnext & H1 & H2 & H3
                     & _ & _ & Hrec & _ & Hr)].
  - rewrite Hbody in Hw, Hres. cbn [fst snd] in Hw, Hres. left.
    destruct Hres as [Hres | [e Hres]]; [|discriminate].
    injection Hres as ->. subst w'. cbn. auto.
  - rewrite Hbody in Hr. rewrite Hv in Hv0. injection Hv0 as <-.
    unfold next_allot_of in Hnext. injection Hnext as Hn Ht. subst tested.
    fold perCenterCap in Hn. fold amount in Hn. subst next.
    injection Hr as -> ->. right. cbn [fst]. unfold recorded at 1.
    cbn [centers_remaining_cap allocations].
    repeat split; try assumption. exists code. exact Hrec.
Qed.

(** C2 (amended).  A (school, center) pair can be written more than once:
    [allocate] stores the count when the pair is new and adds the count to
    the stored one when the pair is already recorded.  The guard of the
    allocation loop looks up the reversed pair: a candidate is skipped,
    leaving the ledger and the loop's variables as they were, when an
    allocation from the candidate's code (as a school) to this school's code
    (as a center) is already recorded. *)
Theorem allocate_adds_guard_is_mutual :
  (forall (s c : string) (n : Z) (w : World),
      fst (allocate s c n w) = Ok tt
      /\ recorded (snd (allocate s c n w)) s c
         = Some (match recorded w s c with Some m => m + n | None => n end))
  /\ (forall (centers : list CandidateCenter) (school : School) (pc : Z) (stretch : bool)
             (center : CandidateCenter) (st : loop_state) (w : World) (m : Z),
        recorded w (cscode (cand center)) (scode school) = Some m ->
        fst (allocate_to_centers_body centers school pc stretch center st w) = Ok st
        /\ allocations (snd (allocate_to_centers_body centers school pc stretch center st w))
           = allocations w
        /\ centers_remaining_cap
             (snd (allocate_to_centers_body centers school pc stretch center st w))
           = centers_remaining_cap w).
Proof.
  split.
  - intros s c n w. destruct (allocate_result s c n w) as (a & Ha & Hrec & _).
    rewrite Ha. cbn [fst snd]. split; [reflexivity|]. exact Hrec.
  - intros centers school pc stretch center [to_allot ac] w m Hrec.
    destruct (body_cases centers school pc stretch center to_allot ac w)
      as [[Hw Hres] | (v0 & next & tested & code & ac' & a & _ & _ & _ & _ & _ & Hnone & _)].
    + rewrite Hw. cbn [allocations centers_remaining_cap set_intermediate_file].
      split; [|split; reflexivity].
      destruct Hres as [Hres | [e Hres]]; [exact Hres|].
      exfalso. revert Hres.
      unfold allocate_to_centers_body, bind, writerow.
      rewrite is_allocated_result.
      change (recorded (set_intermediate_file _ w) (cscode (cand center)) (scode school))
        with (recorded w (cscode (cand center)) (scode school)).
      rewrite Hrec. cbn. discriminate.
    + congruence.
Qed.

(** ** Invariants through the monad *)

Lemma satisfies_ret {A : Type} (P : World -> Prop) (Q : A -> Prop) (a : A) :
  Q a -> satisfies P Q (ret a).
Proof. intros HQ w HP. cbn. split; [exact HP|]. intros a' [= <-]. exact HQ. Qed.

Lemma satisfies_raise {A : Type} (P : World -> Prop) (Q : A -> Prop) (e : exn) :
  satisfies P Q (raise e).
Proof. intros w HP. cbn. split; [exact HP|]. discriminate. Qed.

Lemma satisfies_bind {A B : Type} (P : World -> Prop) (Q : A -> Prop) (R : B -> Prop)
    (m : M A) (k : A -> M B) :
  satisfies P Q m -> (forall a, Q a -> satisfies P R (k a)) -> satisfies P R (bind m k).
Proof.
  intros Hm Hk w HP. unfold bind.
  destruct (Hm w HP) as [HP1 HQ]. destruct (m w) as [[a|e] w1]; cbn [fst snd] in *.
  - apply (Hk a (HQ a eq_refl) w1 HP1).
  - split; [exact HP1|]. discriminate.
Qed.

Lemma satisfies_weaken {A : Type} (P : World -> Prop) (Q Q' : A -> Prop) (m : M A) :
  (forall a, Q a -> Q' a) -> satisfies P Q m -> satisfies P Q' m.
Proof.
  intros Himp Hm w HP. destruct (Hm w HP) as [HP1 HQ]. split; [exact HP1|].
  intros a Ha. apply Himp, HQ, Ha.
Qed.

Lemma satisfies_for_each {A S : Type} (P : World -> Prop) (Q : S -> Prop)
    (body : A -> S -> M S) (l : list A) :
  (forall x s, In x l -> Q s -> satisfies P Q (body x s)) ->
  forall s, Q s -> satisfies P Q (for_each l body s).
Proof.
  induction l as [|x l IH]; intros Hbody s HQ.
  - apply satisfies_ret, HQ.
  - cbn [for_each]. eapply satisfies_bind.
    + apply Hbody; [left; reflexivity | exact HQ].
    + intros s' HQ'. apply IH; [|exact HQ'].
      intros y s0 Hin. apply Hbody. right. exact Hin.
Qed.

(** ** [sorted] returns elements of its argument *)

Lemma decorate_values {A : Type} (key : A -> Rng -> float_t * Rng) (l : list A) (g : Rng) :
  map snd (fst (decorate key l g)) = l.
Proof.
  revert g. induction l as [|x l IH]; intros g; cbn [decorate]; [reflexivity|].
  destruct (key x g) as [k g1]. specialize (IH g1).
  destruct (decorate key l g1) as [r g2]. cbn in *. rewrite IH. reflexivity.
Qed.

Lemma insert_by_key_In {A : Type} (x y : float_t * A) (l : list (float_t * A)) :
  In y (insert_by_key x l) -> y = x \/ In y l.
Proof.
  induction l as [|z l IH]; cbn [insert_by_key].
  - intros [<-|[]]. left; reflexivity.
  - destruct (flt (fst x) (fst z)).
    + intros [<-|Hin]; [left; reflexivity | right; exact Hin].
    + intros [<-|Hin]; [right; left; reflexivity|].
      destruct (IH Hin) as [->|Hin']; [left; reflexivity | right; right; exact Hin'].
Qed.

Lemma sort_decorated_In {A : Type} (l : list (float_t * A)) (y : float_t * A) :
  In y (sort_decorated l) -> In y l.
Proof.
  unfold sort_decorated.
  assert (Hgen : forall acc, In y (fold_left (fun acc x => insert_by_key x acc) l acc) ->
                             In y acc \/ In y l).
  { induction l as [|x l IH]; intros acc; cbn [fold_left]; [auto|].
    intros Hin. destruct (IH _ Hin) as [Hin'|Hin']; [|right; right; exact Hin'].
    destruct (insert_by_key_In _ _ _ Hin') as [->|Hacc]; [right; left; reflexivity | left; exact Hacc]. }
  intros Hin. destruct (Hgen [] Hin) as [[]|Hl]. exact Hl.
Qed.

Lemma sorted_result {A : Type} (key : A -> Rng -> float_t * Rng) (l : list A) (w : World) :
  exists l' g, sorted key l w = (Ok l', set_rng g w) /\ forall x, In x l' -> In x l.
Proof.
  unfold sorted. pose proof (decorate_values key l (rng w)) as Hd.
  destruct (decorate key l (rng w)) as [d g]. cbn [fst] in Hd.
  eexists _, g. split; [reflexivity|].
  intros x Hin. apply in_map_iff in Hin as ((k & x') & Hx & Hin). cbn in Hx. subst x'.
  apply sort_decorated_In in Hin. rewrite <- Hd.
  apply in_map_iff. exists (k, x). auto.
Qed.

Lemma set_rng_same (w : World) : set_rng (rng w) w = w.
Proof. destruct w; reflexivity. Qed.

(** ** The scan of [centers_within_distance] *)

Lemma scan_center_ok (prefs : gmap string (gmap string Z)) (school : School)
    (th : float_t) (c : Center) (wd : list CandidateCenter)
    (nr : option (Center * float_t)) (w : World) (d : float_t) :
  distance_to school c = Some d ->
  scan_center prefs school th c (wd, nr) w
  = (Ok (if String.eqb (scode school) (cscode c) then (wd, nr)
         else (if qualifies prefs school th c then (wd ++ [center_to_dict c d])%list else wd,
               match nr with
               | None => Some (c, d)
               | Some (_, nd) => if flt d nd then Some (c, d) else nr
               end)), w).
Proof.
  unfold distance_to, scan_center, qualifies, distance_to, value_or_raise, bind, ret.
  destruct (float (s_lat school)) as [a1|]; [|discriminate].
  destruct (float (s_long school)) as [a2|]; [|discriminate].
  destruct (float (lat c)) as [a3|]; [|discriminate].
  destruct (float (long c)) as [a4|]; [|discriminate].
  intros ->.
  destruct (String.eqb (scode school) (cscode c)); [reflexivity|]. cbn [negb andb].
  destruct nr as [[c0 nd]|];
    destruct (fle d th && (PREF_CUTOFF <? get_pref prefs (scode school) (cscode c)));
    reflexivity.
Qed.

(** Whatever the coordinates, an iteration leaves the world alone, puts only
    centers of another code in [within_distance] and tracks only such a
    center as the nearest. *)
Lemma scan_center_excludes_self (prefs : gmap string (gmap string Z)) (school : School)
    (th : float_t) (c : Center) (st : scan_state) (w0 : World) :
  scan_excludes_self school st ->
  satisfies (fun w => w = w0) (scan_excludes_self school) (scan_center prefs school th c st).
Proof.
  intros [Hwd Hnr] w ->. destruct st as [wd nr]. cbn [fst snd] in Hwd, Hnr.
  unfold scan_center, value_or_raise, bind, ret, raise.
  destruct (float (s_lat school)) as [a1|]; [|split; [reflexivity | discriminate]].
  destruct (float (s_long school)) as [a2|]; [|split; [reflexivity | discriminate]].
  destruct (float (lat c)) as [a3|]; [|split; [reflexivity | discriminate]].
  destruct (float (long c)) as [a4|]; [|split; [reflexivity | discriminate]].
  destruct (haversine_distance a1 a2 a3 a4) as [distance|];
    [|split; [reflexivity | discriminate]].
  destruct (String.eqb (scode school) (cscode c)) eqn:Hself.
  { split; [reflexivity|]. intros a [= <-]. split; assumption. }
  apply String.eqb_neq in Hself.
  assert (Hnew : forall c' d',
             match nr with
             | None => Some (c, distance)
             | Some (_, nd) => if flt distance nd then Some (c, distance) else nr
             end = Some (c', d') -> cscode c' <> scode school).
  { intros c' d'. destruct nr as [[c0 nd]|].
    - destruct (flt _ nd); [intros [= <- _]; congruence | apply Hnr].
    - intros [= <- _]. congruence. }
  destruct (fle _ th && _); (split; [reflexivity|]); intros a [= <-]; split;
    cbn [fst snd]; try assumption.
  apply Forall_app. split; [exact Hwd|]. constructor; [cbn; congruence | constructor].
Qed.

Lemma centers_within_distance_result (prefs : gmap string (gmap string Z))
    (school : School) (centers : list Center) (th : float_t) (w : World) :
  (exists g, snd (centers_within_distance prefs school centers th w) = set_rng g w)
  /\ Forall (fun c => cscode (cand c) <> scode school)
            (candidates_of (fst (centers_within_distance prefs school centers th w))).
Proof.
  unfold centers_within_distance.
  destruct ((String.length (s_lat school) =? 0)%nat || (String.length (s_long school) =? 0)%nat).
  { cbn. split; [exists (rng w); symmetry; apply set_rng_same | constructor]. }
  unfold bind.
  assert (Hinit : scan_excludes_self school ([], None)).
  { split; [constructor | discriminate]. }
  destruct (satisfies_for_each (fun w' => w' = w) (scan_excludes_self school)
              (scan_center prefs school th) centers
              (fun x s _ Hs => scan_center_excludes_self prefs school th x s w Hs)
              ([], None) Hinit w eq_refl) as [Hw Hst].
  destruct (for_each centers (scan_center prefs school th) ([], None) w) as [[[wd nr]|e] w1];
    cbn [fst snd] in Hw, Hst; subst w1.
  2:{ cbn. split; [exists (rng w); symmetry; apply set_rng_same | constructor]. }
  destruct (Hst _ eq_refl) as [Hwd Hnr]. cbn [fst snd] in Hwd, Hnr.
  destruct (0 <? length wd)%nat.
  - destruct (sorted_result (sort_key prefs school) wd w) as (l' & g & Hs & Hin).
    rewrite Hs. cbn [fst snd candidates_of]. split; [exists g; reflexivity|].
    apply Forall_forall. intros x Hx. rewrite Forall_forall in Hwd.
    apply Hwd. apply list_elem_of_In. apply Hin. apply list_elem_of_In. exact Hx.
  - destruct nr as [[c d]|]; cbn.
    + split; [exists (rng w); symmetry; apply set_rng_same|].
      constructor; [cbn; eapply Hnr; reflexivity | constructor].
    + split; [exists (rng w); symmetry; apply set_rng_same | constructor].
Qed.

(** ** What each operation leaves untouched *)

Lemma body_frame (centers : list CandidateCenter) (school : School) (pc : Z)
    (stretch : bool) (center : CandidateCenter) (st : loop_state) (w : World) :
  let w' := snd (allocate_to_centers_body centers school pc stretch center st w) in
  remaining w' = remaining w /\ warnings w' = warnings w
  /\ allocation_file w' = allocation_file w /\ rng w' = rng w.
Proof.
  destruct st as [to_allot ac].
  destruct (body_cases centers school pc stretch center to_allot ac w)
    as [[Hw _] | (v0 & next & tested & code & ac' & a & _ & _ & _ & _ & _ & _ & _ & _ & _ & Hr)];
    cbn zeta; [rewrite Hw | rewrite Hr]; cbn; auto.
Qed.

Lemma allocate_to_centers_frame (centers : list CandidateCenter) (school : School)
    (to_allot : Z) (stretch : bool) (w : World) :
  let w' := snd (allocate_to_centers centers school to_allot stretch w) in
  remaining w' = remaining w /\ warnings w' = warnings w
  /\ allocation_file w' = allocation_file w /\ rng w' = rng w.
Proof.
  cbn zeta. unfold allocate_to_centers.
  apply (satisfies_for_each
           (fun w' => remaining w' = remaining w /\ warnings w' = warnings w
                      /\ allocation_file w' = allocation_file w /\ rng w' = rng w)
           (fun _ => True)
           (allocate_to_centers_body centers school (calc_per_center to_allot) stretch)
           centers); [|exact I|auto].
  intros x st _ _ w1 (H1 & H2 & H3 & H4).
  destruct (body_frame centers school (calc_per_center to_allot) stretch x st w1)
    as (F1 & F2 & F3 & F4).
  split; [|auto]. repeat split; congruence.
Qed.

(** ** No allocation to the school's own code *)

Lemma body_no_self (centers : list CandidateCenter) (school : School) (pc : Z)
    (stretch : bool) (center : CandidateCenter) (st : loop_state) :
  cscode (cand center) <> scode school ->
  (forall c0 rest, centers = c0 :: rest -> cscode (cand c0) <> scode school) ->
  satisfies no_self_allocation (fun _ => True)
            (allocate_to_centers_body centers school pc stretch center st).
Proof.
  intros Hc Hhead w Hw. split; [|auto]. destruct st as [to_allot ac].
  destruct (body_cases centers school pc stretch center to_allot ac w)
    as [[Hw0 _] | (v0 & next & tested & code & ac' & a & _ & _ & _ & _ & _ & _ & Hcode & _
                   & Hothers & Hr)].
  - rewrite Hw0. exact Hw.
  - rewrite Hr. cbn [snd]. intros x. unfold recorded at 1. cbn [allocations].
    rewrite Hothers; [apply Hw|].
    destruct (decide (x = scode school)) as [->|Hne]; [right | left; exact Hne].
    destruct Hcode as [(-> & _) | (_ & _ & _ & c0 & rest & Hcs & ->)].
    + congruence.
    + intros Heq. apply (Hhead c0 rest Hcs). congruence.
Qed.

Lemma allocate_to_centers_no_self (centers : list CandidateCenter) (school : School)
    (to_allot : Z) (stretch : bool) :
  Forall (fun c => cscode (cand c) <> scode school) centers ->
  satisfies no_self_allocation (fun _ => True)
            (allocate_to_centers centers school to_allot stretch).
Proof.
  intros Hall. rewrite Forall_forall in Hall. unfold allocate_to_centers.
  apply satisfies_for_each; [|exact I].
  intros x st Hin _. apply body_no_self.
  - apply Hall, list_elem_of_In, Hin.
  - intros c0 rest ->. apply Hall. left.
Qed.

Lemma call_allocate_to_centers_no_self (centers : list CandidateCenter) (school : School)
    (to_allot : Z) (kwargs : list (string * bool)) :
  Forall (fun c => cscode (cand c) <> scode school) centers ->
  satisfies no_self_allocation (fun _ => True)
            (call_allocate_to_centers centers school to_allot kwargs).
Proof.
  intros Hall. unfold call_allocate_to_centers.
  destruct (bind_keywords kwargs).
  - apply allocate_to_centers_no_self, Hall.
  - apply satisfies_raise.
Qed.

Lemma centers_within_distance_keeps (P : World -> Prop)
    (prefs : gmap string (gmap string Z)) (school : School) (centers : list Center)
    (th : float_t) :
  (forall w g, P w -> P (set_rng g w)) ->
  satisfies P (Forall (fun c => cscode (cand c) <> scode school))
            (centers_within_distance prefs school centers th).
Proof.
  intros Hrng w HP.
  destruct (centers_within_distance_result prefs school centers th w) as [[g Hg] Hall].
  rewrite Hg. split; [apply Hrng, HP|].
  intros l Hl. rewrite Hl in Hall. exact Hall.
Qed.

Lemma write_allocation_row_keeps (P : World -> Prop) (s : School) (c : CandidateCenter) :
  (forall w l, P w -> P (set_allocation_file l w)) ->
  satisfies P (fun _ => True) (write_allocation_row s c tt).
Proof.
  intros Hfile w HP. split; [|auto]. unfold write_allocation_row.
  destruct (allocations w !! scode s) as [d|]; [|exact HP].
  destruct (d !! cscode (cand c)); [apply Hfile, HP | exact HP].
Qed.

Lemma school_iteration_no_self (prefs : gmap string (gmap string Z)) (centers : list Center)
    (s : School) :
  satisfies no_self_allocation (fun _ => True) (school_iteration prefs centers s tt).
Proof.
  unfold school_iteration.
  eapply satisfies_bind; [apply centers_within_distance_keeps; auto|].
  intros cands Hcands.
  eapply satisfies_bind; [apply call_allocate_to_centers_no_self, Hcands|].
  intros [to_allot ac] _.
  eapply (satisfies_bind _ (fun _ => True)).
  { destruct (0 <? to_allot); [|apply satisfies_ret; exact I].
    eapply satisfies_bind; [apply centers_within_distance_keeps; auto|].
    intros expanded Hexp. apply call_allocate_to_centers_no_self, Hexp. }
  intros [to_allot' ac'] _.
  eapply (satisfies_bind _ (fun _ => True)).
  { apply satisfies_for_each; [|exact I].
    intros c [] _ _. apply write_allocation_row_keeps. auto. }
  intros _ _. destruct (0 <? to_allot'); [|apply satisfies_ret; exact I].
  intros w Hw. split; [exact Hw | auto].
Qed.

Lemma sorted_keeps {A : Type} (P : World -> Prop) (key : A -> Rng -> float_t * Rng)
    (l : list A) :
  (forall w g, P w -> P (set_rng g w)) ->
  satisfies P (fun _ => True) (sorted key l).
Proof.
  intros Hrng w HP. destruct (sorted_result key l w) as (l' & g & Hs & _).
  rewrite Hs. split; [apply Hrng, HP | auto].
Qed.

(** C8.  Candidate selection never returns a center of the school's own
    code, from the within-distance set or as the nearest-center fallback, and
    at the end of every run, completed or halted, no school has an allocation
    recorded against its own code. *)
Theorem self_exclusion (prefs : gmap string (gmap string Z)) (schools_tsv : list School)
    (centers : list Center) (seed : Rng) :
  (forall code, recorded (snd (main prefs schools_tsv centers seed)) code code = None)
  /\ (forall (school : School) (th : float_t) (w : World),
        Forall (fun c => cscode (cand c) <> scode school)
               (candidates_of (fst (centers_within_distance prefs school centers th w)))).
Proof.
  split.
  - unfold main.
    assert (Hsat : satisfies no_self_allocation (fun _ : unit => True)
                     (bind (sorted school_sort_key schools_tsv)
                           (fun schools => for_each schools (school_iteration prefs centers) tt))).
    { eapply satisfies_bind; [apply sorted_keeps; auto|].
      intros schools _. apply satisfies_for_each; [|exact I].
      intros s [] _ _. apply school_iteration_no_self. }
    apply Hsat. intros code. unfold recorded, initial_world. cbn [allocations].
    rewrite lookup_empty. reflexivity.
  - intros school th w. apply centers_within_distance_result.
Qed.

(** ** Selection succeeds at one threshold iff it does at another

    The threshold decides only which centers enter [within_distance]; the
    exceptions and the nearest center do not depend on it. *)

Lemma scan_center_threshold (prefs : gmap string (gmap string Z)) (school : School)
    (th1 th2 : float_t) (c : Center) (wd1 wd2 : list CandidateCenter)
    (nr : option (Center * float_t)) (w1 w2 : World) :
  (wd1 <> [] -> nr <> None) ->
  match scan_center prefs school th1 c (wd1, nr) w1 with
  | (Ok (wd1', nr'), _) =>
      (wd1' <> [] -> nr' <> None)
      /\ exists wd2', fst (scan_center prefs school th2 c (wd2, nr) w2) = Ok (wd2', nr')
  | (Raise e, _) => fst (scan_center prefs school th2 c (wd2, nr) w2) = Raise e
  end.
Proof.
  intros Hinv. unfold scan_center, value_or_raise, bind, ret, raise.
  destruct (float (s_lat school)) as [a1|]; [|reflexivity].
  destruct (float (s_long school)) as [a2|]; [|reflexivity].
  destruct (float (lat c)) as [a3|]; [|reflexivity].
  destruct (float (long c)) as [a4|]; [|reflexivity].
  destruct (haversine_distance a1 a2 a3 a4) as [distance|]; [|reflexivity].
  destruct (String.eqb (scode school) (cscode c)).
  { split; [exact Hinv | eexists; reflexivity]. }
  assert (Hsome : match nr with
                  | None => Some (c, distance)
                  | Some (_, nd) => if flt distance nd then Some (c, distance) else nr
                  end <> None).
  { destruct nr as [[c0 nd]|]; [destruct (flt distance nd)|]; discriminate. }
  destruct (fle distance th1 && _); destruct (fle distance th2 && _);
    (split; [intros _; exact Hsome | eexists; reflexivity]).
Qed.

Lemma scan_threshold (prefs : gmap string (gmap string Z)) (school : School)
    (th1 th2 : float_t) (l : list Center) (wd1 wd2 : list CandidateCenter)
    (nr : option (Center * float_t)) (w1 w2 : World) :
  (wd1 <> [] -> nr <> None) ->
  match for_each l (scan_center prefs school th1) (wd1, nr) w1 with
  | (Ok (wd1', nr'), _) =>
      (wd1' <> [] -> nr' <> None)
      /\ exists wd2',
           fst (for_each l (scan_center prefs school th2) (wd2, nr) w2) = Ok (wd2', nr')
  | (Raise e, _) => fst (for_each l (scan_center prefs school th2) (wd2, nr) w2) = Raise e
  end.
Proof.
  revert wd1 wd2 nr w1 w2. induction l as [|c l IH]; intros wd1 wd2 nr w1 w2 Hinv.
  - cbn. split; [exact Hinv | eexists; reflexivity].
  - cbn [for_each]. unfold bind.
    pose proof (scan_center_threshold prefs school th1 th2 c wd1 wd2 nr w1 w2 Hinv) as Hstep.
    destruct (scan_center prefs school th1 c (wd1, nr) w1) as [[[wd1' nr']|e] w1'].
    + destruct Hstep as [Hinv' [wd2' Hstep]].
      destruct (scan_center prefs school th2 c (wd2, nr) w2) as [[st2|e2] w2'];
        cbn [fst] in Hstep; [|discriminate].
      injection Hstep as ->. apply IH, Hinv'.
    + destruct (scan_center prefs school th2 c (wd2, nr) w2) as [[st2|e2] w2'];
        cbn [fst] in Hstep; [discriminate|].
      injection Hstep as ->. reflexivity.
Qed.

Lemma selection_any_threshold (prefs : gmap string (gmap string Z)) (school : School)
    (centers : list Center) (th1 th2 : float_t) (w1 w2 : World) (l1 : list CandidateCenter) :
  fst (centers_within_distance prefs school centers th1 w1) = Ok l1 ->
  exists l2, fst (centers_within_distance prefs school centers th2 w2) = Ok l2.
Proof.
  unfold centers_within_distance.
  destruct ((String.length (s_lat school) =? 0)%nat || (String.length (s_long school) =? 0)%nat).
  { intros _. eexists. reflexivity. }
  unfold bind.
  assert (Hinit : @nil CandidateCenter <> [] -> @None (Center * float_t) <> None)
    by (intros Hnil; congruence).
  pose proof (scan_threshold prefs school th1 th2 centers [] [] None w1 w2 Hinit) as Hscan.
  destruct (for_each centers (scan_center prefs school th1) ([], None) w1)
    as [[[wd1 nr1]|e] w1']; [|discriminate].
  destruct Hscan as [Hinv [wd2 Hscan]].
  destruct (for_each centers (scan_center prefs school th2) ([], None) w2)
    as [[st2|e2] w2']; cbn [fst] in Hscan; [|discriminate].
  injection Hscan as ->.
  intros Hok.
  destruct (0 <? length wd2)%nat.
  - destruct (sorted_result (sort_key prefs school) wd2 w2') as (l' & g & Hs & _).
    rewrite Hs. eexists. reflexivity.
  - destruct nr1 as [[c d]|]; [eexists; reflexivity|].
    destruct wd1 as [|x wd1]; [cbn in Hok; discriminate|].
    exfalso. apply Hinv; [discriminate | reflexivity].
Qed.

(** ** The stretch pass *)

Lemma call_with_stretch_capacity (centers : list CandidateCenter) (school : School)
    (to_allot : Z) (w : World) :
  call_allocate_to_centers centers school to_allot [("stretch_capacity", true)] w
  = (Raise TypeError, w).
Proof. reflexivity. Qed.

Lemma call_allocate_to_centers_keeps_report (r : Z) (l : list (Z * School * nat))
    (centers : list CandidateCenter) (school : School) (to_allot : Z)
    (kwargs : list (string * bool)) :
  satisfies (fun w => remaining w = r /\ warnings w = l) (fun _ => True)
            (call_allocate_to_centers centers school to_allot kwargs).
Proof.
  unfold call_allocate_to_centers. destruct (bind_keywords kwargs) as [stretch|].
  - intros w [Hr Hl].
    destruct (allocate_to_centers_frame centers school to_allot stretch w) as (F1 & F2 & _).
    split; [split; congruence | auto].
  - apply satisfies_raise.
Qed.

Lemma school_iteration_never_reports (r : Z) (l : list (Z * School * nat))
    (prefs : gmap string (gmap string Z)) (centers : list Center) (s : School) :
  satisfies (fun w => remaining w = r /\ warnings w = l) (fun _ => True)
            (school_iteration prefs centers s tt).
Proof.
  unfold school_iteration.
  eapply (satisfies_bind _ (fun _ => True)).
  { eapply satisfies_weaken; [|apply centers_within_distance_keeps; auto]. auto. }
  intros cands _.
  eapply satisfies_bind; [apply call_allocate_to_centers_keeps_report|].
  intros [to_allot ac] _.
  eapply (satisfies_bind _ (fun st : loop_state => fst st <= 0)).
  { destruct (0 <? to_allot) eqn:Hpos.
    - eapply (satisfies_bind _ (fun _ => True)).
      { eapply satisfies_weaken; [|apply centers_within_distance_keeps; auto]. auto. }
      intros expanded _ w Hw. rewrite call_with_stretch_capacity.
      split; [exact Hw | discriminate].
    - apply satisfies_ret. cbn. apply Z.ltb_ge, Hpos. }
  intros [to_allot' ac'] Hle. cbn [fst] in Hle.
  eapply (satisfies_bind _ (fun _ => True)).
  { apply satisfies_for_each; [|exact I].
    intros c [] _ _. apply write_allocation_row_keeps. auto. }
  intros _ _. destruct (0 <? to_allot') eqn:Hpos.
  - apply Z.ltb_lt in Hpos. lia.
  - apply satisfies_ret. exact I.
Qed.

Lemma main_never_reports (prefs : gmap string (gmap string Z)) (schools_tsv : list School)
    (centers : list Center) (seed : Rng) :
  remaining (snd (main prefs schools_tsv centers seed)) = 0
  /\ warnings (snd (main prefs schools_tsv centers seed)) = [].
Proof.
  unfold main.
  assert (Hsat : satisfies (fun w => remaining w = 0 /\ warnings w = [])
                     (fun _ : unit => True)
                     (bind (sorted school_sort_key schools_tsv)
                           (fun schools => for_each schools (school_iteration prefs centers) tt))).
  { eapply satisfies_bind; [apply sorted_keeps; auto|].
    intros schools _. apply satisfies_for_each; [|exact I].
    intros s [] _ _. apply school_iteration_never_reports. }
  apply Hsat. split; reflexivity.
Qed.

(** C1 (the code as it is).  When the normal pass of a school returns a
    positive remainder, the iteration halts the run with [TypeError]: the
    expanded candidate set is selected, but the second call passes the
    keyword [stretch_capacity], which [allocate_to_centers] does not have, so
    Python raises before the body runs.  Nothing is allocated beyond the
    normal pass and no shortfall is added or logged. *)
Theorem stretch_pass_raises (prefs : gmap string (gmap string Z)) (centers : list Center)
    (s : School) (w w0 w1 : World) (cands : list CandidateCenter) (to_allot : Z)
    (ac : list (string * CandidateCenter)) :
  centers_within_distance prefs s centers (float_of_int PREF_DISTANCE_THRESHOLD) w
    = (Ok cands, w0) ->
  allocate_to_centers cands s (count s) false w0 = (Ok (to_allot, ac), w1) ->
  0 < to_allot ->
  exists g,
    school_iteration prefs centers s tt w = (Raise TypeError, set_rng g w1)
    /\ remaining w1 = remaining w /\ warnings w1 = warnings w.
Proof.
  intros Hsel Hnormal Hpos.
  destruct (centers_within_distance_result prefs s centers
              (float_of_int ABS_DISTANCE_THRESHOLD) w1) as [[g Hg] _].
  destruct (selection_any_threshold prefs s centers (float_of_int PREF_DISTANCE_THRESHOLD)
              (float_of_int ABS_DISTANCE_THRESHOLD) w w1 cands) as [expanded Hexp];
    [rewrite Hsel; reflexivity|].
  assert (Hframe : remaining w1 = remaining w /\ warnings w1 = warnings w).
  { destruct (allocate_to_centers_frame cands s (count s) false w0) as (F1 & F2 & _).
    rewrite Hnormal in F1, F2. cbn [snd] in F1, F2.
    destruct (centers_within_distance_result prefs s centers
                (float_of_int PREF_DISTANCE_THRESHOLD) w) as [[g0 Hg0] _].
    rewrite Hsel in Hg0. cbn [snd] in Hg0. subst w0. cbn in F1, F2. auto. }
  exists g. split; [|exact Hframe].
  unfold school_iteration, bind. rewrite Hsel.
  change (call_allocate_to_centers cands s (count s) [] w0)
    with (allocate_to_centers cands s (count s) false w0).
  rewrite Hnormal. apply Z.ltb_lt in Hpos. rewrite Hpos.
  destruct (centers_within_distance prefs s centers
              (float_of_int ABS_DISTANCE_THRESHOLD) w1) as [[expanded'|e] w2];
    cbn [fst snd] in Hg, Hexp; [|discriminate].
  subst w2. rewrite call_with_stretch_capacity. reflexivity.
Qed.

(** C9 (the code as it is).  For a school whose latitude or longitude is
    empty, candidate selection returns the empty list and changes nothing;
    but when the school has students, the normal pass returns them all as the
    remainder and the second call raises [TypeError] (the keyword
    [stretch_capacity]), so the iteration halts the run. *)
Theorem missing_coordinates_halt (prefs : gmap string (gmap string Z))
    (centers : list Center) (s : School) (w : World) :
  s_lat s = "" \/ s_long s = "" ->
  0 < count s ->
  (forall th, centers_within_distance prefs s centers th w = (Ok [], w))
  /\ school_iteration prefs centers s tt w = (Raise TypeError, w).
Proof.
  intros Hempty Hpos.
  assert (Hsel : forall th w', centers_within_distance prefs s centers th w' = (Ok [], w')).
  { intros th w'. unfold centers_within_distance.
    destruct Hempty as [-> | ->]; cbn; [reflexivity|].
    rewrite orb_true_r. reflexivity. }
  split; [intros th; apply Hsel|].
  unfold school_iteration, bind. rewrite Hsel.
  change (call_allocate_to_centers [] s (count s) [] w) with (@Ok loop_state (count s, []), w).
  cbn iota beta. apply Z.ltb_lt in Hpos. rewrite Hpos. rewrite Hsel.
  rewrite call_with_stretch_capacity. reflexivity.
Qed.

(** ** The remainder and the small-leftover redirect *)

Lemma next_allot_at_most (stretch : bool) (to_allot pc : Z) (center : CandidateCenter)
    (v : Z) :
  fst (next_allot_of stretch to_allot pc center v) <= to_allot.
Proof. unfold next_allot_of. destruct stretch; cbn [fst]; lia. Qed.

(** An iteration never takes more than is left to allot. *)
Lemma body_remainder (centers : list CandidateCenter) (school : School) (pc : Z)
    (stretch : bool) (center : CandidateCenter) (to_allot : Z)
    (ac : list (string * CandidateCenter)) (w : World) (st' : loop_state) (w' : World) :
  allocate_to_centers_body centers school pc stretch center (to_allot, ac) w = (Ok st', w') ->
  0 <= to_allot ->
  0 <= fst st' <= to_allot.
Proof.
  intros Hbody Hpos.
  destruct (body_cases centers school pc stretch center to_allot ac w)
    as [[_ Hres] | (v0 & next & tested & code & ac' & a & _ & Hnext & H1 & H2 & _ & _ & _ & _
                    & _ & Hr)].
  - rewrite Hbody in Hres. cbn [fst] in Hres.
    destruct Hres as [[= Heq] | [e Hres]]; [subst st'; cbn; lia | discriminate].
  - rewrite Hbody in Hr. injection Hr as -> _. cbn [fst].
    pose proof (next_allot_at_most stretch to_allot pc center v0) as Hle.
    rewrite Hnext in Hle. cbn [fst] in Hle. lia.
Qed.

(** The remainder a call returns lies between zero and what it was given. *)
Lemma allocate_to_centers_remainder (centers : list CandidateCenter) (school : School)
    (to_allot : Z) (stretch : bool) (w : World) (st' : loop_state) :
  0 <= to_allot ->
  fst (allocate_to_centers centers school to_allot stretch w) = Ok st' ->
  0 <= fst st' <= to_allot.
Proof.
  intros Hpos. unfold allocate_to_centers.
  apply (satisfies_for_each (fun _ => True) (fun st : loop_state => 0 <= fst st <= to_allot)
           (allocate_to_centers_body centers school (calc_per_center to_allot) stretch)
           centers); [|cbn; lia|exact I].
  intros x [t ac] _ Ht w1 _. split; [exact I|]. intros st1 Hst1. cbn [fst] in Ht.
  destruct (allocate_to_centers_body centers school (calc_per_center to_allot) stretch x
              (t, ac) w1) as [r w2] eqn:Hbody. cbn [fst] in Hst1. subst r.
  pose proof (body_remainder _ _ _ _ _ _ _ _ _ _ Hbody (proj1 Ht)). lia.
Qed.

(** When an iteration allots fewer than [MIN_STUDENT_IN_CENTER] students and
    some center is already in [allocated_centers], the amount is recorded
    against the first candidate of the list and [allocated_centers] stays as
    it was. *)
Lemma redirect_step (c0 : CandidateCenter) (rest : list CandidateCenter) (school : School)
    (pc : Z) (stretch : bool) (center : CandidateCenter) (to_allot : Z)
    (ac : list (string * CandidateCenter)) (w : World) (st' : loop_state) (w' : World) :
  allocate_to_centers_body (c0 :: rest) school pc stretch center (to_allot, ac) w
    = (Ok st', w') ->
  fst st' <> to_allot ->
  to_allot - fst st' < MIN_STUDENT_IN_CENTER ->
  ac <> [] ->
  snd st' = ac
  /\ recorded w' (scode school) (cscode (cand c0))
     = Some (match recorded w (scode school) (cscode (cand c0)) with
             | Some m => m + (to_allot - fst st')
             | None => to_allot - fst st'
             end).
Proof.
  intros Hbody Hprog Hsmall Hac.
  destruct (body_cases (c0 :: rest) school pc stretch center to_allot ac w)
    as [[_ Hres] | (v0 & next & tested & code & ac' & a & _ & _ & _ & _ & _ & _ & Hcode
                    & Hrec & _ & Hr)].
  - rewrite Hbody in Hres. cbn [fst] in Hres.
    destruct Hres as [[= Heq] | [e Hres]]; [subst st'; cbn in Hprog; congruence | discriminate].
  - rewrite Hbody in Hr. injection Hr as -> ->. cbn [fst snd] in *.
    replace (to_allot - (to_allot - next)) with next in * by lia.
    destruct Hcode as [(_ & _ & Hno) | (_ & _ & -> & c1 & rest1 & [= <- <-] & ->)].
    + exfalso. apply Hno. split; assumption.
    + split; [reflexivity | exact Hrec].
Qed.

(** ** The nearest-center fallback *)

Section Nearest.
Hypothesis flt_trans : forall a b c, flt a b = true -> flt b c = true -> flt a c = true.
Hypothesis flt_irrefl : forall a, flt a a = false.

Lemma nearest_among_step (school : School) (seen : list Center)
    (nr : option (Center * float_t)) (c : Center) (d : float_t) :
  distance_to school c = Some d ->
  nearest_among school seen nr ->
  nearest_among school (seen ++ [c])
    (if String.eqb (scode school) (cscode c) then nr
     else match nr with
          | None => Some (c, d)
          | Some (_, nd) => if flt d nd then Some (c, d) else nr
          end).
Proof.
  intros Hd Hnr. destruct (String.eqb (scode school) (cscode c)) eqn:Hself.
  - apply String.eqb_eq in Hself. destruct nr as [[c0 nd]|]; cbn in *.
    + destruct Hnr as (Hin & Hne & Hd0 & Hmin). repeat split; try assumption.
      * apply in_or_app. left. exact Hin.
      * intros c' d' Hin' Hne' Hd'. apply in_app_or in Hin' as [Hin'|[<-|[]]].
        -- eapply Hmin; eassumption.
        -- congruence.
    + intros c' Hin'. apply in_app_or in Hin' as [Hin'|[<-|[]]]; [apply Hnr, Hin' | congruence].
  - apply String.eqb_neq in Hself. destruct nr as [[c0 nd]|]; cbn in *.
    + destruct Hnr as (Hin & Hne & Hd0 & Hmin).
      destruct (flt d nd) eqn:Hlt; cbn.
      * repeat split; try congruence.
        -- apply in_or_app. right. left. reflexivity.
        -- intros c' d' Hin' Hne' Hd'. apply in_app_or in Hin' as [Hin'|[<-|[]]].
           ++ destruct (flt d' d) eqn:Hlt'; [|reflexivity].
              rewrite <- (Hmin c' d' Hin' Hne' Hd'). symmetry.
              eapply flt_trans; eassumption.
           ++ rewrite Hd in Hd'. injection Hd' as <-. apply flt_irrefl.
      * repeat split; try assumption.
        -- apply in_or_app. left. exact Hin.
        -- intros c' d' Hin' Hne' Hd'. apply in_app_or in Hin' as [Hin'|[<-|[]]].
           ++ eapply Hmin; eassumption.
           ++ rewrite Hd in Hd'. injection Hd' as <-. exact Hlt.
    + repeat split; try congruence.
      * apply in_or_app. right. left. reflexivity.
      * intros c' d' Hin' Hne' Hd'. apply in_app_or in Hin' as [Hin'|[<-|[]]].
        -- exfalso. apply Hne', Hnr, Hin'.
        -- rewrite Hd in Hd'. injection Hd' as <-. apply flt_irrefl.
Qed.



End Nearest.

End Properties.

(** * The properties on concrete rows *)

Lemma Z_ltb_trans (a b c : Z) : (a <? b) = true -> (b <? c) = true -> (a <? c) = true.
Proof. rewrite !Z.ltb_lt. lia. Qed.

(** C1: Scenario C halts.  The normal pass places 30 of the 500 students and
    the iteration raises [TypeError] at the second call. *)
Lemma stretch_pass_raises_witness :
  exists g,
    school_iteration ∅ [center_C1] school_S3 tt (grid_world [center_C1])
    = (Raise TypeError,
       set_rng g (snd (allocate_to_centers [cand_C1] school_S3 500 false
                         (grid_world [center_C1]))))
    /\ remaining (snd (allocate_to_centers [cand_C1] school_S3 500 false
                         (grid_world [center_C1]))) = 0
    /\ warnings (snd (allocate_to_centers [cand_C1] school_S3 500 false
                         (grid_world [center_C1]))) = [].
Proof.
  apply (stretch_pass_raises ∅ [center_C1] school_S3 (grid_world [center_C1])
           (grid_world [center_C1])
           (snd (allocate_to_centers [cand_C1] school_S3 500 false
                   (grid_world [center_C1])))
           [cand_C1] 470 [("C1", cand_C1)]).
  - vm_compute. reflexivity.
  - vm_compute. reflexivity.
  - lia.
Defined.

(** C2 (as stated) fails.  In one normal call for 105 students over A and C
    the pair (S, A) is written by the first iteration (100) and written
    again, additively, by the second (105).  And when the normal pass is
    followed by a stretch pass over the same candidate, A is not skipped:
    the pair goes from 100 to 102. *)
Lemma pair_written_twice :
  recorded (snd (for_each (firstn 1 [cand_A; cand_C])
                   (allocate_to_centers_body [cand_A; cand_C] (school_S 105)
                      (calc_per_center 105) false)
                   (105, []) (grid_world [center_A; center_C]))) "S" "A" = Some 100
  /\ recorded (snd (allocate_to_centers [cand_A; cand_C] (school_S 105) 105 false
                      (grid_world [center_A; center_C]))) "S" "A" = Some 105
  /\ recorded (snd (run_calls (firstn 1 normal_then_stretch) (grid_world [center_A]))) "S" "A"
     = Some 100
  /\ recorded (snd (run_calls normal_then_stretch (grid_world [center_A]))) "S" "A"
     = Some 102.
Proof. repeat split; vm_compute; reflexivity. Qed.

Lemma allocate_adds_guard_is_mutual_witness :
  recorded (snd (allocate "A" "S" 7 (grid_world [center_A]))) "A" "S" = Some 7
  /\ fst (allocate_to_centers_body [cand_A] (school_S 50) 100 false cand_A (50, [])
            (snd (allocate "A" "S" 7 (grid_world [center_A])))) = Ok (50, [])
  /\ allocations (snd (allocate_to_centers_body [cand_A] (school_S 50) 100 false cand_A (50, [])
                         (snd (allocate "A" "S" 7 (grid_world [center_A])))))
     = allocations (snd (allocate "A" "S" 7 (grid_world [center_A])))
  /\ centers_remaining_cap
       (snd (allocate_to_centers_body [cand_A] (school_S 50) 100 false cand_A (50, [])
               (snd (allocate "A" "S" 7 (grid_world [center_A])))))
     = centers_remaining_cap (snd (allocate "A" "S" 7 (grid_world [center_A]))).
Proof.
  assert (Hrec : recorded (snd (allocate "A" "S" 7 (grid_world [center_A]))) "A" "S" = Some 7)
    by (vm_compute; reflexivity).
  split; [exact Hrec|].
  exact (proj2 allocate_adds_guard_is_mutual [cand_A] (school_S 50) 100 false cand_A (50, [])
           (snd (allocate "A" "S" 7 (grid_world [center_A]))) 7 Hrec).
Defined.

(** C4 (as stated) fails: one non-stretch call for 105 students over A (100
    seats) and C records 100 against A and then, the leftover 5 being below
    [MIN_STUDENT_IN_CENTER], 5 more against A, the first candidate, while
    taking them off C's counter: 105 recorded against a capacity of 100, an
    excess above [floor(100 * STRETCH_CAPACITY_FACTOR) = 2].  The run on
    these rows ends normally and writes the allocation of 105 to A. *)
Lemma recorded_exceeds_capacity :
  allocated_to_center
    (snd (allocate_to_centers [cand_A; cand_C] (school_S 105) 105 false
            (grid_world [center_A; center_C]))) "A" = 105
  /\ capacity center_A = 100
  /\ stretch_allowance (capacity center_A) = 2
  /\ centers_remaining_cap
       (snd (allocate_to_centers [cand_A; cand_C] (school_S 105) 105 false
               (grid_world [center_A; center_C]))) !! "C" = Some 45
  /\ fst (@main grid_numerics prefs_ABC [school_S 105] [center_A; center_C] tt) = Ok tt
  /\ allocated_to_center
       (snd (@main grid_numerics prefs_ABC [school_S 105] [center_A; center_C] tt)) "A" = 105
  /\ map (fun row => (row_scode row, row_cscode row, row_allocation row))
         (allocation_file
            (snd (@main grid_numerics prefs_ABC [school_S 105] [center_A; center_C] tt)))
     = [("S", "A", 105)].
Proof. repeat split; vm_compute; reflexivity. Qed.

(** C5 (the code as it is).  Whatever the input, the run ends, completed or
    halted, with [remaining] at 0 and nothing logged: the only iteration that
    could add a shortfall is one whose remainder is positive, and that one
    raises at the second call.  In Scenario C the run halts with [TypeError],
    30 of the 500 students placed and the shortfall of 470 never added. *)
Theorem shortfall_never_reported :
  (forall (N : Numerics) (prefs : gmap string (gmap string Z)) (schools_tsv : list School)
          (centers : list Center) (seed : Rng),
      remaining (snd (main prefs schools_tsv centers seed)) = 0
      /\ warnings (snd (main prefs schools_tsv centers seed)) = [])
  /\ fst (@main grid_numerics ∅ [school_S3] [center_C1] tt) = Raise TypeError
  /\ recorded (snd (@main grid_numerics ∅ [school_S3] [center_C1] tt)) "S3" "C1" = Some 30
  /\ count school_S3 - 30 = 470
  /\ remaining (snd (@main grid_numerics ∅ [school_S3] [center_C1] tt)) = 0.
Proof.
  split; [intros N prefs schools_tsv centers seed; apply main_never_reports|].
  repeat split; vm_compute; reflexivity.
Qed.



Lemma non_stretch_amount_witness :
  let w := grid_world [center_A] in
  let r := allocate_to_centers_body [cand_A] (school_S 50) (calc_per_center 50) false cand_A
             (50, []) w in
  let amount := Z.min 50 (Z.min (if 50 <=? 400 then 100 else 200)
                                (Z.max 100 MIN_STUDENT_IN_CENTER)) in
  allocate_to_centers [cand_A] (school_S 50) 50 false
  = for_each [cand_A]
      (allocate_to_centers_body [cand_A] (school_S 50) (if 50 <=? 400 then 100 else 200) false)
      (50, [])
  /\ ((fst (0, [("A", cand_A)]) = 50 /\ allocations (snd r) = allocations w
       /\ centers_remaining_cap (snd r) = centers_remaining_cap w)
      \/ (0 < 50 /\ 0 < amount /\ amount <= 100
          /\ fst (0, [("A", cand_A)]) = 50 - amount
          /\ centers_remaining_cap (snd r)
             = <["A" := 100 - amount]> (centers_remaining_cap w)
          /\ exists code,
               recorded (snd r) "S" code
               = Some (match recorded w "S" code with
                       | Some m => m + amount
                       | None => amount
                       end))).
Proof.
  intros w r amount.
  apply (non_stretch_amount [cand_A] (school_S 50) 50 cand_A 50 [] w 100
           (0, [("A", cand_A)]) (snd r)).
  - vm_compute. reflexivity.
  - vm_compute. reflexivity.
Defined.

Lemma missing_coordinates_halt_witness :
  (forall th, centers_within_distance ∅ school_nolat [center_A] th (grid_world [center_A])
              = (Ok [], grid_world [center_A]))
  /\ school_iteration ∅ [center_A] school_nolat tt (grid_world [center_A])
     = (Raise TypeError, grid_world [center_A]).
Proof.
  apply (missing_coordinates_halt ∅ [center_A] school_nolat (grid_world [center_A])).
  - left. reflexivity.
  - cbn. lia.
Defined.

(** C10.  There is a call of [allocate_to_centers] in which the small
    leftover is recorded against the first candidate although that candidate
    is not in the returned [allocated_centers]; and there is a run, ending
    normally, whose [allocations] hold 5 students of S at center A while the
    allocation file has a row for center B only. *)
Theorem redirect_hides_allocation :
  (exists (centers : list CandidateCenter) (first : CandidateCenter)
          (rest : list CandidateCenter) (school : School) (to_allot : Z) (w : World)
          (left : Z) (allocated_centers : list (string * CandidateCenter)) (n : Z),
      centers = first :: rest
      /\ fst (allocate_to_centers centers school to_allot false w) = Ok (left, allocated_centers)
      /\ recorded w (scode school) (cscode (cand first)) = None
      /\ recorded (snd (allocate_to_centers centers school to_allot false w))
                  (scode school) (cscode (cand first)) = Some n
      /\ 0 < n < MIN_STUDENT_IN_CENTER
      /\ ~ In (cscode (cand first)) (dict_keys allocated_centers))
  /\ (exists (prefs : gmap string (gmap string Z)) (schools_tsv : list School)
             (centers : list Center),
        fst (@main grid_numerics prefs schools_tsv centers tt) = Ok tt
        /\ recorded (snd (@main grid_numerics prefs schools_tsv centers tt)) "S" "A" = Some 5
        /\ map (fun row => (row_scode row, row_cscode row, row_allocation row))
               (allocation_file (snd (@main grid_numerics prefs schools_tsv centers tt)))
           = [("S", "B", 100)]).
Proof.
  split.
  - exists [cand_A5; cand_B; cand_C], cand_A5, [cand_B; cand_C], (school_S 105), 105,
      (grid_world [center_A5; center_B; center_C]), 0, [("B", cand_B)], 5.
    split; [reflexivity|].
    split; [vm_compute; reflexivity|].
    split; [vm_compute; reflexivity|].
    split; [vm_compute; reflexivity|].
    split; [unfold MIN_STUDENT_IN_CENTER; lia|].
    cbn. intros [Heq|[]]. discriminate.
  - exists prefs_ABC, [school_S 105], [center_C; center_B; center_A5].
    repeat split; vm_compute; reflexivity.
Qed.

(** * More properties *)

(** ** Preferences *)

Lemma get_pref_lookup (prefs : gmap string (gmap string Z)) (s c : string) :
  get_pref prefs s c
  = default 0 (match prefs !! s with Some d => d !! c | None => None end).
Proof.
  unfold get_pref. destruct (prefs !! s) as [d|]; [|reflexivity].
  destruct (bool_decide (d = ∅)) eqn:Hd.
  - apply bool_decide_eq_true in Hd. subst d. rewrite lookup_empty. reflexivity.
  - destruct (d !! c) as [v|]; [|reflexivity]. cbn.
    destruct (v =? 0) eqn:Hv; [apply Z.eqb_eq in Hv; congruence | reflexivity].
Qed.

Section PreferenceProperties.
Variable int : string -> option Z.

Lemma read_prefs_row_parses (prefs : gmap string (gmap string Z)) (row : PrefRow) :
  match int (p_pref row) with
  | Some n =>
      exists d',
        read_prefs_row int prefs row = Ok (<[p_scode row := d']> prefs)
        /\ d' !! p_cscode row = Some (get_pref prefs (p_scode row) (p_cscode row) + n)
        /\ forall c, c <> p_cscode row ->
             default 0 (d' !! c) = get_pref prefs (p_scode row) c
  | None => read_prefs_row int prefs row = Raise ValueError
  end.
Proof.
  unfold read_prefs_row, with_int_pref.
  destruct (int (p_pref row)) as [n|].
  2:{ destruct (prefs !! p_scode row) as [d|]; [|reflexivity].
      destruct (bool_decide (d = ∅)); [reflexivity|].
      destruct (d !! p_cscode row) as [v|]; [destruct (v =? 0)|]; reflexivity. }
  assert (Hget : forall c, get_pref prefs (p_scode row) c
                 = default 0 (match prefs !! p_scode row with
                              | Some d => d !! c | None => None end))
    by (intros c; apply get_pref_lookup).
  destruct (prefs !! p_scode row) as [d|].
  - destruct (bool_decide (d = ∅)) eqn:Hd.
    + apply bool_decide_eq_true in Hd. subst d.
      eexists. split; [reflexivity|]. split.
      * rewrite lookup_singleton_eq, Hget, lookup_empty. reflexivity.
      * intros c Hc. rewrite lookup_singleton_ne by congruence.
        rewrite Hget, lookup_empty. reflexivity.
    + destruct (d !! p_cscode row) as [v|] eqn:Hv.
      * destruct (v =? 0) eqn:Hz; (eexists; split; [reflexivity|]); split.
        -- apply Z.eqb_eq in Hz. subst v.
           rewrite lookup_insert_eq, Hget, Hv. reflexivity.
        -- intros c Hc. rewrite lookup_insert_ne by congruence. rewrite Hget. reflexivity.
        -- rewrite lookup_insert_eq, Hget, Hv. reflexivity.
        -- intros c Hc. rewrite lookup_insert_ne by congruence. rewrite Hget. reflexivity.
      * eexists. split; [reflexivity|]. split.
        -- rewrite lookup_insert_eq, Hget, Hv. reflexivity.
        -- intros c Hc. rewrite lookup_insert_ne by congruence. rewrite Hget. reflexivity.
  - eexists. split; [reflexivity|]. split.
    + rewrite lookup_singleton_eq, Hget. reflexivity.
    + intros c Hc. rewrite lookup_singleton_ne by congruence. rewrite Hget. reflexivity.
Qed.

Lemma read_prefs_loop_sums (rows : list PrefRow) (prefs : gmap string (gmap string Z)) :
  (forall r, In r rows -> is_Some (int (p_pref r))) ->
  exists prefs',
    read_prefs_loop int rows prefs = Ok prefs'
    /\ forall s c, get_pref prefs' s c = get_pref prefs s c + pref_total int rows s c.
Proof.
  revert prefs. induction rows as [|row rows IH]; intros prefs Hparse.
  - exists prefs. split; [reflexivity|]. intros s c. cbn. lia.
  - destruct (Hparse row (or_introl eq_refl)) as [n Hn].
    pose proof (read_prefs_row_parses prefs row) as Hrow. rewrite Hn in Hrow.
    destruct Hrow as (d' & Hrow & Hsame & Hother).
    destruct (IH (<[p_scode row := d']> prefs) (fun r Hr => Hparse r (or_intror Hr)))
      as (prefs' & Hloop & Hsum).
    exists prefs'. cbn [read_prefs_loop]. rewrite Hrow. split; [exact Hloop|].
    intros s c. rewrite Hsum. cbn [pref_total fold_right].
    fold (pref_total int rows s c). rewrite Hn. cbn [default].
    rewrite (get_pref_lookup (<[p_scode row := d']> prefs)).
    destruct (String.eqb (p_scode row) s) eqn:Hs.
    + apply String.eqb_eq in Hs. subst s. rewrite lookup_insert_eq.
      destruct (String.eqb (p_cscode row) c) eqn:Hc; cbn [andb].
      * apply String.eqb_eq in Hc. subst c. rewrite Hsame. cbn. lia.
      * apply String.eqb_neq in Hc. rewrite Hother by congruence. lia.
    + apply String.eqb_neq in Hs. rewrite lookup_insert_ne by exact Hs.
      rewrite <- get_pref_lookup. cbn [andb]. lia.
Qed.

(** X1.  When every score parses, [read_prefs] returns a table in which
    [get_pref] gives, for every pair, the sum of the scores of the rows of
    that pair: duplicate rows accumulate, and a pair with no row scores 0. *)
Theorem read_prefs_sums (rows : list PrefRow) :
  (forall r, In r rows -> is_Some (int (p_pref r))) ->
  exists prefs,
    read_prefs int rows = Ok prefs
    /\ forall s c, get_pref prefs s c = pref_total int rows s c.
Proof.
  intros Hparse. destruct (read_prefs_loop_sums rows ∅ Hparse) as (prefs & Hloop & Hsum).
  exists prefs. split; [exact Hloop|]. intros s c. rewrite Hsum.
  rewrite get_pref_lookup, lookup_empty. reflexivity.
Qed.

Lemma read_prefs_loop_raises (rows : list PrefRow) (prefs : gmap string (gmap string Z)) :
  (exists e, read_prefs_loop int rows prefs = Raise e)
  <-> exists r, In r rows /\ int (p_pref r) = None.
Proof.
  revert prefs. induction rows as [|row rows IH]; intros prefs.
  - cbn. split; [intros [e He]; discriminate | intros (r & [] & _)].
  - cbn [read_prefs_loop]. pose proof (read_prefs_row_parses prefs row) as Hrow.
    destruct (int (p_pref row)) as [n|] eqn:Hn.
    + destruct Hrow as (d' & -> & _). rewrite IH. split.
      * intros (r & Hin & Hr). exists r. split; [right; exact Hin | exact Hr].
      * intros (r & [<-|Hin] & Hr); [congruence|]. exists r. auto.
    + rewrite Hrow. split; [|eauto]. intros _. exists row. split; [left; reflexivity | exact Hn].
Qed.

(** X2.  [read_prefs] raises exactly when the score of some row does not
    parse, and the exception is then [ValueError]. *)
Theorem read_prefs_raises (rows : list PrefRow) :
  ((exists e, read_prefs int rows = Raise e)
   <-> exists r, In r rows /\ int (p_pref r) = None)
  /\ forall e, read_prefs int rows = Raise e -> e = ValueError.
Proof.
  split; [apply read_prefs_loop_raises|].
  unfold read_prefs. generalize (∅ : gmap string (gmap string Z)).
  induction rows as [|row rows IH]; intros prefs e; cbn [read_prefs_loop]; [discriminate|].
  pose proof (read_prefs_row_parses prefs row) as Hrow.
  destruct (int (p_pref row)) as [n|].
  - destruct Hrow as (d' & -> & _). apply IH.
  - rewrite Hrow. congruence.
Qed.

End PreferenceProperties.

Section MoreProperties.
Context `{Numerics}.

(** ** [sorted] *)

Lemma insert_by_key_perm {A : Type} (x : float_t * A) (l : list (float_t * A)) :
  Permutation (insert_by_key x l) (x :: l).
Proof.
  induction l as [|y l IH]; cbn [insert_by_key]; [reflexivity|].
  destruct (flt (fst x) (fst y)); [reflexivity|].
  rewrite IH. apply perm_swap.
Qed.

Lemma sort_decorated_perm {A : Type} (l : list (float_t * A)) :
  Permutation (sort_decorated l) l.
Proof.
  unfold sort_decorated.
  assert (Hgen : forall acc,
             Permutation (fold_left (fun acc x => insert_by_key x acc) l acc) (acc ++ l)).
  { induction l as [|x l IH]; intros acc; cbn [fold_left].
    - rewrite app_nil_r. reflexivity.
    - rewrite IH, insert_by_key_perm. apply Permutation_middle. }
  apply (Hgen []).
Qed.

(** The model of [sorted] touches only the random generator and returns a
    permutation of its argument. *)
Lemma sorted_is_permutation {A : Type} (key : A -> Rng -> float_t * Rng) (l : list A)
    (w : World) :
  exists l' g, sorted key l w = (Ok l', set_rng g w) /\ Permutation l' l.
Proof.
  unfold sorted. pose proof (decorate_values key l (rng w)) as Hd.
  destruct (decorate key l (rng w)) as [d g]. cbn [fst] in Hd.
  eexists _, g. split; [reflexivity|].
  rewrite <- Hd. apply Permutation_map, sort_decorated_perm.
Qed.

Section Ordered.
Hypothesis flt_trans : forall a b c, flt a b = true -> flt b c = true -> flt a c = true.
Hypothesis flt_irrefl : forall a, flt a a = false.

Lemma insert_by_key_ascending {A : Type} (x : float_t * A) (l : list (float_t * A)) :
  keys_ascending l -> keys_ascending (insert_by_key x l).
Proof.
  induction l as [|y l IH]; cbn [insert_by_key keys_ascending].
  - intros _. split; [constructor | exact I].
  - intros [Hy Hl]. destruct (flt (fst x) (fst y)) eqn:Hxy; cbn [keys_ascending].
    + split; [|split; assumption]. constructor.
      * destruct (flt (fst y) (fst x)) eqn:Hyx; [|reflexivity].
        rewrite <- (flt_irrefl (fst x)). symmetry. eapply flt_trans; eassumption.
      * eapply Forall_impl; [exact Hy|]. intros z Hzy. cbn in Hzy.
        destruct (flt (fst z) (fst x)) eqn:Hzx; [|reflexivity].
        rewrite <- Hzy. symmetry. eapply flt_trans; eassumption.
    + split; [|apply IH, Hl].
      rewrite (insert_by_key_perm x l). constructor; assumption.
Qed.

Lemma sort_decorated_ascending {A : Type} (l : list (float_t * A)) :
  keys_ascending (sort_decorated l).
Proof.
  unfold sort_decorated.
  assert (Hgen : forall acc, keys_ascending acc ->
             keys_ascending (fold_left (fun acc x => insert_by_key x acc) l acc)).
  { induction l as [|x l IH]; intros acc Hacc; cbn [fold_left]; [exact Hacc|].
    apply IH, insert_by_key_ascending, Hacc. }
  apply Hgen. exact I.
Qed.

(** When [<] on the keys is transitive and irreflexive, the model of [sorted]
    returns its elements in ascending order of the keys it computed for
    them: along the result no key is strictly below an earlier one. *)
Lemma sorted_keys_ascending {A : Type} (key : A -> Rng -> float_t * Rng) (l : list A)
    (w : World) :
  exists (keyed : list (float_t * A)) (g : Rng),
    sorted key l w = (Ok (map snd keyed), set_rng g w)
    /\ Permutation keyed (fst (decorate key l (rng w)))
    /\ keys_ascending keyed.
Proof.
  unfold sorted. destruct (decorate key l (rng w)) as [d g]. cbn [fst].
  exists (sort_decorated d), g. split; [reflexivity|].
  split; [apply sort_decorated_perm | apply sort_decorated_ascending].
Qed.

Lemma keys_ascending_lookup {A : Type} (l : list (float_t * A)) (i j : nat)
    (x y : float_t * A) :
  keys_ascending l -> (i < j)%nat -> l !! i = Some x -> l !! j = Some y ->
  flt (fst y) (fst x) = false.
Proof.
  revert i j. induction l as [|z l IH]; intros i j Hasc Hij Hi Hj; [discriminate|].
  destruct Hasc as [Hz Hl]. destruct j as [|j]; [lia|]. cbn in Hj.
  destruct i as [|i].
  - cbn in Hi. injection Hi as <-. rewrite Forall_forall in Hz.
    apply Hz. eapply list_elem_of_lookup_2. exact Hj.
  - cbn in Hi. apply (IH i j); [assumption | lia | assumption | assumption].
Qed.

Lemma decorate_keys {A : Type} (key : A -> Rng -> float_t * Rng) (l : list A) (g : Rng)
    (k : float_t) (x : A) :
  In (k, x) (fst (decorate key l g)) -> exists g', k = fst (key x g').
Proof.
  revert g. induction l as [|y l IH]; intros g; cbn [decorate]; [intros []|].
  destruct (key y g) as [ky g1] eqn:Hky. specialize (IH g1).
  destruct (decorate key l g1) as [r g2]. cbn [fst] in *.
  intros [[= <- <-]|Hin]; [exists g; rewrite Hky; reflexivity | apply IH, Hin].
Qed.

(** X5.  When a draw of [uniform(1, 100)] times -1 is below any such draw
    times 1, the order in which the schools are processed puts every school
    of more than 500 students before every school of at most 500. *)
Theorem large_schools_first (schools_tsv schools : list School) (w w' : World)
    (i j : nat) (a b : School) :
  (forall g g',
      flt (fmul (float_of_int (-1)) (fst (uniform (float_of_int 1) (float_of_int 100) g)))
          (fmul (float_of_int 1) (fst (uniform (float_of_int 1) (float_of_int 100) g')))
      = true) ->
  sorted school_sort_key schools_tsv w = (Ok schools, w') ->
  (i < j)%nat ->
  schools !! i = Some a ->
  schools !! j = Some b ->
  500 < count b ->
  500 < count a.
Proof.
  intros Hsign Hsorted Hij Hi Hj Hb.
  destruct (sorted_keys_ascending school_sort_key schools_tsv w)
    as (keyed & g & Hs & Hperm & Hasc).
  rewrite Hs in Hsorted. injection Hsorted as <- _.
  rewrite list_lookup_fmap in Hi, Hj.
  destruct (keyed !! i) as [[ka a']|] eqn:Hka; [|discriminate].
  destruct (keyed !! j) as [[kb b']|] eqn:Hkb; [|discriminate].
  cbn in Hi, Hj. injection Hi as ->. injection Hj as ->.
  pose proof (keys_ascending_lookup keyed i j _ _ Hasc Hij Hka Hkb) as Hle.
  cbn [fst] in Hle.
  assert (Hkey : forall k s, (k, s) ∈ keyed -> exists g', k = fst (school_sort_key s g')).
  { intros k s Hin. apply (decorate_keys school_sort_key schools_tsv (rng w)).
    apply list_elem_of_In. rewrite <- Hperm. exact Hin. }
  destruct (Hkey ka a (list_elem_of_lookup_2 _ _ _ Hka)) as [ga ->].
  destruct (Hkey kb b (list_elem_of_lookup_2 _ _ _ Hkb)) as [gb ->].
  unfold school_sort_key in Hle.
  destruct (uniform (float_of_int 1) (float_of_int 100) ga) as [ua ga'] eqn:Hua.
  destruct (uniform (float_of_int 1) (float_of_int 100) gb) as [ub gb'] eqn:Hub.
  cbn [fst] in Hle.
  apply Z.ltb_lt in Hb. rewrite Hb in Hle.
  destruct (500 <? count a) eqn:Ha; [apply Z.ltb_lt, Ha|].
  specialize (Hsign gb ga). rewrite Hua, Hub in Hsign. cbn [fst] in Hsign. congruence.
Qed.

End Ordered.

(** ** Candidate selection *)

Lemma nonempty_length (s : string) : s <> "" -> (String.length s =? 0)%nat = false.
Proof. destruct s; [congruence | reflexivity]. Qed.

Lemma qualifying_cons (prefs : gmap string (gmap string Z)) (school : School)
    (th : float_t) (c : Center) (l : list Center) :
  qualifying prefs school th (c :: l)
  = match distance_to school c with
    | Some d =>
        if qualifies prefs school th c
        then center_to_dict c d :: qualifying prefs school th l
        else qualifying prefs school th l
    | None => qualifying prefs school th l
    end.
Proof.
  unfold qualifying. cbn.
  destruct (distance_to school c); [destruct (qualifies prefs school th c)|]; reflexivity.
Qed.

Lemma scan_qualifying (prefs : gmap string (gmap string Z)) (school : School)
    (th : float_t) (l : list Center) (wd : list CandidateCenter)
    (nr : option (Center * float_t)) (w : World) :
  (forall c, In c l -> is_Some (distance_to school c)) ->
  exists nr',
    for_each l (scan_center prefs school th) (wd, nr) w
    = (Ok ((wd ++ qualifying prefs school th l)%list, nr'), w)
    /\ ((forall c, In c l -> cscode c = scode school) -> nr' = nr).
Proof.
  revert wd nr. induction l as [|c l IH]; intros wd nr Hdist.
  - exists nr. cbn. rewrite app_nil_r. auto.
  - destruct (Hdist c (or_introl eq_refl)) as [d Hd].
    cbn [for_each]. unfold bind. rewrite (scan_center_ok prefs school th c wd nr w d Hd).
    rewrite qualifying_cons, Hd.
    destruct (String.eqb (scode school) (cscode c)) eqn:Hself.
    + assert (Hq : qualifies prefs school th c = false)
        by (unfold qualifies; rewrite Hself; reflexivity).
      rewrite Hq.
      destruct (IH wd nr (fun c' Hc' => Hdist c' (or_intror Hc'))) as (nr' & Hrun & Hnr).
      exists nr'. split; [exact Hrun|]. intros Hall. apply Hnr.
      intros c' Hc'. apply Hall. right. exact Hc'.
    + destruct (qualifies prefs school th c).
      * destruct (IH (wd ++ [center_to_dict c d])%list
                     (match nr with
                      | None => Some (c, d)
                      | Some (_, nd) => if flt d nd then Some (c, d) else nr
                      end) (fun c' Hc' => Hdist c' (or_intror Hc'))) as (nr' & Hrun & _).
        exists nr'. rewrite <- app_assoc in Hrun. split; [exact Hrun|].
        intros Hall. apply String.eqb_neq in Hself. exfalso. apply Hself.
        symmetry. apply Hall. left. reflexivity.
      * destruct (IH wd
                     (match nr with
                      | None => Some (c, d)
                      | Some (_, nd) => if flt d nd then Some (c, d) else nr
                      end) (fun c' Hc' => Hdist c' (or_intror Hc'))) as (nr' & Hrun & _).
        exists nr'. split; [exact Hrun|].
        intros Hall. apply String.eqb_neq in Hself. exfalso. apply Hself.
        symmetry. apply Hall. left. reflexivity.
Qed.


(** X7.  For a school with both coordinates, when every distance can be
    computed but no center has another code than the school (in particular
    when there is no center at all), the selection raises [TypeError]: it
    builds the fallback from a nearest center that was never set. *)
Theorem selection_without_other_center (prefs : gmap string (gmap string Z))
    (school : School) (centers : list Center) (th : float_t) (w : World) :
  s_lat school <> "" ->
  s_long school <> "" ->
  (forall c, In c centers -> is_Some (distance_to school c)) ->
  (forall c, In c centers -> cscode c = scode school) ->
  centers_within_distance prefs school centers th w = (Raise TypeError, w).
Proof.
  intros Hlat Hlong Hdist Hself.
  destruct (scan_qualifying prefs school th centers [] None w Hdist) as (nr & Hrun & Hnr).
  rewrite (Hnr Hself) in Hrun. cbn [app] in Hrun.
  assert (Hq : qualifying prefs school th centers = []).
  { clear Hrun Hnr Hdist. induction centers as [|c l IH]; [reflexivity|].
    rewrite qualifying_cons.
    assert (Hc : qualifies prefs school th c = false).
    { unfold qualifies. rewrite (Hself c (or_introl eq_refl)), String.eqb_refl. reflexivity. }
    rewrite Hc. rewrite (IH (fun c' Hc' => Hself c' (or_intror Hc'))).
    destruct (distance_to school c); reflexivity. }
  rewrite Hq in Hrun. unfold centers_within_distance.
  rewrite (nonempty_length _ Hlat), (nonempty_length _ Hlong). cbn [orb].
  unfold bind. rewrite Hrun. reflexivity.
Qed.

Lemma scan_center_unparsable (prefs : gmap string (gmap string Z)) (school : School)
    (th : float_t) (c : Center) (st : scan_state) (w : World) :
  distance_to school c = None ->
  scan_center prefs school th c st w = (Raise ValueError, w).
Proof.
  destruct st as [wd nr].
  unfold distance_to, scan_center, value_or_raise, bind, ret, raise.
  destruct (float (s_lat school)) as [a1|]; [|reflexivity].
  destruct (float (s_long school)) as [a2|]; [|reflexivity].
  destruct (float (lat c)) as [a3|]; [|reflexivity].
  destruct (float (long c)) as [a4|]; [|reflexivity].
  intros ->. reflexivity.
Qed.

(** X8.  For a school with both coordinates, when the distance to some center
    cannot be computed (a coordinate of the school or of that center does not
    parse, or the haversine formula fails), the selection raises
    [ValueError], whatever the code, distance or score of that center. *)
Theorem selection_unparsable (prefs : gmap string (gmap string Z))
    (school : School) (centers : list Center) (th : float_t) (w : World) (c : Center) :
  s_lat school <> "" ->
  s_long school <> "" ->
  In c centers ->
  distance_to school c = None ->
  centers_within_distance prefs school centers th w = (Raise ValueError, w).
Proof.
  intros Hlat Hlong Hin Hbad.
  assert (Hscan : forall l st, In c l ->
            for_each l (scan_center prefs school th) st w = (Raise ValueError, w)).
  { induction l as [|c0 l IH]; intros [wd nr] Hl; [destruct Hl|].
    cbn [for_each]. unfold bind.
    destruct (distance_to school c0) as [d|] eqn:Hd.
    - rewrite (scan_center_ok prefs school th c0 wd nr w d Hd).
      destruct Hl as [->|Hl]; [congruence|].
      destruct (String.eqb (scode school) (cscode c0)); [apply IH, Hl|].
      destruct (qualifies prefs school th c0); apply IH, Hl.
    - rewrite (scan_center_unparsable prefs school th c0 (wd, nr) w Hd). reflexivity. }
  unfold centers_within_distance.
  rewrite (nonempty_length _ Hlat), (nonempty_length _ Hlong). cbn [orb].
  unfold bind. rewrite (Hscan centers ([], None) Hin). reflexivity.
Qed.

(** ** Ties between equally near centers *)

Section FirstEncountered.
Hypothesis flt_trans : forall a b c, flt a b = true -> flt b c = true -> flt a c = true.
Hypothesis flt_irrefl : forall a, flt a a = false.

Lemma nearest_is_first_keep (school : School) (seen : list Center) (c : Center)
    (nr : option (Center * float_t)) :
  nearest_is_first school seen nr -> nearest_is_first school (seen ++ [c]) nr.
Proof.
  destruct nr as [[c0 nd]|]; [|auto]. cbn. intros (i & Hi & Hbefore).
  pose proof (lookup_lt_Some _ _ _ Hi) as Hlt.
  exists i. split; [rewrite lookup_app_l by exact Hlt; exact Hi|].
  intros j c' d' Hj Hc'. rewrite lookup_app_l in Hc' by lia. eapply Hbefore; eassumption.
Qed.

Lemma nearest_is_first_step (school : School) (all seen : list Center)
    (nr : option (Center * float_t)) (c : Center) (d : float_t) :
  distances_ordered school all ->
  (forall x, In x seen -> In x all) ->
  In c all ->
  distance_to school c = Some d ->
  nearest_among school seen nr ->
  nearest_is_first school seen nr ->
  nearest_is_first school (seen ++ [c])
    (if String.eqb (scode school) (cscode c) then nr
     else match nr with
          | None => Some (c, d)
          | Some (_, nd) => if flt d nd then Some (c, d) else nr
          end).
Proof.
  intros Hord Hseen Hc Hd Hmin Hfirst.
  destruct (String.eqb (scode school) (cscode c)); [apply nearest_is_first_keep, Hfirst|].
  destruct nr as [[c0 nd]|].
  - destruct (flt d nd) eqn:Hlt; [|apply nearest_is_first_keep, Hfirst].
    cbn. exists (length seen). split; [apply list_lookup_middle; reflexivity|].
    intros j c' d' Hj Hc' Hne Hd'. rewrite lookup_app_l in Hc' by exact Hj.
    destruct Hmin as (Hin0 & _ & Hd0 & Hmin).
    assert (Hin' : In c' seen).
    { apply list_elem_of_In. eapply list_elem_of_lookup_2. exact Hc'. }
    assert (Hfar : flt d' nd = false) by (apply (Hmin c' d'); assumption).
    destruct (Hord c c0 c' d nd d' Hc (Hseen c0 Hin0) (Hseen c' Hin') Hd Hd0 Hd' Hlt)
      as [Hok|Hbad]; [exact Hok | congruence].
  - cbn. exists (length seen). split; [apply list_lookup_middle; reflexivity|].
    intros j c' d' Hj Hc' Hne Hd'. rewrite lookup_app_l in Hc' by exact Hj.
    exfalso. apply Hne. apply Hmin.
    apply list_elem_of_In. eapply list_elem_of_lookup_2. exact Hc'.
Qed.

Lemma scan_first (prefs : gmap string (gmap string Z)) (school : School)
    (th : float_t) (all l seen : list Center) (wd : list CandidateCenter)
    (nr : option (Center * float_t)) (w : World) :
  distances_ordered school all ->
  (forall x, In x seen -> In x all) ->
  (forall x, In x l -> In x all) ->
  (forall c, In c l -> is_Some (distance_to school c)) ->
  (forall c, In c l -> qualifies prefs school th c = false) ->
  nearest_among school seen nr ->
  nearest_is_first school seen nr ->
  exists nr',
    for_each l (scan_center prefs school th) (wd, nr) w = (Ok (wd, nr'), w)
    /\ nearest_among school (seen ++ l) nr'
    /\ nearest_is_first school (seen ++ l) nr'.
Proof.
  intros Hord. revert seen nr.
  induction l as [|c l IH]; intros seen nr Hseen Hl Hdist Hq Hmin Hfirst.
  - exists nr. rewrite app_nil_r. auto.
  - destruct (Hdist c (or_introl eq_refl)) as [d Hd].
    pose proof (nearest_among_step flt_trans flt_irrefl school seen nr c d Hd Hmin) as Hmin'.
    pose proof (nearest_is_first_step school all seen nr c d Hord Hseen
                  (Hl c (or_introl eq_refl)) Hd Hmin Hfirst) as Hfirst'.
    assert (Hseen' : forall x, In x (seen ++ [c]) -> In x all).
    { intros x Hx. apply in_app_or in Hx as [Hx|[<-|[]]];
        [apply Hseen, Hx | apply Hl; left; reflexivity]. }
    destruct (IH (seen ++ [c])%list _ Hseen' (fun c' Hc' => Hl c' (or_intror Hc'))
                 (fun c' Hc' => Hdist c' (or_intror Hc'))
                 (fun c' Hc' => Hq c' (or_intror Hc')) Hmin' Hfirst')
      as (nr' & Hrun & Hm & Hf).
    exists nr'. rewrite <- app_assoc in Hm, Hf. split; [|split; assumption].
    cbn [for_each]. unfold bind.
    rewrite (scan_center_ok prefs school th c wd nr w d Hd).
    rewrite (Hq c (or_introl eq_refl)).
    destruct (String.eqb (scode school) (cscode c)); exact Hrun.
Qed.

(** X9.  When [<] orders the distances from the school to the centers of the
    list (it is transitive and irreflexive, and cotransitive on these
    distances, as [<] on doubles is when none of them is a NaN), the
    nearest-center fallback breaks ties by input order: the center returned
    stands at a position of the center list before which every center of
    another code is strictly farther from the school. *)
Theorem fallback_first_encountered (prefs : gmap string (gmap string Z))
    (school : School) (centers : list Center) (th : float_t) (w w' : World)
    (c : Center) (d : float_t) :
  distances_ordered school centers ->
  s_lat school <> "" ->
  s_long school <> "" ->
  (forall c, In c centers -> is_Some (distance_to school c)) ->
  (forall c, In c centers -> qualifies prefs school th c = false) ->
  centers_within_distance prefs school centers th w = (Ok [center_to_dict c d], w') ->
  exists i : nat,
    centers !! i = Some c
    /\ forall (j : nat) c' d', (j < i)%nat -> centers !! j = Some c' ->
         cscode c' <> scode school -> distance_to school c' = Some d' ->
         flt d d' = true.
Proof.
  intros Hord Hlat Hlong Hdist Hq.
  destruct (scan_first prefs school th centers centers [] [] None w Hord)
    as (nr & Hrun & _ & Hfirst);
    [intros x [] | auto | exact Hdist | exact Hq | intros c0 [] | exact I |].
  cbn [app] in Hfirst. unfold centers_within_distance.
  rewrite (nonempty_length _ Hlat), (nonempty_length _ Hlong). cbn [orb].
  unfold bind. rewrite Hrun. cbn [length Nat.ltb Nat.leb].
  destruct nr as [[c0 d0]|]; cbn; [|discriminate].
  intros [= <- <- _]. exact Hfirst.
Qed.

End FirstEncountered.

(** ** Triples *)

Lemma triple_ret {A : Type} (P : World -> Prop) (Q : A -> World -> Prop)
    (E : exn -> World -> Prop) (a : A) :
  (forall w, P w -> Q a w) -> triple P (ret a) Q E.
Proof. intros HQ w HP. cbn. apply HQ, HP. Qed.

Lemma triple_raise {A : Type} (P : World -> Prop) (Q : A -> World -> Prop)
    (E : exn -> World -> Prop) (e : exn) :
  (forall w, P w -> E e w) -> triple P (@raise _ A e) Q E.
Proof. intros HE w HP. cbn. apply HE, HP. Qed.

Lemma triple_bind {A B : Type} (P : World -> Prop) (Q : A -> World -> Prop)
    (R : B -> World -> Prop) (E : exn -> World -> Prop) (m : M A) (k : A -> M B) :
  triple P m Q E -> (forall a, triple (Q a) (k a) R E) -> triple P (bind m k) R E.
Proof.
  intros Hm Hk w HP. unfold bind. specialize (Hm w HP).
  destruct (m w) as [[a|e] w1]; [apply (Hk a w1 Hm) | exact Hm].
Qed.

Lemma triple_weaken {A : Type} (P P' : World -> Prop) (Q Q' : A -> World -> Prop)
    (E E' : exn -> World -> Prop) (m : M A) :
  (forall w, P' w -> P w) -> (forall a w, Q a w -> Q' a w) -> (forall e w, E e w -> E' e w) ->
  triple P m Q E -> triple P' m Q' E'.
Proof.
  intros HP HQ HE Hm w Hw. specialize (Hm w (HP w Hw)).
  destruct (m w) as [[a|e] w1]; [apply HQ, Hm | apply HE, Hm].
Qed.

Lemma triple_for_each {A S : Type} (I : S -> World -> Prop) (E : exn -> World -> Prop)
    (body : A -> S -> M S) (l : list A) :
  (forall x s, In x l -> triple (I s) (body x s) I E) ->
  forall s, triple (I s) (for_each l body s) I E.
Proof.
  induction l as [|x l IH]; intros Hbody s.
  - apply triple_ret. auto.
  - cbn [for_each]. eapply triple_bind.
    + apply Hbody. left. reflexivity.
    + intros s'. apply IH. intros y s0 Hin. apply Hbody. right. exact Hin.
Qed.

(** ** The ledger: insert and look up *)

(** X10.  After [allocate(s, c, n)], [is_allocated(s, c)] is true; for every
    other pair [is_allocated] answers as before, and the capacity counters
    are untouched. *)
Theorem allocate_then_is_allocated (s c : string) (n : Z) (w : World) :
  fst (is_allocated s c (snd (allocate s c n w))) = Ok true
  /\ (forall s' c', s' <> s \/ c' <> c ->
        fst (is_allocated s' c' (snd (allocate s c n w))) = fst (is_allocated s' c' w))
  /\ centers_remaining_cap (snd (allocate s c n w)) = centers_remaining_cap w.
Proof.
  destruct (allocate_result s c n w) as (a & Ha & Hrec & Hothers).
  rewrite Ha. cbn [snd]. rewrite !is_allocated_result. cbn [fst].
  split; [|split; [|reflexivity]].
  - unfold recorded. cbn [allocations set_allocations]. rewrite Hrec. reflexivity.
  - intros s' c' Hne. rewrite !is_allocated_result. cbn [fst]. f_equal.
    unfold recorded at 1. cbn [allocations set_allocations].
    rewrite (Hothers s' c' Hne). reflexivity.
Qed.

(** ** Exceptions of the allocation loop *)

Lemma body_raise_cases (centers : list CandidateCenter) (school : School) (pc : Z)
    (stretch : bool) (center : CandidateCenter) (st : loop_state) (w : World) (e : exn) :
  fst (allocate_to_centers_body centers school pc stretch center st w) = Raise e ->
  (e = KeyError /\ centers_remaining_cap w !! cscode (cand center) = None)
  \/ (e = IndexError /\ centers = []).
Proof.
  destruct st as [to_allot ac].
  unfold allocate_to_centers_body, bind, writerow.
  rewrite is_allocated_result.
  destruct (recorded _ (cscode (cand center)) (scode school)); [cbn; discriminate|].
  unfold remaining_cap_get.
  cbn [centers_remaining_cap set_intermediate_file].
  destruct (centers_remaining_cap w !! cscode (cand center)) as [v|] eqn:Hv.
  2:{ cbn. intros [= <-]. left. auto. }
  destruct (next_allot_of stretch to_allot pc center v) as [next tested].
  destruct ((0 <? to_allot) && (0 <? next) && (next <=? tested)); [|cbn; discriminate].
  destruct ((next <? MIN_STUDENT_IN_CENTER) && (0 <? length ac)%nat).
  - destruct centers as [|c0 rest]; [cbn; intros [= <-]; right; auto|].
    unfold ret.
    destruct (allocate_result (scode school) (cscode (cand c0)) next
                (set_intermediate_file (intermediate_file w ++ [(school, center)]) w))
      as (a & Ha & _).
    rewrite Ha. unfold remaining_cap_sub.
    cbn [centers_remaining_cap set_allocations set_intermediate_file].
    rewrite Hv. cbn. discriminate.
  - unfold ret.
    destruct (allocate_result (scode school) (cscode (cand center)) next
                (set_intermediate_file (intermediate_file w ++ [(school, center)]) w))
      as (a & Ha & _).
    rewrite Ha. unfold remaining_cap_sub.
    cbn [centers_remaining_cap set_allocations set_intermediate_file].
    rewrite Hv. cbn. discriminate.
Qed.

Lemma body_nothing (centers : list CandidateCenter) (school : School) (pc : Z)
    (stretch : bool) (center : CandidateCenter) (to_allot : Z)
    (ac : list (string * CandidateCenter)) (w : World) :
  to_allot <= 0 ->
  allocate_to_centers_body centers school pc stretch center (to_allot, ac) w
  = (if lacks_counter school w center then Raise KeyError else Ok (to_allot, ac),
     set_intermediate_file (intermediate_file w ++ [(school, center)]) w).
Proof.
  intros Hle. unfold allocate_to_centers_body, bind, writerow, lacks_counter.
  rewrite is_allocated_result.
  change (recorded (set_intermediate_file (intermediate_file w ++ [(school, center)]) w)
            (cscode (cand center)) (scode school))
    with (recorded w (cscode (cand center)) (scode school)).
  destruct (recorded w (cscode (cand center)) (scode school)); [reflexivity|].
  unfold remaining_cap_get. cbn [centers_remaining_cap set_intermediate_file].
  destruct (centers_remaining_cap w !! cscode (cand center)) as [v|]; [|reflexivity].
  destruct (next_allot_of stretch to_allot pc center v) as [next tested].
  assert (Hneg : (0 <? to_allot) = false) by (apply Z.ltb_ge; exact Hle).
  rewrite Hneg. reflexivity.
Qed.

Lemma for_each_body_nothing (centers : list CandidateCenter) (school : School) (pc : Z)
    (stretch : bool) (to_allot : Z) (ac : list (string * CandidateCenter))
    (l : list CandidateCenter) (w : World) :
  to_allot <= 0 ->
  let r := for_each l (allocate_to_centers_body centers school pc stretch) (to_allot, ac) w in
  allocations (snd r) = allocations w
  /\ centers_remaining_cap (snd r) = centers_remaining_cap w
  /\ fst r = if existsb (lacks_counter school w) l then Raise KeyError else Ok (to_allot, ac).
Proof.
  intros Hle. revert w. induction l as [|c l IH]; intros w; cbn zeta.
  - cbn. auto.
  - cbn [for_each existsb]. unfold bind.
    rewrite (body_nothing centers school pc stretch c to_allot ac w Hle).
    destruct (lacks_counter school w c); cbn [orb].
    + cbn. auto.
    + apply (IH (set_intermediate_file (intermediate_file w ++ [(school, c)]) w)).
Qed.

(** X11.  A call without stretch with nothing left to allot
    ([to_allot <= 0]) records no allocation and changes no counter.  It
    raises [KeyError] exactly when some candidate that the guard of line 201
    does not skip has no counter for line 204 to find; otherwise it returns
    its argument and an empty mapping. *)
Theorem nothing_to_allot (centers : list CandidateCenter) (school : School)
    (to_allot : Z) (w : World) :
  to_allot <= 0 ->
  allocations (snd (allocate_to_centers centers school to_allot false w)) = allocations w
  /\ centers_remaining_cap (snd (allocate_to_centers centers school to_allot false w))
     = centers_remaining_cap w
  /\ fst (allocate_to_centers centers school to_allot false w)
     = if existsb (lacks_counter school w) centers
       then Raise KeyError
       else Ok (to_allot, []).
Proof.
  intros Hle. unfold allocate_to_centers.
  apply (for_each_body_nothing centers school (calc_per_center to_allot) false to_allot []
           centers w Hle).
Qed.

(** ** Totals are conserved *)

Lemma sum_values_insert_fresh (m : gmap string Z) (k : string) (x : Z) :
  m !! k = None -> sum_values (<[k := x]> m) = sum_values m + x.
Proof.
  intros Hk. unfold sum_values.
  rewrite map_fold_insert_L; [reflexivity | | exact Hk].
  intros j1 j2 z1 z2 y _ _ _. cbv beta. lia.
Qed.

Lemma sum_values_insert (m : gmap string Z) (k : string) (x : Z) :
  sum_values (<[k := x]> m) = sum_values m - default 0 (m !! k) + x.
Proof.
  destruct (m !! k) as [v|] eqn:Hk; cbn.
  - assert (H1 : sum_values (<[k := x]> m) = sum_values (delete k m) + x).
    { rewrite <- (insert_delete_eq m k x).
      apply sum_values_insert_fresh, lookup_delete_eq. }
    assert (H2 : sum_values m = sum_values (delete k m) + v).
    { rewrite <- (insert_delete_id m k v Hk) at 1.
      apply sum_values_insert_fresh, lookup_delete_eq. }
    lia.
  - rewrite sum_values_insert_fresh by exact Hk. lia.
Qed.

Lemma school_total_same (w w' : World) (s : string) :
  (forall c, recorded w' s c = recorded w s c) -> school_total w' s = school_total w s.
Proof.
  unfold recorded, school_total. intros Hsame.
  destruct (allocations w' !! s) as [d'|], (allocations w !! s) as [d|]; try reflexivity.
  - f_equal. apply map_eq, Hsame.
  - assert (d' = ∅) as -> by (apply map_eq; intros c; rewrite Hsame, lookup_empty; reflexivity).
    reflexivity.
  - assert (d = ∅) as -> by (apply map_eq; intros c; rewrite <- Hsame, lookup_empty; reflexivity).
    reflexivity.
Qed.

Lemma school_total_update (w w' : World) (s code : string) (n : Z) :
  recorded w' s code = Some (match recorded w s code with Some m => m + n | None => n end) ->
  (forall c, c <> code -> recorded w' s c = recorded w s c) ->
  school_total w' s = school_total w s + n.
Proof.
  unfold recorded, school_total. intros Hcode Hothers.
  destruct (allocations w' !! s) as [d'|]; [|discriminate].
  set (d := default ∅ (allocations w !! s)).
  assert (Hd : forall c, match allocations w !! s with Some d0 => d0 !! c | None => None end
                         = d !! c).
  { intros c. subst d. destruct (allocations w !! s); [reflexivity|].
    cbn. rewrite lookup_empty. reflexivity. }
  assert (Hsum : match allocations w !! s with Some d0 => sum_values d0 | None => 0 end
                 = sum_values d).
  { subst d. destruct (allocations w !! s); reflexivity. }
  rewrite Hsum. rewrite Hd in Hcode.
  assert (d' = <[code := match d !! code with Some m => m + n | None => n end]> d) as ->.
  { apply map_eq. intros c. destruct (decide (c = code)) as [->|Hne].
    - rewrite lookup_insert_eq. exact Hcode.
    - rewrite lookup_insert_ne by congruence. rewrite (Hothers c Hne). apply Hd. }
  rewrite sum_values_insert. destruct (d !! code); cbn; lia.
Qed.

Lemma body_totals (centers : list CandidateCenter) (school : School) (pc : Z)
    (stretch : bool) (center : CandidateCenter) (to_allot : Z)
    (ac : list (string * CandidateCenter)) (w : World) (st' : loop_state) (w' : World) :
  allocate_to_centers_body centers school pc stretch center (to_allot, ac) w = (Ok st', w') ->
  school_total w' (scode school) = school_total w (scode school) + (to_allot - fst st')
  /\ cap_total w' = cap_total w - (to_allot - fst st')
  /\ forall s, s <> scode school -> school_total w' s = school_total w s.
Proof.
  intros Hbody.
  destruct (body_cases centers school pc stretch center to_allot ac w)
    as [[Hw Hres] | (v0 & next & tested & code & ac' & a & Hv0 & _ & _ & _ & _ & _ & _
                     & Hrec & Hothers & Hr)].
  - rewrite Hbody in Hw, Hres. cbn [fst snd] in Hw, Hres.
    destruct Hres as [[= Heq] | [e He]]; [|discriminate]. subst st' w'. cbn [fst].
    replace (to_allot - to_allot) with 0 by lia. rewrite !Z.add_0_r, Z.sub_0_r.
    split; [|split]; reflexivity.
  - rewrite Hbody in Hr. injection Hr as -> ->. cbn [fst].
    replace (to_allot - (to_allot - next)) with next by lia.
    split; [|split].
    + apply (school_total_update w _ (scode school) code next).
      * unfold recorded at 1. cbn [allocations]. exact Hrec.
      * intros c Hc. unfold recorded at 1. cbn [allocations]. apply Hothers. right. exact Hc.
    + unfold cap_total. cbn [centers_remaining_cap].
      rewrite sum_values_insert, Hv0. cbn. lia.
    + intros s Hs. apply school_total_same. intros c.
      unfold recorded at 1. cbn [allocations]. apply Hothers. left. exact Hs.
Qed.

(** X12.  A call that returns conserves students and seats: the total
    recorded for the school grows by exactly the amount taken off the
    remainder, the total of the capacity counters falls by the same amount,
    and the totals of the other schools are unchanged. *)
Theorem allocate_to_centers_conserves (centers : list CandidateCenter) (school : School)
    (to_allot : Z) (stretch : bool) (w : World) (st' : loop_state) (w' : World) :
  allocate_to_centers centers school to_allot stretch w = (Ok st', w') ->
  school_total w' (scode school) = school_total w (scode school) + (to_allot - fst st')
  /\ cap_total w' = cap_total w - (to_allot - fst st')
  /\ forall s, s <> scode school -> school_total w' s = school_total w s.
Proof.
  unfold allocate_to_centers. intros Hrun.
  pose (Inv := fun (st : loop_state) (w1 : World) =>
               school_total w1 (scode school)
               = school_total w (scode school) + (to_allot - fst st)
               /\ cap_total w1 = cap_total w - (to_allot - fst st)
               /\ forall s, s <> scode school -> school_total w1 s = school_total w s).
  assert (Htriple : triple (Inv (to_allot, []))
            (for_each centers
               (allocate_to_centers_body centers school (calc_per_center to_allot) stretch)
               (to_allot, [])) Inv (fun _ _ => True)).
  { apply triple_for_each. intros x [t ac] _ w1 (I1 & I2 & I3).
    destruct (allocate_to_centers_body centers school (calc_per_center to_allot) stretch x
                (t, ac) w1) as [[st1|e] w2] eqn:Hbody; [|exact I].
    destruct (body_totals _ _ _ _ _ _ _ _ _ _ Hbody) as (B1 & B2 & B3).
    cbn [fst] in *. repeat split.
    - rewrite B1, I1. lia.
    - rewrite B2, I2. lia.
    - intros s Hs. rewrite (B3 s Hs). apply I3, Hs. }
  assert (Hinit : Inv (to_allot, []) w).
  { unfold Inv. cbn [fst]. repeat split; lia. }
  specialize (Htriple w Hinit). rewrite Hrun in Htriple. exact Htriple.
Qed.

(** ** Recorded amounts only grow *)

(** X13.  Whatever a call of [allocate_to_centers] does, returning or
    raising, a recorded pair stays recorded with an amount at least as
    large, and the records of the other schools are exactly as before. *)
Theorem records_only_grow (centers : list CandidateCenter) (school : School)
    (to_allot : Z) (stretch : bool) (w : World) (s c : string) (m : Z) :
  recorded w s c = Some m ->
  exists m',
    recorded (snd (allocate_to_centers centers school to_allot stretch w)) s c = Some m'
    /\ m <= m'
    /\ (s <> scode school -> m' = m).
Proof.
  intros Hrec. unfold allocate_to_centers.
  apply (satisfies_for_each
           (fun w' => exists m', recorded w' s c = Some m' /\ m <= m'
                                 /\ (s <> scode school -> m' = m))
           (fun _ => True)
           (allocate_to_centers_body centers school (calc_per_center to_allot) stretch)
           centers); [|exact I|exists m; repeat split; [exact Hrec | lia]].
  intros x [t ac] _ _ w1 (m1 & Hm1 & Hle & Hsame). split; [|auto].
  destruct (body_cases centers school (calc_per_center to_allot) stretch x t ac w1)
    as [[Hw _] | (v0 & next & tested & code & ac' & a & _ & _ & _ & Hpos & _ & _ & _
                  & Hnew & Hothers & Hr)].
  - rewrite Hw. exists m1. auto.
  - rewrite Hr. cbn [snd]. unfold recorded at 1. cbn [allocations].
    destruct (decide (s = scode school /\ c = code)) as [[-> ->]|Hne].
    + rewrite Hnew, Hm1. exists (m1 + next). split; [reflexivity|]. split; [lia|].
      intros Hs. congruence.
    + rewrite Hothers, Hm1.
      * exists m1. auto.
      * destruct (decide (s = scode school)) as [->|Hs]; [right | left; exact Hs].
        intros ->. apply Hne. auto.
Qed.

(** ** What one allocation amounts to *)

(** X14.  Without stretch, an iteration that allocates does one of three
    things: it places all that was left of the school, or it places exactly
    the per-center cap, or it empties the candidate's counter. *)
Theorem non_stretch_allocation_shape (centers : list CandidateCenter) (school : School)
    (pc : Z) (center : CandidateCenter) (to_allot : Z)
    (ac : list (string * CandidateCenter)) (w : World) (st' : loop_state) (w' : World) :
  allocate_to_centers_body centers school pc false center (to_allot, ac) w = (Ok st', w') ->
  fst st' <> to_allot ->
  fst st' = 0
  \/ to_allot - fst st' = pc
  \/ centers_remaining_cap w' !! cscode (cand center) = Some 0.
Proof.
  intros Hbody Hprog.
  destruct (body_cases centers school pc false center to_allot ac w)
    as [[_ Hres] | (v0 & next & tested & code & ac' & a & _ & Hnext & _ & _ & Hle & _ & _
                    & _ & _ & Hr)].
  - rewrite Hbody in Hres. cbn [fst] in Hres.
    destruct Hres as [[= Heq] | [e He]]; [subst st'; cbn in Hprog; congruence | discriminate].
  - rewrite Hbody in Hr. injection Hr as -> ->. cbn [fst snd centers_remaining_cap].
    unfold next_allot_of in Hnext. injection Hnext as Hn Ht. subst tested.
    rewrite lookup_insert_eq. unfold MIN_STUDENT_IN_CENTER in Hn.
    destruct (Z.eq_dec next to_allot) as [->|H1]; [left; lia|].
    destruct (Z.eq_dec next pc) as [->|H2]; [right; left; lia|].
    right. right. f_equal. lia.
Qed.

(** ** The counters at the start of the run *)

Lemma fold_counters_other (l : list Center) (acc : gmap string Z) (k : string) :
  (forall c, In c l -> cscode c <> k) ->
  fold_left (fun d c => <[cscode c := capacity c]> d) l acc !! k = acc !! k.
Proof.
  revert acc. induction l as [|c l IH]; intros acc Hne; cbn [fold_left]; [reflexivity|].
  rewrite IH by (intros c' Hc'; apply Hne; right; exact Hc').
  apply lookup_insert_ne. apply Hne. left. reflexivity.
Qed.

Lemma fold_counters_from (l : list Center) (acc : gmap string Z) (k : string) (v : Z) :
  fold_left (fun d c => <[cscode c := capacity c]> d) l acc !! k = Some v ->
  acc !! k = Some v \/ exists c, In c l /\ cscode c = k /\ capacity c = v.
Proof.
  revert acc. induction l as [|c l IH]; intros acc; cbn [fold_left]; [auto|].
  intros Hk. destruct (IH _ Hk) as [Hacc | (c' & Hin & Hc')].
  - destruct (decide (cscode c = k)) as [<-|Hne].
    + rewrite lookup_insert_eq in Hacc. injection Hacc as <-.
      right. exists c. split; [left; reflexivity | auto].
    + rewrite lookup_insert_ne in Hacc by exact Hne. left. exact Hacc.
  - right. exists c'. split; [right; exact Hin | exact Hc'].
Qed.

Lemma fold_counters_cover (l : list Center) (acc : gmap string Z) (k : string) :
  is_Some (acc !! k) \/ (exists c, In c l /\ cscode c = k) ->
  is_Some (fold_left (fun d c => <[cscode c := capacity c]> d) l acc !! k).
Proof.
  revert acc. induction l as [|c l IH]; intros acc; cbn [fold_left].
  - intros [Hacc | (c & [] & _)]. exact Hacc.
  - intros Hk. apply IH. destruct (decide (cscode c = k)) as [<-|Hne].
    + left. rewrite lookup_insert_eq. eexists. reflexivity.
    + rewrite lookup_insert_ne by exact Hne.
      destruct Hk as [Hacc | (c' & [<-|Hin] & Hc')]; [left; exact Hacc | congruence |].
      right. exists c'. auto.
Qed.

(** X16.  The counters start from the capacity column, the last row winning
    when a code appears on several rows: a center row after which no row has
    the same code gives its capacity to the counter of its code. *)
Theorem initial_counter_last_row (l1 l2 : list Center) (c : Center) (g : Rng) :
  (forall c', In c' l2 -> cscode c' <> cscode c) ->
  centers_remaining_cap (initial_world (l1 ++ c :: l2) g) !! cscode c = Some (capacity c).
Proof.
  intros Hlast. unfold initial_world. cbn [centers_remaining_cap].
  rewrite fold_left_app. cbn [fold_left].
  rewrite fold_counters_other by exact Hlast. apply lookup_insert_eq.
Qed.

(** ** The counters during the run *)

Lemma allocate_to_centers_keeps_bounded (centers : list CandidateCenter) (school : School)
    (to_allot : Z) (k : string) (v0 : Z) :
  satisfies (fun w => exists v, centers_remaining_cap w !! k = Some v /\ 0 <= v <= v0)
            (fun _ => True)
            (allocate_to_centers centers school to_allot false).
Proof.
  intros w (v & Hv & Hrange). split; [|auto]. unfold allocate_to_centers.
  destruct (for_each_body_cap centers school (calc_per_center to_allot) false centers
              (to_allot, []) w k v Hv) as (v' & Hv' & Hle & Hc).
  exists v'. split; [exact Hv'|].
  destruct Hc as [-> | (c & _ & _ & Hb)]; [lia | specialize (Hb eq_refl); lia].
Qed.

Lemma school_iteration_keeps_bounded (prefs : gmap string (gmap string Z))
    (centers : list Center) (s : School) (k : string) (v0 : Z) :
  satisfies (fun w => exists v, centers_remaining_cap w !! k = Some v /\ 0 <= v <= v0)
            (fun _ => True)
            (school_iteration prefs centers s tt).
Proof.
  unfold school_iteration.
  eapply (satisfies_bind _ (fun _ => True)).
  { eapply satisfies_weaken; [|apply centers_within_distance_keeps; auto]. auto. }
  intros cands _.
  change (call_allocate_to_centers cands s (count s) [])
    with (allocate_to_centers cands s (count s) false).
  eapply satisfies_bind; [apply allocate_to_centers_keeps_bounded|].
  intros [to_allot ac] _.
  eapply (satisfies_bind _ (fun _ => True)).
  { destruct (0 <? to_allot); [|apply satisfies_ret; exact I].
    eapply (satisfies_bind _ (fun _ => True)).
    { eapply satisfies_weaken; [|apply centers_within_distance_keeps; auto]. auto. }
    intros expanded _ w Hw. rewrite call_with_stretch_capacity.
    split; [exact Hw | discriminate]. }
  intros [to_allot' ac'] _.
  eapply (satisfies_bind _ (fun _ => True)).
  { apply satisfies_for_each; [|exact I].
    intros c [] _ _. apply write_allocation_row_keeps. auto. }
  intros _ _. destruct (0 <? to_allot'); [|apply satisfies_ret; exact I].
  intros w Hw. split; [exact Hw | auto].
Qed.

(** X17.  When no capacity is negative, at the end of every run, completed
    or halted, the counter of each center lies between zero and the value it
    started from: the run never takes a counter below zero. *)
Theorem main_counters_bounded (prefs : gmap string (gmap string Z))
    (schools_tsv : list School) (centers : list Center) (seed : Rng) (k : string) (v0 : Z) :
  (forall c, In c centers -> 0 <= capacity c) ->
  centers_remaining_cap (initial_world centers seed) !! k = Some v0 ->
  exists v,
    centers_remaining_cap (snd (main prefs schools_tsv centers seed)) !! k = Some v
    /\ 0 <= v <= v0.
Proof.
  intros Hcap Hk. unfold main.
  assert (Hsat : satisfies
                   (fun w => exists v, centers_remaining_cap w !! k = Some v /\ 0 <= v <= v0)
                   (fun _ : unit => True)
                   (bind (sorted school_sort_key schools_tsv)
                         (fun schools => for_each schools (school_iteration prefs centers) tt))).
  { eapply satisfies_bind; [apply sorted_keeps; auto|].
    intros schools _. apply satisfies_for_each; [|exact I].
    intros s [] _ _. apply school_iteration_keeps_bounded. }
  apply Hsat. exists v0. split; [exact Hk|].
  unfold initial_world in Hk. cbn [centers_remaining_cap] in Hk.
  destruct (fold_counters_from centers ∅ k v0 Hk) as [Hempty | (c & Hin & _ & <-)].
  - rewrite lookup_empty in Hempty. discriminate.
  - pose proof (Hcap c Hin). lia.
Qed.

(** ** The mapping a call returns *)

Lemma dict_set_In {V : Type} (d : list (string * V)) (k k' : string) (v y : V) :
  In (k', y) (dict_set d k v) -> (k' = k /\ y = v) \/ In (k', y) d.
Proof.
  induction d as [|[k0 v0] d IH]; cbn [dict_set].
  - intros [[= <- <-]|[]]. left. auto.
  - destruct (String.eqb k0 k) eqn:Hk.
    + intros [[= <- <-]|Hin]; [left; auto | right; right; exact Hin].
    + intros [Heq|Hin]; [right; left; exact Heq|].
      destruct (IH Hin) as [Hnew|Hold]; [left; exact Hnew | right; right; exact Hold].
Qed.

Lemma dict_set_keys_In {V : Type} (d : list (string * V)) (k k' : string) (v : V) :
  In k' (dict_keys (dict_set d k v)) -> k' = k \/ In k' (dict_keys d).
Proof.
  unfold dict_keys. intros Hin. apply in_map_iff in Hin as ([k1 y] & <- & Hin).
  cbn [fst]. destruct (dict_set_In d k k1 v y Hin) as [[-> _]|Hold]; [left; reflexivity|].
  right. apply in_map_iff. exists (k1, y). auto.
Qed.

Lemma dict_set_keys_NoDup {V : Type} (d : list (string * V)) (k : string) (v : V) :
  NoDup (dict_keys d) -> NoDup (dict_keys (dict_set d k v)).
Proof.
  induction d as [|[k0 v0] d IH]; cbn [dict_set dict_keys map fst].
  - intros _. apply NoDup_singleton.
  - intros Hnd. apply NoDup_cons in Hnd as [Hnotin Hnd].
    destruct (String.eqb k0 k) eqn:Hk.
    + apply String.eqb_eq in Hk. subst k0. cbn [map fst].
      apply NoDup_cons. split; assumption.
    + apply String.eqb_neq in Hk. cbn [map fst]. apply NoDup_cons. split; [|apply IH, Hnd].
      intros Hin. apply list_elem_of_In in Hin.
      destruct (dict_set_keys_In d k k0 v Hin) as [Heq|Hold]; [congruence|].
      apply Hnotin, list_elem_of_In, Hold.
Qed.

Lemma body_entries (centers : list CandidateCenter) (school : School) (pc : Z)
    (stretch : bool) (center : CandidateCenter) (to_allot : Z)
    (ac : list (string * CandidateCenter)) (w : World) (st' : loop_state) (w' : World) :
  In center centers ->
  entries_recorded centers school ac w ->
  allocate_to_centers_body centers school pc stretch center (to_allot, ac) w = (Ok st', w') ->
  entries_recorded centers school (snd st') w'.
Proof.
  intros Hin [Hnd Hent] Hbody.
  destruct (body_cases centers school pc stretch center to_allot ac w)
    as [[Hw Hres] | (v0 & next & tested & code & ac' & a & _ & _ & _ & _ & _ & _ & Hcode
                     & Hnew & Hothers & Hr)].
  - rewrite Hbody in Hw, Hres. cbn [fst snd] in Hw, Hres.
    destruct Hres as [[= Heq] | [e He]]; [|discriminate]. subst st' w'.
    split; [exact Hnd | exact Hent].
  - rewrite Hbody in Hr. injection Hr as -> ->. cbn [snd].
    assert (Hkeep : forall k, is_Some (recorded w (scode school) k) ->
              is_Some (recorded (mkWorld a
                         (<[cscode (cand center) := v0 - next]> (centers_remaining_cap w))
                         (remaining w)
                         (intermediate_file
                            (set_intermediate_file
                               (intermediate_file w ++ [(school, center)]) w))
                         (allocation_file w) (warnings w) (rng w)) (scode school) k)).
    { intros k Hk. unfold recorded at 1. cbn [allocations].
      destruct (decide (k = code)) as [->|Hne].
      - rewrite Hnew. eexists. reflexivity.
      - rewrite Hothers by (right; exact Hne). exact Hk. }
    destruct Hcode as [(-> & -> & _) | (_ & _ & -> & _)].
    + split; [apply dict_set_keys_NoDup, Hnd|].
      intros k x Hx. destruct (dict_set_In _ _ _ _ _ Hx) as [[-> ->]|Hold].
      * split; [reflexivity|]. split; [exact Hin|].
        unfold recorded. cbn [allocations]. rewrite Hnew. eexists. reflexivity.
      * destruct (Hent k x Hold) as (Hk & Hc & Hrec). auto.
    + split; [exact Hnd|]. intros k x Hx.
      destruct (Hent k x Hx) as (Hk & Hc & Hrec). auto.
Qed.

(** X18.  In the mapping a call returns, every entry maps the code of a
    candidate of the list to that candidate, no code appears twice, and each
    of these centers has an allocation recorded for the school, so that the
    run can always write its allocation row. *)
Theorem returned_allocated_centers (centers : list CandidateCenter) (school : School)
    (to_allot : Z) (stretch : bool) (w : World) (left : Z)
    (allocated_centers : list (string * CandidateCenter)) (w' : World) :
  allocate_to_centers centers school to_allot stretch w = (Ok (left, allocated_centers), w') ->
  NoDup (dict_keys allocated_centers)
  /\ forall k x, In (k, x) allocated_centers ->
       k = cscode (cand x) /\ In x centers /\ is_Some (recorded w' (scode school) k).
Proof.
  unfold allocate_to_centers. intros Hrun.
  assert (Hinit : entries_recorded centers school [] w).
  { split; [apply NoDup_nil; exact I | intros k x []]. }
  assert (Hbody : forall x st, In x centers ->
            triple (fun w1 => entries_recorded centers school (snd st) w1)
              (allocate_to_centers_body centers school (calc_per_center to_allot) stretch x st)
              (fun (st' : loop_state) w1 => entries_recorded centers school (snd st') w1)
              (fun _ _ => True)).
  { intros x [t ac] Hin w1 Hent. cbn [snd] in Hent.
    destruct (allocate_to_centers_body centers school (calc_per_center to_allot) stretch x
                (t, ac) w1) as [[st1|e] w2] eqn:Hstep; [|exact I].
    eapply body_entries; eassumption. }
  pose proof (triple_for_each
                (fun (st : loop_state) w1 => entries_recorded centers school (snd st) w1)
                (fun _ _ => True) _ centers Hbody (to_allot, []) w Hinit) as Htriple.
  rewrite Hrun in Htriple. exact Htriple.
Qed.

(** ** Which exceptions a run can raise *)

Lemma scan_center_within (prefs : gmap string (gmap string Z)) (school : School)
    (th : float_t) (centers : list Center) (c : Center) (st : scan_state) (w : World) :
  In c centers ->
  scan_within centers st ->
  match scan_center prefs school th c st w with
  | (Ok st', _) => scan_within centers st'
  | (Raise e, _) => e = ValueError
  end.
Proof.
  intros Hin [Hwd Hnr]. destruct st as [wd nr]. cbn [fst snd] in Hwd, Hnr.
  unfold scan_center, value_or_raise, bind, ret, raise.
  destruct (float (s_lat school)) as [a1|]; [|reflexivity].
  destruct (float (s_long school)) as [a2|]; [|reflexivity].
  destruct (float (lat c)) as [a3|]; [|reflexivity].
  destruct (float (long c)) as [a4|]; [|reflexivity].
  destruct (haversine_distance a1 a2 a3 a4) as [distance|]; [|reflexivity].
  destruct (String.eqb (scode school) (cscode c)); [split; assumption|].
  assert (Hnew : forall c' d',
             match nr with
             | None => Some (c, distance)
             | Some (_, nd) => if flt distance nd then Some (c, distance) else nr
             end = Some (c', d') -> In c' centers).
  { intros c' d'. destruct nr as [[c0 nd]|].
    - destruct (flt distance nd); [intros [= <- _]; exact Hin | apply Hnr].
    - intros [= <- _]. exact Hin. }
  destruct (fle distance th && _); split; cbn [fst snd]; try assumption.
  intros x Hx. apply in_app_or in Hx as [Hx|[<-|[]]]; [apply Hwd, Hx | exact Hin].
Qed.

Lemma scan_within_all (prefs : gmap string (gmap string Z)) (school : School)
    (th : float_t) (centers l : list Center) (st : scan_state) (w : World) :
  (forall c, In c l -> In c centers) ->
  scan_within centers st ->
  match for_each l (scan_center prefs school th) st w with
  | (Ok st', _) => scan_within centers st'
  | (Raise e, _) => e = ValueError
  end.
Proof.
  revert st w. induction l as [|c l IH]; intros st w Hsub Hst; [exact Hst|].
  cbn [for_each]. unfold bind.
  pose proof (scan_center_within prefs school th centers c st w
                (Hsub c (or_introl eq_refl)) Hst) as Hstep.
  destruct (scan_center prefs school th c st w) as [[st1|e] w1]; [|exact Hstep].
  apply IH; [intros c' Hc'; apply Hsub; right; exact Hc' | exact Hstep].
Qed.

Lemma selection_outcome (prefs : gmap string (gmap string Z)) (school : School)
    (centers : list Center) (th : float_t) (w : World) :
  match fst (centers_within_distance prefs school centers th w) with
  | Ok l => forall x, In x l -> In (cand x) centers
  | Raise e => e = TypeError \/ e = ValueError
  end.
Proof.
  unfold centers_within_distance.
  destruct ((String.length (s_lat school) =? 0)%nat || (String.length (s_long school) =? 0)%nat).
  { cbn. intros x []. }
  unfold bind.
  assert (Hinit : scan_within centers ([], None)).
  { split; [intros x [] | discriminate]. }
  pose proof (scan_within_all prefs school th centers centers ([], None) w
                (fun c Hc => Hc) Hinit) as Hscan.
  destruct (for_each centers (scan_center prefs school th) ([], None) w)
    as [[[wd nr]|e] w1]; [|cbn; right; exact Hscan].
  destruct Hscan as [Hwd Hnr]. cbn [fst snd] in Hwd, Hnr.
  destruct (0 <? length wd)%nat.
  - destruct (sorted_result (sort_key prefs school) wd w1) as (l' & g & Hs & Hin).
    rewrite Hs. cbn [fst]. intros x Hx. apply Hwd, Hin, Hx.
  - destruct nr as [[c d]|]; cbn.
    + intros x [<-|[]]. cbn. eapply Hnr. reflexivity.
    + left. reflexivity.
Qed.

(** X19.  A call of [allocate_to_centers] returns, without raising, whenever
    the code of every candidate has a capacity counter. *)
Theorem allocate_to_centers_returns (centers : list CandidateCenter) (school : School)
    (to_allot : Z) (stretch : bool) (w : World) :
  (forall x, In x centers -> is_Some (centers_remaining_cap w !! cscode (cand x))) ->
  exists st' w', allocate_to_centers centers school to_allot stretch w = (Ok st', w').
Proof.
  intros Hcover. unfold allocate_to_centers.
  assert (Hbody : forall x st, In x centers ->
            triple (fun w1 => forall y, In y centers ->
                                 is_Some (centers_remaining_cap w1 !! cscode (cand y)))
              (allocate_to_centers_body centers school (calc_per_center to_allot) stretch x st)
              (fun (_ : loop_state) w1 =>
                 forall y, In y centers ->
                   is_Some (centers_remaining_cap w1 !! cscode (cand y)))
              (fun _ _ => False)).
  { intros x st Hin w1 Hc.
    pose proof (body_raise_cases centers school (calc_per_center to_allot) stretch x st w1)
      as Hexn.
    assert (Hkeep : forall y, In y centers ->
              is_Some (centers_remaining_cap
                         (snd (allocate_to_centers_body centers school
                                 (calc_per_center to_allot) stretch x st w1))
                       !! cscode (cand y))).
    { intros y Hy. destruct (Hc y Hy) as [v Hv].
      destruct (body_cap centers school (calc_per_center to_allot) stretch x st w1 _ v Hv)
        as (v' & Hv' & _). rewrite Hv'. eexists. reflexivity. }
    destruct (allocate_to_centers_body centers school (calc_per_center to_allot) stretch x
                st w1) as [[st1|e] w2]; cbn [fst snd] in *; [exact Hkeep|].
    destruct (Hexn e eq_refl) as [[_ Hnone] | [_ ->]]; [|destruct Hin].
    destruct (Hc x Hin) as [v Hv]. congruence. }
  pose proof (triple_for_each
                (fun (_ : loop_state) w1 =>
                   forall y, In y centers ->
                     is_Some (centers_remaining_cap w1 !! cscode (cand y)))
                (fun _ _ => False) _ centers Hbody (to_allot, []) w Hcover) as Htriple.
  destruct (for_each centers
              (allocate_to_centers_body centers school (calc_per_center to_allot) stretch)
              (to_allot, []) w) as [[st'|e] w']; [eauto | destruct Htriple].
Qed.

Lemma allocate_to_centers_keeps_cover (centers : list Center)
    (cands : list CandidateCenter) (school : School) (to_allot : Z) (stretch : bool)
    (w : World) :
  counters_cover centers w ->
  counters_cover centers (snd (allocate_to_centers cands school to_allot stretch w)).
Proof.
  intros Hc c Hin. destruct (Hc c Hin) as [v Hv]. unfold allocate_to_centers.
  destruct (for_each_body_cap cands school (calc_per_center to_allot) stretch cands
              (to_allot, []) w _ v Hv) as (v' & Hv' & _).
  rewrite Hv'. eexists. reflexivity.
Qed.

Lemma write_rows_triple (centers : list Center) (s : School)
    (l : list CandidateCenter) :
  triple (fun w => counters_cover centers w
                   /\ forall x, In x l -> is_Some (recorded w (scode s) (cscode (cand x))))
         (for_each l (write_allocation_row s) tt)
         (fun _ w => counters_cover centers w)
         (fun e _ => e = TypeError \/ e = ValueError).
Proof.
  assert (Hbody : forall x (u : unit), In x l ->
            triple (fun w => counters_cover centers w
                             /\ forall y, In y l ->
                                  is_Some (recorded w (scode s) (cscode (cand y))))
              (write_allocation_row s x u)
              (fun (_ : unit) w => counters_cover centers w
                             /\ forall y, In y l ->
                                  is_Some (recorded w (scode s) (cscode (cand y))))
              (fun e _ => e = TypeError \/ e = ValueError)).
  { intros x [] Hin w [Hc Hrec]. unfold write_allocation_row.
    destruct (Hrec x Hin) as [n Hn]. unfold recorded in Hn.
    destruct (allocations w !! scode s) as [d|]; [|discriminate].
    rewrite Hn. split; [exact Hc | exact Hrec]. }
  intros w Hw.
  pose proof (triple_for_each
                (fun (_ : unit) w => counters_cover centers w
                   /\ forall y, In y l -> is_Some (recorded w (scode s) (cscode (cand y))))
                (fun e _ => e = TypeError \/ e = ValueError) _ l Hbody tt w Hw) as Ht.
  destruct (for_each l (write_allocation_row s) tt w) as [[u|e] w']; [apply Ht | exact Ht].
Qed.

Lemma school_iteration_raises_only (prefs : gmap string (gmap string Z))
    (centers : list Center) (s : School) :
  triple (counters_cover centers) (school_iteration prefs centers s tt)
         (fun _ w => counters_cover centers w)
         (fun e _ => e = TypeError \/ e = ValueError).
Proof.
  intros w Hcover. unfold school_iteration, bind.
  pose proof (selection_outcome prefs s centers (float_of_int PREF_DISTANCE_THRESHOLD) w)
    as Hsel.
  destruct (centers_within_distance_result prefs s centers
              (float_of_int PREF_DISTANCE_THRESHOLD) w) as [[g Hg] _].
  destruct (centers_within_distance prefs s centers (float_of_int PREF_DISTANCE_THRESHOLD) w)
    as [[cands|e] w0]; cbn [fst snd] in Hsel, Hg; [|exact Hsel]. subst w0.
  change (call_allocate_to_centers cands s (count s) [] (set_rng g w))
    with (allocate_to_centers cands s (count s) false (set_rng g w)).
  assert (Hcands : forall x, In x cands ->
            is_Some (centers_remaining_cap (set_rng g w) !! cscode (cand x))).
  { intros x Hx. apply (Hcover (cand x)), Hsel, Hx. }
  destruct (allocate_to_centers_returns cands s (count s) false (set_rng g w) Hcands)
    as ([t ac] & w1 & Hrun).
  pose proof (allocate_to_centers_keeps_cover centers cands s (count s) false (set_rng g w)
                Hcover) as Hcover1.
  pose proof (returned_allocated_centers cands s (count s) false (set_rng g w) t ac w1 Hrun)
    as [_ Hent].
  rewrite Hrun in Hcover1 |- *. cbn [snd] in Hcover1.
  destruct (0 <? t) eqn:Hpos.
  - pose proof (selection_outcome prefs s centers (float_of_int ABS_DISTANCE_THRESHOLD) w1)
      as Hsel2.
    destruct (centers_within_distance prefs s centers (float_of_int ABS_DISTANCE_THRESHOLD) w1)
      as [[expanded|e] w2]; cbn [fst] in Hsel2; [|exact Hsel2].
    rewrite call_with_stretch_capacity. left. reflexivity.
  - cbn [ret].
    assert (Hrows : counters_cover centers w1
                    /\ forall x, In x (dict_values ac) ->
                         is_Some (recorded w1 (scode s) (cscode (cand x)))).
    { split; [exact Hcover1|]. intros x Hx. unfold dict_values in Hx.
      apply in_map_iff in Hx as ([k y] & <- & Hin). cbn [snd].
      destruct (Hent k y Hin) as (-> & _ & Hrec). exact Hrec. }
    pose proof (write_rows_triple centers s (dict_values ac) w1 Hrows) as Hw.
    destruct (for_each (dict_values ac) (write_allocation_row s) tt w1) as [[u|e] w2];
      [|exact Hw].
    rewrite Hpos. exact Hw.
Qed.

(** X20.  No run halts with a [KeyError] or an [IndexError]: every lookup of
    a counter (lines 204 and 223) and of a recorded allocation (line 297)
    finds its key, and the first candidate (line 216) is never taken from an
    empty list. *)
Theorem main_no_key_or_index_error (prefs : gmap string (gmap string Z))
    (schools_tsv : list School) (centers : list Center) (seed : Rng) (e : exn) :
  fst (main prefs schools_tsv centers seed) = Raise e ->
  e <> KeyError /\ e <> IndexError.
Proof.
  unfold main, bind.
  destruct (sorted_result school_sort_key schools_tsv (initial_world centers seed))
    as (schools & g & Hs & _).
  rewrite Hs.
  assert (Hcover : counters_cover centers (set_rng g (initial_world centers seed))).
  { intros c Hin. cbn [centers_remaining_cap set_rng initial_world].
    apply fold_counters_cover. right. exists c. auto. }
  assert (Hbody : forall x (u : unit), In x schools ->
            triple (counters_cover centers) (school_iteration prefs centers x u)
              (fun (_ : unit) w => counters_cover centers w)
              (fun e _ => e = TypeError \/ e = ValueError)).
  { intros x [] _. apply school_iteration_raises_only. }
  pose proof (triple_for_each (fun (_ : unit) w => counters_cover centers w)
                (fun e _ => e = TypeError \/ e = ValueError) _ schools Hbody tt
                (set_rng g (initial_world centers seed)) Hcover) as Ht.
  destruct (for_each schools (school_iteration prefs centers) tt
              (set_rng g (initial_world centers seed))) as [[u|e'] w'];
    cbn [fst]; [discriminate|].
  intros [= <-]. destruct Ht as [-> | ->]; split; discriminate.
Qed.

(** ** A run that ends normally *)

Lemma write_rows_ledger (s : School) (l : list CandidateCenter) (w : World) :
  allocations (snd (for_each l (write_allocation_row s) tt w)) = allocations w
  /\ centers_remaining_cap (snd (for_each l (write_allocation_row s) tt w))
     = centers_remaining_cap w.
Proof.
  apply (satisfies_for_each
           (fun w' => allocations w' = allocations w
                      /\ centers_remaining_cap w' = centers_remaining_cap w)
           (fun _ => True) (write_allocation_row s) l); [|exact I|auto].
  intros c [] _ _. apply write_allocation_row_keeps. auto.
Qed.

Lemma school_iteration_ok (prefs : gmap string (gmap string Z)) (centers : list Center)
    (s : School) (w w' : World) :
  school_iteration prefs centers s tt w = (Ok tt, w') ->
  0 <= count s ->
  (forall code,
      school_total w' code
      = school_total w code + (if String.eqb (scode s) code then count s else 0))
  /\ cap_total w' = cap_total w - count s.
Proof.
  unfold school_iteration, bind. intros Hrun Hcount.
  destruct (centers_within_distance_result prefs s centers
              (float_of_int PREF_DISTANCE_THRESHOLD) w) as [[g Hg] _].
  destruct (centers_within_distance prefs s centers (float_of_int PREF_DISTANCE_THRESHOLD) w)
    as [[cands|e] w0]; [|discriminate]. cbn [snd] in Hg. subst w0.
  change (call_allocate_to_centers cands s (count s) [] (set_rng g w))
    with (allocate_to_centers cands s (count s) false (set_rng g w)) in Hrun.
  destruct (allocate_to_centers cands s (count s) false (set_rng g w))
    as [[[t ac]|e] w1] eqn:Hcall; [|discriminate].
  destruct (0 <? t) eqn:Hpos.
  { destruct (centers_within_distance prefs s centers (float_of_int ABS_DISTANCE_THRESHOLD) w1)
      as [[expanded|e] w2]; [|discriminate].
    rewrite call_with_stretch_capacity in Hrun. discriminate. }
  cbn [ret] in Hrun.
  pose proof (write_rows_ledger s (dict_values ac) w1) as [Ha Hc].
  destruct (for_each (dict_values ac) (write_allocation_row s) tt w1) as [[u|e] w2];
    [|discriminate].
  rewrite Hpos in Hrun. cbn [ret] in Hrun. injection Hrun as <-. cbn [snd] in Ha, Hc.
  apply Z.ltb_ge in Hpos.
  assert (Hfst : fst (allocate_to_centers cands s (count s) false (set_rng g w)) = Ok (t, ac))
    by (rewrite Hcall; reflexivity).
  pose proof (allocate_to_centers_remainder cands s (count s) false (set_rng g w) (t, ac)
                Hcount Hfst) as Hrem. cbn [fst] in Hrem.
  assert (t = 0) as -> by lia.
  destruct (allocate_to_centers_conserves cands s (count s) false (set_rng g w) _ _ Hcall)
    as (C1 & C2 & C3). cbn [fst] in C1, C2.
  assert (Hst : forall code, school_total w2 code = school_total w1 code).
  { intros code. unfold school_total. rewrite Ha. reflexivity. }
  assert (Hct : cap_total w2 = cap_total w1).
  { unfold cap_total. rewrite Hc. reflexivity. }
  split.
  - intros code. rewrite Hst. destruct (String.eqb (scode s) code) eqn:Hcode.
    + apply String.eqb_eq in Hcode. subst code. rewrite C1.
      change (school_total (set_rng g w) (scode s)) with (school_total w (scode s)). lia.
    + apply String.eqb_neq in Hcode. rewrite C3 by congruence.
      change (school_total (set_rng g w) code) with (school_total w code). lia.
  - rewrite Hct, C2. change (cap_total (set_rng g w)) with (cap_total w). lia.
Qed.

Lemma schools_loop_ok (prefs : gmap string (gmap string Z)) (centers : list Center)
    (l : list School) (w w' : World) :
  (forall s, In s l -> 0 <= count s) ->
  for_each l (school_iteration prefs centers) tt w = (Ok tt, w') ->
  (forall code, school_total w' code = school_total w code + count_total l code)
  /\ cap_total w' = cap_total w - fold_right (fun s acc => count s + acc) 0 l.
Proof.
  revert w. induction l as [|s l IH]; intros w Hcount Hrun.
  - cbn in Hrun. injection Hrun as <-. cbn. split; [intros code|]; lia.
  - cbn [for_each] in Hrun. unfold bind in Hrun.
    destruct (school_iteration prefs centers s tt w) as [[[]|e] w1] eqn:Hstep; [|discriminate].
    destruct (school_iteration_ok prefs centers s w w1 Hstep (Hcount s (or_introl eq_refl)))
      as [S1 S2].
    destruct (IH w1 (fun s' Hs' => Hcount s' (or_intror Hs')) Hrun) as [L1 L2].
    split.
    + intros code. rewrite L1, S1. cbn [count_total fold_right].
      fold (count_total l code). destruct (String.eqb (scode s) code); lia.
    + rewrite L2, S2. cbn [fold_right]. lia.
Qed.

Lemma count_total_perm (l l' : list School) (code : string) :
  Permutation l l' -> count_total l code = count_total l' code.
Proof.
  induction 1 as [|x l l' _ IH|x y l|l l' l'' _ IH1 _ IH2]; cbn [count_total fold_right].
  - reflexivity.
  - fold (count_total l code) (count_total l' code). rewrite IH. reflexivity.
  - destruct (String.eqb (scode x) code), (String.eqb (scode y) code); lia.
  - congruence.
Qed.

Lemma count_sum_perm (l l' : list School) :
  Permutation l l' ->
  fold_right (fun s acc => count s + acc) 0 l = fold_right (fun s acc => count s + acc) 0 l'.
Proof.
  induction 1 as [|x l l' _ IH|x y l|l l' l'' _ IH1 _ IH2]; cbn [fold_right];
    [reflexivity | rewrite IH; reflexivity | lia | congruence].
Qed.

(** X21.  When no count is negative, a run that ends normally has placed
    every student: for every school code the amounts recorded sum to the
    students of the rows of that code, and the capacity counters have lost
    in total exactly the students of all the schools. *)
Theorem main_ok_places_everyone (prefs : gmap string (gmap string Z))
    (schools_tsv : list School) (centers : list Center) (seed : Rng) :
  (forall s, In s schools_tsv -> 0 <= count s) ->
  fst (main prefs schools_tsv centers seed) = Ok tt ->
  (forall code,
      school_total (snd (main prefs schools_tsv centers seed)) code
      = count_total schools_tsv code)
  /\ cap_total (snd (main prefs schools_tsv centers seed))
     = cap_total (initial_world centers seed)
       - fold_right (fun s acc => count s + acc) 0 schools_tsv.
Proof.
  intros Hcount. unfold main, bind.
  destruct (sorted_is_permutation school_sort_key schools_tsv (initial_world centers seed))
    as (schools & g & Hs & Hperm).
  rewrite Hs.
  destruct (for_each schools (school_iteration prefs centers) tt
              (set_rng g (initial_world centers seed))) as [[[]|e] w'] eqn:Hloop;
    cbn [fst snd]; [intros _ | discriminate].
  assert (Hcount' : forall s, In s schools -> 0 <= count s).
  { intros s Hin. apply Hcount. apply list_elem_of_In. rewrite <- Hperm.
    apply list_elem_of_In. exact Hin. }
  destruct (schools_loop_ok prefs centers schools _ w' Hcount' Hloop) as [L1 L2].
  split.
  - intros code. rewrite L1, (count_total_perm schools schools_tsv code Hperm).
    unfold school_total. cbn [allocations set_rng initial_world].
    rewrite lookup_empty. lia.
  - rewrite L2, (count_sum_perm schools schools_tsv Hperm). reflexivity.
Qed.

(** ** The small-leftover branch, and the remainder *)

(** X22.  When an iteration allots fewer than [MIN_STUDENT_IN_CENTER]
    students while some center is already in [allocated_centers], the amount
    is recorded against the first candidate of the list, [allocated_centers]
    stays as it was, and the amount is taken off the counter of the current
    candidate: the counter of a first candidate of another code does not
    move. *)
Theorem small_leftover_redirect (c0 : CandidateCenter) (rest : list CandidateCenter)
    (school : School) (pc : Z) (stretch : bool) (center : CandidateCenter) (to_allot : Z)
    (ac : list (string * CandidateCenter)) (w : World) (v : Z) (st' : loop_state)
    (w' : World) :
  centers_remaining_cap w !! cscode (cand center) = Some v ->
  allocate_to_centers_body (c0 :: rest) school pc stretch center (to_allot, ac) w
    = (Ok st', w') ->
  fst st' <> to_allot ->
  to_allot - fst st' < MIN_STUDENT_IN_CENTER ->
  ac <> [] ->
  snd st' = ac
  /\ recorded w' (scode school) (cscode (cand c0))
     = Some (match recorded w (scode school) (cscode (cand c0)) with
             | Some m => m + (to_allot - fst st')
             | None => to_allot - fst st'
             end)
  /\ centers_remaining_cap w'
     = <[cscode (cand center) := v - (to_allot - fst st')]> (centers_remaining_cap w)
  /\ (cscode (cand c0) <> cscode (cand center) ->
      centers_remaining_cap w' !! cscode (cand c0)
      = centers_remaining_cap w !! cscode (cand c0)).
Proof.
  intros Hv Hbody Hprog Hsmall Hac.
  destruct (redirect_step c0 rest school pc stretch center to_allot ac w st' w'
              Hbody Hprog Hsmall Hac) as [Hsame Hrec].
  assert (Hcap : centers_remaining_cap w'
                 = <[cscode (cand center) := v - (to_allot - fst st')]>
                     (centers_remaining_cap w)).
  { destruct (body_cases (c0 :: rest) school pc stretch center to_allot ac w)
      as [[_ Hres] | (v0 & next & tested & code & ac' & a & Hv0 & _ & _ & _ & _ & _ & _
                      & _ & _ & Hr)].
    - rewrite Hbody in Hres. cbn [fst] in Hres.
      destruct Hres as [[= Heq] | [e He]]; [subst st'; cbn in Hprog; congruence | discriminate].
    - rewrite Hbody in Hr. injection Hr as -> ->. cbn [fst centers_remaining_cap].
      rewrite Hv in Hv0. injection Hv0 as <-. f_equal. lia. }
  repeat split; [exact Hsame | exact Hrec | exact Hcap |].
  intros Hne. rewrite Hcap. apply lookup_insert_ne. congruence.
Qed.

(** X23.  For a non-negative demand, the remainder a call returns lies
    between zero and the demand; and when the whole demand comes back, the
    call has recorded nothing and changed no counter. *)
Theorem remainder_within_bounds (centers : list CandidateCenter) (school : School)
    (to_allot : Z) (stretch : bool) (w : World) (st' : loop_state) (w' : World) :
  0 <= to_allot ->
  allocate_to_centers centers school to_allot stretch w = (Ok st', w') ->
  0 <= fst st' <= to_allot
  /\ (fst st' = to_allot ->
      allocations w' = allocations w
      /\ centers_remaining_cap w' = centers_remaining_cap w).
Proof.
  unfold allocate_to_centers. intros Hpos Hrun.
  pose (Inv := fun (st : loop_state) (w1 : World) =>
                 0 <= fst st <= to_allot
                 /\ (fst st = to_allot ->
                     allocations w1 = allocations w
                     /\ centers_remaining_cap w1 = centers_remaining_cap w)).
  assert (Hbody : forall x st, In x centers ->
            triple (Inv st)
              (allocate_to_centers_body centers school (calc_per_center to_allot) stretch x st)
              Inv (fun _ _ => True)).
  { intros x [t ac] _ w1 [Hrange Hsame]. cbn [fst] in Hrange, Hsame.
    destruct (body_cases centers school (calc_per_center to_allot) stretch x t ac w1)
      as [[Hw Hres] | (v0 & next & tested & code & ac' & a & _ & Hnext & _ & Hn & _ & _ & _
                       & _ & _ & Hr)].
    - destruct (allocate_to_centers_body centers school (calc_per_center to_allot) stretch x
                  (t, ac) w1) as [[st1|e] w2]; [|exact I].
      cbn [fst snd] in Hw, Hres. destruct Hres as [[= ->] | [e He]]; [|discriminate].
      subst w2. split; [exact Hrange | exact Hsame].
    - rewrite Hr.
      pose proof (next_allot_at_most stretch t (calc_per_center to_allot) x v0) as Hle.
      rewrite Hnext in Hle. cbn [fst] in Hle.
      split; cbn [fst]; [lia | intros Heq; lia]. }
  assert (Hinit : Inv (to_allot, []) w).
  { split; cbn [fst]; [lia | auto]. }
  pose proof (triple_for_each Inv (fun _ _ => True) _ centers Hbody (to_allot, []) w Hinit)
    as Htriple.
  rewrite Hrun in Htriple. exact Htriple.
Qed.

(** ** The diagnostic rows *)

Lemma body_trace (centers : list CandidateCenter) (school : School) (pc : Z)
    (stretch : bool) (center : CandidateCenter) (st : loop_state) (w : World) :
  intermediate_file (snd (allocate_to_centers_body centers school pc stretch center st w))
  = (intermediate_file w ++ [(school, center)])%list.
Proof.
  destruct st as [to_allot ac].
  destruct (body_cases centers school pc stretch center to_allot ac w)
    as [[Hw _] | (v0 & next & tested & code & ac' & a & _ & _ & _ & _ & _ & _ & _ & _ & _ & Hr)];
    [rewrite Hw | rewrite Hr]; reflexivity.
Qed.

Lemma for_each_trace (all : list CandidateCenter) (school : School) (pc : Z)
    (stretch : bool) (l : list CandidateCenter) (st : loop_state) (w : World)
    (st' : loop_state) (w' : World) :
  for_each l (allocate_to_centers_body all school pc stretch) st w = (Ok st', w') ->
  intermediate_file w' = (intermediate_file w ++ map (fun c => (school, c)) l)%list.
Proof.
  revert w st. induction l as [|c l IH]; intros w st Hrun.
  - injection Hrun as _ <-. cbn. rewrite app_nil_r. reflexivity.
  - cbn [for_each] in Hrun. unfold bind in Hrun.
    pose proof (body_trace all school pc stretch c st w) as Hstep.
    destruct (allocate_to_centers_body all school pc stretch c st w) as [[st1|e] w1];
      [|discriminate].
    cbn [snd] in Hstep. rewrite (IH w1 st1 Hrun), Hstep, <- app_assoc. reflexivity.
Qed.

(** X24.  A call that returns has written one row of the intermediate file
    for each candidate of its list, in the order of the list, whether the
    candidate was skipped, refused or used. *)
Theorem trace_rows (centers : list CandidateCenter) (school : School) (to_allot : Z)
    (stretch : bool) (w : World) (st' : loop_state) (w' : World) :
  allocate_to_centers centers school to_allot stretch w = (Ok st', w') ->
  intermediate_file w'
  = (intermediate_file w ++ map (fun c => (school, c)) centers)%list.
Proof. unfold allocate_to_centers. apply for_each_trace. Qed.

(** ** Recorded amounts are positive *)

Lemma allocate_to_centers_keeps_positive (centers : list CandidateCenter) (school : School)
    (to_allot : Z) (stretch : bool) :
  satisfies (fun w => forall s c m, recorded w s c = Some m -> 0 < m) (fun _ => True)
            (allocate_to_centers centers school to_allot stretch).
Proof.
  unfold allocate_to_centers. apply satisfies_for_each; [|exact I].
  intros x [t ac] _ _ w Hpos. split; [|auto].
  destruct (body_cases centers school (calc_per_center to_allot) stretch x t ac w)
    as [[Hw _] | (v0 & next & tested & code & ac' & a & _ & _ & _ & Hn & _ & _ & _
                  & Hnew & Hothers & Hr)].
  - rewrite Hw. exact Hpos.
  - rewrite Hr. cbn [snd]. intros s c m. unfold recorded at 1. cbn [allocations].
    destruct (decide (s = scode school /\ c = code)) as [[-> ->]|Hne].
    + rewrite Hnew. intros [= <-].
      destruct (recorded w (scode school) code) as [m0|] eqn:Hm0; [|exact Hn].
      pose proof (Hpos _ _ _ Hm0). lia.
    + rewrite Hothers; [apply Hpos|].
      destruct (decide (s = scode school)) as [->|Hs]; [right | left; exact Hs].
      intros ->. apply Hne. auto.
Qed.

Lemma school_iteration_keeps_positive (prefs : gmap string (gmap string Z))
    (centers : list Center) (s : School) :
  satisfies (fun w => forall s c m, recorded w s c = Some m -> 0 < m) (fun _ => True)
            (school_iteration prefs centers s tt).
Proof.
  assert (Hcall : forall cands t kwargs,
            satisfies (fun w => forall s c m, recorded w s c = Some m -> 0 < m)
                      (fun _ => True) (call_allocate_to_centers cands s t kwargs)).
  { intros cands t kwargs. unfold call_allocate_to_centers.
    destruct (bind_keywords kwargs);
      [apply allocate_to_centers_keeps_positive | apply satisfies_raise]. }
  unfold school_iteration.
  eapply (satisfies_bind _ (fun _ => True)).
  { eapply satisfies_weaken; [|apply centers_within_distance_keeps; auto]. auto. }
  intros cands _. eapply satisfies_bind; [apply Hcall|].
  intros [to_allot ac] _.
  eapply (satisfies_bind _ (fun _ => True)).
  { destruct (0 <? to_allot); [|apply satisfies_ret; exact I].
    eapply (satisfies_bind _ (fun _ => True)).
    { eapply satisfies_weaken; [|apply centers_within_distance_keeps; auto]. auto. }
    intros expanded _. apply Hcall. }
  intros [to_allot' ac'] _.
  eapply (satisfies_bind _ (fun _ => True)).
  { apply satisfies_for_each; [|exact I].
    intros c [] _ _. apply write_allocation_row_keeps. auto. }
  intros _ _. destruct (0 <? to_allot'); [|apply satisfies_ret; exact I].
  intros w Hw. split; [exact Hw | auto].
Qed.

(** X25.  At the end of every run, completed or halted, every recorded
    allocation is a positive number of students. *)
Theorem main_records_positive (prefs : gmap string (gmap string Z))
    (schools_tsv : list School) (centers : list Center) (seed : Rng) (s c : string) (m : Z) :
  recorded (snd (main prefs schools_tsv centers seed)) s c = Some m ->
  0 < m.
Proof.
  revert s c m. unfold main.
  assert (Hsat : satisfies (fun w => forall s c m, recorded w s c = Some m -> 0 < m)
                   (fun _ : unit => True)
                   (bind (sorted school_sort_key schools_tsv)
                         (fun schools => for_each schools (school_iteration prefs centers) tt))).
  { eapply satisfies_bind; [apply sorted_keeps; auto|].
    intros schools _. apply satisfies_for_each; [|exact I].
    intros x [] _ _. apply school_iteration_keeps_positive. }
  apply Hsat. intros s c m. unfold recorded, initial_world. cbn [allocations].
  rewrite lookup_empty. discriminate.
Qed.

(** ** The counters at every point of a run *)

Lemma for_each_body_never_below (centers : list CandidateCenter) (school : School) (pc : Z)
    (l : list CandidateCenter) (st : loop_state) (k : string) (v : Z) (w : World) :
  never_below_zero k v w ->
  never_below_zero k v
    (snd (for_each l (allocate_to_centers_body centers school pc false) st w)).
Proof.
  intros (v1 & Hv1 & Hle1 & Hc1).
  destruct (for_each_body_cap centers school pc false l st w k v1 Hv1)
    as (v2 & Hv2 & Hle2 & Hc2).
  exists v2. split; [exact Hv2|]. split; [lia|].
  destruct Hc2 as [-> | (c & _ & _ & Hb)]; [exact Hc1 | right; exact (Hb eq_refl)].
Qed.

Lemma school_iteration_never_below (prefs : gmap string (gmap string Z))
    (centers : list Center) (s : School) (k : string) (v : Z) :
  satisfies (never_below_zero k v) (fun _ => True) (school_iteration prefs centers s tt).
Proof.
  assert (Hrng : forall w g, never_below_zero k v w -> never_below_zero k v (set_rng g w))
    by (intros w g Hw; exact Hw).
  unfold school_iteration.
  eapply (satisfies_bind _ (fun _ => True)).
  { eapply satisfies_weaken; [|apply centers_within_distance_keeps; exact Hrng]. auto. }
  intros cands _.
  change (call_allocate_to_centers cands s (count s) [])
    with (allocate_to_centers cands s (count s) false).
  eapply (satisfies_bind _ (fun _ => True)).
  { intros w Hw. split; [|auto]. unfold allocate_to_centers.
    apply for_each_body_never_below, Hw. }
  intros [to_allot ac] _.
  eapply (satisfies_bind _ (fun _ => True)).
  { destruct (0 <? to_allot); [|apply satisfies_ret; exact I].
    eapply (satisfies_bind _ (fun _ => True)).
    { eapply satisfies_weaken; [|apply centers_within_distance_keeps; exact Hrng]. auto. }
    intros expanded _ w Hw. rewrite call_with_stretch_capacity.
    split; [exact Hw | discriminate]. }
  intros [to_allot' ac'] _.
  eapply (satisfies_bind _ (fun _ => True)).
  { apply satisfies_for_each; [|exact I].
    intros c [] _ _. apply write_allocation_row_keeps. intros w l Hw. exact Hw. }
  intros _ _. destruct (0 <? to_allot'); [|apply satisfies_ret; exact I].
  intros w Hw. split; [exact Hw | auto].
Qed.

Lemma schools_never_below (prefs : gmap string (gmap string Z)) (centers : list Center)
    (l : list School) (k : string) (v : Z) (w : World) :
  never_below_zero k v w ->
  never_below_zero k v (snd (for_each l (school_iteration prefs centers) tt w)).
Proof.
  intros Hw.
  apply (satisfies_for_each (never_below_zero k v) (fun _ : unit => True)
           (school_iteration prefs centers) l); [|exact I|exact Hw].
  intros s [] _ _. apply school_iteration_never_below.
Qed.

Lemma main_never_below (prefs : gmap string (gmap string Z)) (schools_tsv : list School)
    (centers : list Center) (seed : Rng) (k : string) (v : Z) :
  centers_remaining_cap (initial_world centers seed) !! k = Some v ->
  never_below_zero k v (snd (main prefs schools_tsv centers seed)).
Proof.
  intros Hk. unfold main, bind.
  destruct (sorted_result school_sort_key schools_tsv (initial_world centers seed))
    as (schools & g & Hs & _).
  rewrite Hs. apply schools_never_below.
  exists v. split; [exact Hk|]. split; [lia | left; reflexivity].
Qed.

(** C3.  Take a center row [c] and the value [v] its counter starts from.
    At every point of a run the counter of [c] is still at [v] or at a value
    between zero and [v]: so it is at the end of the run, completed or
    halted; after any number [n] of schools; and, within the iteration of a
    school [s], after any number [m] of candidates of the normal pass, the
    only place where a counter is written (line 223).  The call for which
    the run enables stretch (line 289) raises before its body runs and
    leaves every counter as it was. *)
Theorem counter_never_below_zero (prefs : gmap string (gmap string Z))
    (schools_tsv : list School) (centers : list Center) (seed : Rng) (c : Center) :
  In c centers ->
  exists v,
    centers_remaining_cap (initial_world centers seed) !! cscode c = Some v
    /\ never_below_zero (cscode c) v (snd (main prefs schools_tsv centers seed))
    /\ (forall (schools : list School) (w0 : World) (n : nat),
          sorted school_sort_key schools_tsv (initial_world centers seed) = (Ok schools, w0) ->
          never_below_zero (cscode c) v
            (snd (for_each (firstn n schools) (school_iteration prefs centers) tt w0))
          /\ forall (s : School) (cands : list CandidateCenter) (w1 : World) (m : nat),
               centers_within_distance prefs s centers (float_of_int PREF_DISTANCE_THRESHOLD)
                 (snd (for_each (firstn n schools) (school_iteration prefs centers) tt w0))
               = (Ok cands, w1) ->
               never_below_zero (cscode c) v
                 (snd (for_each (firstn m cands)
                         (allocate_to_centers_body cands s (calc_per_center (count s)) false)
                         (count s, []) w1)))
    /\ (forall (cands : list CandidateCenter) (s : School) (to_allot : Z) (w : World),
          call_allocate_to_centers cands s to_allot [("stretch_capacity", true)] w
          = (Raise TypeError, w)).
Proof.
  intros Hin.
  destruct (fold_counters_cover centers ∅ (cscode c)) as [v Hv];
    [right; exists c; auto|].
  exists v. split; [exact Hv|].
  split; [apply main_never_below; exact Hv|].
  split; [|intros cands s to_allot w; apply call_with_stretch_capacity].
  intros schools w0 n Hs.
  destruct (sorted_result school_sort_key schools_tsv (initial_world centers seed))
    as (schools' & g & Hs' & _).
  rewrite Hs' in Hs. injection Hs as <- <-.
  assert (Hinit : never_below_zero (cscode c) v (set_rng g (initial_world centers seed))).
  { exists v. split; [exact Hv|]. split; [lia | left; reflexivity]. }
  pose proof (schools_never_below prefs centers (firstn n schools') (cscode c) v _ Hinit)
    as Hn.
  split; [exact Hn|].
  intros s cands w1 m Hsel.
  destruct (centers_within_distance_result prefs s centers
              (float_of_int PREF_DISTANCE_THRESHOLD)
              (snd (for_each (firstn n schools') (school_iteration prefs centers) tt
                      (set_rng g (initial_world centers seed))))) as [[g' Hg'] _].
  rewrite Hsel in Hg'. cbn [snd] in Hg'. subst w1.
  apply for_each_body_never_below. exact Hn.
Qed.

(** ** What is recorded against a center *)

Lemma allocated_insert (m : gmap string (gmap string Z)) (s : string) (d : gmap string Z)
    (k : string) :
  map_fold (fun _ d0 acc => acc + default 0 (d0 !! k)) 0 (<[s := d]> m)
  = map_fold (fun _ d0 acc => acc + default 0 (d0 !! k)) 0 m
    - match m !! s with Some d0 => default 0 (d0 !! k) | None => 0 end
    + default 0 (d !! k).
Proof.
  assert (Hfresh : forall (m' : gmap string (gmap string Z)) d',
             m' !! s = None ->
             map_fold (fun _ d0 acc => acc + default 0 (d0 !! k)) 0 (<[s := d']> m')
             = map_fold (fun _ d0 acc => acc + default 0 (d0 !! k)) 0 m'
               + default 0 (d' !! k)).
  { intros m' d' Hnone. rewrite map_fold_insert_L; [reflexivity | | exact Hnone].
    intros j1 j2 z1 z2 y _ _ _. cbv beta. lia. }
  destruct (m !! s) as [d0|] eqn:Hs.
  - assert (H1 : map_fold (fun _ d0 acc => acc + default 0 (d0 !! k)) 0 (<[s := d]> m)
                 = map_fold (fun _ d0 acc => acc + default 0 (d0 !! k)) 0 (delete s m)
                   + default 0 (d !! k)).
    { rewrite <- (insert_delete_eq m s d). apply Hfresh, lookup_delete_eq. }
    assert (H2 : map_fold (fun _ d0 acc => acc + default 0 (d0 !! k)) 0 m
                 = map_fold (fun _ d0 acc => acc + default 0 (d0 !! k)) 0 (delete s m)
                   + default 0 (d0 !! k)).
    { rewrite <- (insert_delete_id m s d0 Hs) at 1. apply Hfresh, lookup_delete_eq. }
    lia.
  - rewrite Hfresh by exact Hs. lia.
Qed.

Lemma allocated_to_center_allocate (s c : string) (n : Z) (w : World) (k : string) :
  allocated_to_center (snd (allocate s c n w)) k
  = allocated_to_center w k + (if decide (k = c) then n else 0).
Proof.
  unfold allocated_to_center, allocate.
  destruct (allocations w !! s) as [d|] eqn:Hs.
  - destruct (d !! c) as [m|] eqn:Hc; cbn [snd allocations set_allocations];
      rewrite allocated_insert, Hs; destruct (decide (k = c)) as [->|Hne].
    + rewrite lookup_insert_eq, Hc. cbn. lia.
    + rewrite lookup_insert_ne by congruence. lia.
    + rewrite lookup_insert_eq, Hc. cbn. lia.
    + rewrite lookup_insert_ne by congruence. lia.
  - cbn [snd allocations set_allocations].
    rewrite allocated_insert, Hs. destruct (decide (k = c)) as [->|Hne].
    + rewrite lookup_singleton_eq. cbn. lia.
    + rewrite lookup_singleton_ne by congruence. cbn. lia.
Qed.

Lemma held_same (w w' : World) (k : string) :
  allocations w' = allocations w ->
  centers_remaining_cap w' = centers_remaining_cap w ->
  held w' k = held w k.
Proof. unfold held, allocated_to_center. intros -> ->. reflexivity. Qed.

Lemma held_step (w w1 : World) (s code cc k : string) (next v : Z) :
  allocations w1 = allocations (snd (allocate s code next w)) ->
  centers_remaining_cap w1 = <[cc := v - next]> (centers_remaining_cap w) ->
  centers_remaining_cap w !! cc = Some v ->
  held w1 k
  = held w k + (if decide (k = code) then next else 0) - (if decide (k = cc) then next else 0).
Proof.
  intros Ha Hc Hv.
  assert (H1 : allocated_to_center w1 k
               = allocated_to_center (snd (allocate s code next w)) k)
    by (unfold allocated_to_center; rewrite Ha; reflexivity).
  unfold held. rewrite H1, allocated_to_center_allocate, Hc.
  destruct (decide (k = cc)) as [->|Hne].
  - rewrite lookup_insert_eq, Hv. cbn. destruct (decide (cc = code)); lia.
  - rewrite lookup_insert_ne by congruence. destruct (decide (k = code)); lia.
Qed.

(** An iteration either leaves the ledger as it was, or records [next]
    students against [code] with [allocate] and takes them off the counter
    of its candidate; [code] is the candidate's unless the amount is below
    [MIN_STUDENT_IN_CENTER]. *)
Lemma body_ledger (centers : list CandidateCenter) (school : School) (pc : Z)
    (stretch : bool) (center : CandidateCenter) (to_allot : Z)
    (ac : list (string * CandidateCenter)) (w : World) :
  let r := allocate_to_centers_body centers school pc stretch center (to_allot, ac) w in
  (allocations (snd r) = allocations w
   /\ centers_remaining_cap (snd r) = centers_remaining_cap w
   /\ (fst r = Ok (to_allot, ac) \/ exists e, fst r = Raise e))
  \/ exists v next tested code ac',
       centers_remaining_cap w !! cscode (cand center) = Some v
    /\ next_allot_of stretch to_allot pc center v = (next, tested)
    /\ 0 < to_allot /\ 0 < next /\ next <= tested
    /\ (code = cscode (cand center) \/ next < MIN_STUDENT_IN_CENTER)
    /\ fst r = Ok (to_allot - next, ac')
    /\ allocations (snd r) = allocations (snd (allocate (scode school) code next w))
    /\ centers_remaining_cap (snd r)
       = <[cscode (cand center) := v - next]> (centers_remaining_cap w).
Proof.
  intros r. subst r.
  unfold allocate_to_centers_body, bind, writerow.
  set (w0 := set_intermediate_file (intermediate_file w ++ [(school, center)]) w).
  rewrite (is_allocated_result (cscode (cand center)) (scode school) w0).
  change (recorded w0 (cscode (cand center)) (scode school))
    with (recorded w (cscode (cand center)) (scode school)).
  destruct (recorded w (cscode (cand center)) (scode school)) as [m|] eqn:Hrec.
  { left. cbn. auto. }
  unfold remaining_cap_get.
  change (centers_remaining_cap w0) with (centers_remaining_cap w).
  destruct (centers_remaining_cap w !! cscode (cand center)) as [v|] eqn:Hv.
  2:{ left. cbn. eauto. }
  destruct (next_allot_of stretch to_allot pc center v) as [next tested] eqn:Hnext.
  destruct ((0 <? to_allot) && (0 <? next) && (next <=? tested)) eqn:Hadm.
  2:{ left. cbn. auto. }
  apply andb_true_iff in Hadm as [Hadm H3]. apply andb_true_iff in Hadm as [H1 H2].
  apply Z.ltb_lt in H1. apply Z.ltb_lt in H2. apply Z.leb_le in H3.
  assert (Halloc : forall code,
             allocate (scode school) code next w0
             = (Ok tt, set_allocations
                         (allocations (snd (allocate (scode school) code next w))) w0)).
  { intros code. unfold allocate. change (allocations w0) with (allocations w).
    destruct (allocations w !! scode school) as [d|]; [destruct (d !! code)|];
      reflexivity. }
  destruct ((next <? MIN_STUDENT_IN_CENTER) && (0 <? length ac)%nat) eqn:Hred.
  - apply andb_true_iff in Hred as [H4 H5]. apply Z.ltb_lt in H4.
    destruct centers as [|c0 rest].
    { left. cbn. eauto. }
    right. unfold ret. rewrite (Halloc (cscode (cand c0))). unfold remaining_cap_sub.
    change (centers_remaining_cap (set_allocations _ w0)) with (centers_remaining_cap w).
    rewrite Hv.
    exists v, next, tested, (cscode (cand c0)), ac.
    cbn [fst snd allocations centers_remaining_cap set_centers_remaining_cap set_allocations].
    repeat split; try assumption. right. exact H4.
  - right. unfold ret. rewrite (Halloc (cscode (cand center))). unfold remaining_cap_sub.
    change (centers_remaining_cap (set_allocations _ w0)) with (centers_remaining_cap w).
    rewrite Hv.
    exists v, next, tested, (cscode (cand center)),
      (dict_set ac (cscode (cand center)) center).
    cbn [fst snd allocations centers_remaining_cap set_centers_remaining_cap set_allocations].
    repeat split; try assumption. left. reflexivity.
Qed.

(** Over a normal call the seats accounted for at a center grow at most
    once, by a leftover of fewer than [MIN_STUDENT_IN_CENTER] students that
    ends the school's demand. *)
Lemma for_each_body_held (centers : list CandidateCenter) (school : School) (pc : Z)
    (k : string) (h : Z) :
  MIN_STUDENT_IN_CENTER <= pc ->
  forall (l : list CandidateCenter) (st : loop_state) (w : World),
    held w k <= h \/ (fst st <= 0 /\ held w k <= h + (MIN_STUDENT_IN_CENTER - 1)) ->
    held (snd (for_each l (allocate_to_centers_body centers school pc false) st w)) k
    <= h + (MIN_STUDENT_IN_CENTER - 1).
Proof.
  intros Hpc. induction l as [|c l IH]; intros [t ac] w Hinv; cbn [fst] in Hinv.
  - cbn. unfold MIN_STUDENT_IN_CENTER in *. lia.
  - cbn [for_each]. unfold bind.
    destruct (body_ledger centers school pc false c t ac w)
      as [(Ha & Hc & Hres) | (v & next & tested & code & ac' & Hv & Hnext & H1 & H2 & H3
                              & Hcode & Hres & Ha & Hc)].
    + pose proof (held_same w _ k Ha Hc) as Hsame.
      destruct (allocate_to_centers_body centers school pc false c (t, ac) w)
        as [[st1|e] w1]; cbn [fst snd] in *.
      * destruct Hres as [[= ->] | [e He]]; [|discriminate].
        apply IH. cbn [fst]. rewrite Hsame. exact Hinv.
      * rewrite Hsame. unfold MIN_STUDENT_IN_CENTER in *. lia.
    + pose proof (held_step w _ (scode school) code (cscode (cand c)) k next v Ha Hc Hv)
        as Hstep.
      destruct (allocate_to_centers_body centers school pc false c (t, ac) w)
        as [[st1|e] w1]; cbn [fst snd] in *; [|discriminate].
      injection Hres as ->. apply IH. cbn [fst].
      destruct Hinv as [Hh | [Ht _]]; [|lia].
      unfold next_allot_of in Hnext. injection Hnext as Hn _.
      destruct Hcode as [-> | Hsmall].
      * left. rewrite Hstep. destruct (decide (k = cscode (cand c))); lia.
      * right. unfold MIN_STUDENT_IN_CENTER in *. rewrite Hstep.
        destruct (decide (k = code)), (decide (k = cscode (cand c))); lia.
Qed.

Lemma calc_per_center_least (n : Z) : MIN_STUDENT_IN_CENTER <= calc_per_center n.
Proof.
  unfold calc_per_center, MIN_STUDENT_IN_CENTER. destruct (n <=? 400); lia.
Qed.

Lemma school_iteration_held (prefs : gmap string (gmap string Z)) (centers : list Center)
    (s : School) (k : string) (w : World) :
  held (snd (school_iteration prefs centers s tt w)) k
  <= held w k + (MIN_STUDENT_IN_CENTER - 1).
Proof.
  unfold school_iteration, bind.
  destruct (centers_within_distance_result prefs s centers
              (float_of_int PREF_DISTANCE_THRESHOLD) w) as [[g Hg] _].
  destruct (centers_within_distance prefs s centers (float_of_int PREF_DISTANCE_THRESHOLD) w)
    as [[cands|e] w0]; cbn [snd] in Hg; subst w0.
  2:{ cbn [snd]. change (held (set_rng g w) k) with (held w k).
      unfold MIN_STUDENT_IN_CENTER. lia. }
  change (call_allocate_to_centers cands s (count s) [] (set_rng g w))
    with (allocate_to_centers cands s (count s) false (set_rng g w)).
  unfold allocate_to_centers.
  pose proof (for_each_body_held cands s (calc_per_center (count s)) k (held w k)
                (calc_per_center_least (count s)) cands (count s, []) (set_rng g w)
                (or_introl (Z.le_refl _))) as Hcall.
  destruct (for_each cands
              (allocate_to_centers_body cands s (calc_per_center (count s)) false)
              (count s, []) (set_rng g w)) as [[[t ac]|e] w1];
    cbn [snd] in Hcall |- *; [|exact Hcall].
  destruct (0 <? t) eqn:Hpos.
  - destruct (centers_within_distance_result prefs s centers
                (float_of_int ABS_DISTANCE_THRESHOLD) w1) as [[g2 Hg2] _].
    destruct (centers_within_distance prefs s centers (float_of_int ABS_DISTANCE_THRESHOLD) w1)
      as [[expanded|e] w2]; cbn [snd] in Hg2; subst w2;
      [rewrite call_with_stretch_capacity|]; cbn [snd]; exact Hcall.
  - cbn [ret].
    pose proof (write_rows_ledger s (dict_values ac) w1) as [Ha Hc].
    destruct (for_each (dict_values ac) (write_allocation_row s) tt w1) as [[u|e] w2];
      cbn [snd] in Ha, Hc |- *.
    + rewrite Hpos. cbn [ret snd]. rewrite (held_same w1 w2 k Ha Hc). exact Hcall.
    + rewrite (held_same w1 w2 k Ha Hc). exact Hcall.
Qed.

Lemma schools_loop_held (prefs : gmap string (gmap string Z)) (centers : list Center)
    (l : list School) (k : string) (w : World) :
  held (snd (for_each l (school_iteration prefs centers) tt w)) k
  <= held w k + (MIN_STUDENT_IN_CENTER - 1) * Z.of_nat (length l).
Proof.
  revert w. induction l as [|s l IH]; intros w.
  - cbn. lia.
  - cbn [for_each]. unfold bind.
    pose proof (school_iteration_held prefs centers s k w) as Hstep.
    destruct (school_iteration prefs centers s tt w) as [[[]|e] w1]; cbn [snd] in Hstep |- *.
    + specialize (IH w1). cbn [length]. rewrite Nat2Z.inj_succ.
      unfold MIN_STUDENT_IN_CENTER in *. lia.
    + cbn [length]. rewrite Nat2Z.inj_succ. unfold MIN_STUDENT_IN_CENTER in *. lia.
Qed.

Lemma main_held (prefs : gmap string (gmap string Z)) (schools_tsv : list School)
    (centers : list Center) (seed : Rng) (k : string) :
  held (snd (main prefs schools_tsv centers seed)) k
  <= held (initial_world centers seed) k
     + (MIN_STUDENT_IN_CENTER - 1) * Z.of_nat (length schools_tsv).
Proof.
  unfold main, bind.
  destruct (sorted_is_permutation school_sort_key schools_tsv (initial_world centers seed))
    as (schools & g & Hs & Hperm).
  rewrite Hs. rewrite <- (Permutation_length Hperm).
  apply (schools_loop_held prefs centers schools k (set_rng g (initial_world centers seed))).
Qed.

(** C4 (amended).  Take a center code [k] and the value [v] its counter
    starts from, the capacity of the center.  At the end of every run,
    completed or halted, the amounts recorded against [k] over all schools,
    together with what is left on its counter, exceed [v] by at most
    [MIN_STUDENT_IN_CENTER - 1] for each school of the run; so the amounts
    recorded against [k] sum to at most the capacity (or zero, if that is
    negative) plus [MIN_STUDENT_IN_CENTER - 1] for each school. *)
Theorem recorded_within_capacity_and_leftovers (prefs : gmap string (gmap string Z))
    (schools_tsv : list School) (centers : list Center) (seed : Rng) (k : string) (v : Z) :
  centers_remaining_cap (initial_world centers seed) !! k = Some v ->
  exists v',
    centers_remaining_cap (snd (main prefs schools_tsv centers seed)) !! k = Some v'
    /\ allocated_to_center (snd (main prefs schools_tsv centers seed)) k + v'
       <= v + (MIN_STUDENT_IN_CENTER - 1) * Z.of_nat (length schools_tsv)
    /\ allocated_to_center (snd (main prefs schools_tsv centers seed)) k
       <= Z.max 0 v + (MIN_STUDENT_IN_CENTER - 1) * Z.of_nat (length schools_tsv).
Proof.
  intros Hk.
  destruct (main_never_below prefs schools_tsv centers seed k v Hk) as (v' & Hv' & Hle & Hc).
  pose proof (main_held prefs schools_tsv centers seed k) as Hheld.
  unfold held in Hheld. rewrite Hv', Hk in Hheld. cbn in Hheld.
  assert (H0 : allocated_to_center (initial_world centers seed) k = 0).
  { unfold allocated_to_center, initial_world. cbn [allocations]. apply map_fold_empty. }
  rewrite H0 in Hheld.
  exists v'. split; [exact Hv'|]. split; lia.
Qed.

End MoreProperties.

(** * More properties on concrete rows *)

Lemma Z_ltb_cotrans (a b c : Z) : (a <? b) = true -> (a <? c) = true \/ (c <? b) = true.
Proof. rewrite !Z.ltb_lt. lia. Qed.

Lemma read_prefs_sums_witness :
  exists prefs,
    read_prefs decimal_int pref_rows = Ok prefs
    /\ forall s c, get_pref prefs s c = pref_total decimal_int pref_rows s c.
Proof.
  apply (read_prefs_sums decimal_int pref_rows).
  intros r [<-|[<-|[<-|[]]]]; eexists; vm_compute; reflexivity.
Defined.

Lemma large_schools_first_witness :
  sorted school_sort_key [school_small; school_L1; school_L2] (grid_world [])
  = (Ok [school_L1; school_L2; school_small], grid_world [])
  /\ 500 < count school_L1.
Proof.
  assert (Hsorted : sorted school_sort_key [school_small; school_L1; school_L2] (grid_world [])
                    = (Ok [school_L1; school_L2; school_small], grid_world []))
    by (vm_compute; reflexivity).
  split; [exact Hsorted|].
  apply (@large_schools_first grid_numerics Z_ltb_trans Z.ltb_irrefl
           [school_small; school_L1; school_L2] [school_L1; school_L2; school_small]
           (grid_world []) (grid_world []) 0%nat 1%nat school_L1 school_L2).
  - intros g g'. reflexivity.
  - exact Hsorted.
  - lia.
  - reflexivity.
  - reflexivity.
  - cbn. lia.
Defined.


Lemma selection_without_other_center_witness :
  centers_within_distance ∅ (school_S 50) [center_self] 2 (grid_world [center_self])
  = (Raise TypeError, grid_world [center_self]).
Proof.
  apply (@selection_without_other_center grid_numerics ∅ (school_S 50) [center_self] 2
           (grid_world [center_self])).
  - discriminate.
  - discriminate.
  - intros c [<-|[]]; eexists; vm_compute; reflexivity.
  - intros c [<-|[]]. reflexivity.
Defined.

Lemma selection_unparsable_witness :
  centers_within_distance ∅ (school_S 50) [center_A; center_bad] 2
    (grid_world [center_A; center_bad])
  = (Raise ValueError, grid_world [center_A; center_bad]).
Proof.
  apply (@selection_unparsable grid_numerics ∅ (school_S 50) [center_A; center_bad] 2
           (grid_world [center_A; center_bad]) center_bad).
  - discriminate.
  - discriminate.
  - right. left. reflexivity.
  - vm_compute. reflexivity.
Defined.

Lemma fallback_first_encountered_witness :
  exists i : nat,
    [center_A; center_C] !! i = Some center_A
    /\ forall (j : nat) c' d', (j < i)%nat -> [center_A; center_C] !! j = Some c' ->
         cscode c' <> scode (school_S 50) -> distance_to (school_S 50) c' = Some d' ->
         flt 1 d' = true.
Proof.
  apply (@fallback_first_encountered grid_numerics Z_ltb_trans Z.ltb_irrefl
           ∅ (school_S 50) [center_A; center_C] 0
           (grid_world [center_A; center_C]) (grid_world [center_A; center_C]) center_A 1).
  - intros c1 c2 c3 d1 d2 d3 _ _ _ _ _ _. apply Z_ltb_cotrans.
  - discriminate.
  - discriminate.
  - intros c [<-|[<-|[]]]; eexists; vm_compute; reflexivity.
  - intros c [<-|[<-|[]]]; vm_compute; reflexivity.
  - vm_compute. reflexivity.
Defined.

Lemma nothing_to_allot_witness :
  allocations
    (snd (allocate_to_centers [cand_A; cand_C] (school_S 0) 0 false (grid_world [center_A])))
  = allocations (grid_world [center_A])
  /\ centers_remaining_cap
       (snd (allocate_to_centers [cand_A; cand_C] (school_S 0) 0 false
               (grid_world [center_A])))
     = centers_remaining_cap (grid_world [center_A])
  /\ fst (allocate_to_centers [cand_A; cand_C] (school_S 0) 0 false (grid_world [center_A]))
     = if existsb (lacks_counter (school_S 0) (grid_world [center_A])) [cand_A; cand_C]
       then Raise KeyError
       else Ok (0, []).
Proof.
  apply (@nothing_to_allot grid_numerics [cand_A; cand_C] (school_S 0) 0
           (grid_world [center_A])).
  lia.
Defined.

Lemma allocate_to_centers_conserves_witness :
  let w := grid_world [center_A; center_C] in
  let w' := snd (allocate_to_centers [cand_A; cand_C] (school_S 105) 105 false w) in
  school_total w' "S" = school_total w "S" + (105 - 0)
  /\ cap_total w' = cap_total w - (105 - 0)
  /\ forall s, s <> "S" -> school_total w' s = school_total w s.
Proof.
  intros w w'.
  apply (@allocate_to_centers_conserves grid_numerics [cand_A; cand_C] (school_S 105) 105
           false w (0, [("A", cand_A)]) w').
  vm_compute. reflexivity.
Defined.

Lemma records_only_grow_witness :
  exists m',
    recorded (snd (allocate_to_centers [cand_A] (school_S 102) 2 true world_A_full)) "S" "A"
    = Some m'
    /\ 100 <= m'
    /\ ("S" <> scode (school_S 102) -> m' = 100).
Proof.
  apply (@records_only_grow grid_numerics [cand_A] (school_S 102) 2 true world_A_full
           "S" "A" 100).
  vm_compute. reflexivity.
Defined.

Lemma non_stretch_allocation_shape_witness :
  let w := grid_world [center_A] in
  let w' := snd (allocate_to_centers_body [cand_A] (school_S 50) 100 false cand_A (50, []) w) in
  fst (0, [("A", cand_A)]) = 0
  \/ 50 - fst (0, [("A", cand_A)]) = 100
  \/ centers_remaining_cap w' !! "A" = Some 0.
Proof.
  intros w w'.
  apply (@non_stretch_allocation_shape grid_numerics [cand_A] (school_S 50) 100 cand_A 50 []
           w (0, [("A", cand_A)]) w').
  - vm_compute. reflexivity.
  - cbn. lia.
Defined.

Lemma initial_counter_last_row_witness :
  centers_remaining_cap (@initial_world grid_numerics ([center_A5] ++ center_A :: [center_B]) tt)
    !! "A" = Some 100.
Proof.
  apply (@initial_counter_last_row grid_numerics [center_A5] [center_B] center_A tt).
  intros c' [<-|[]]. discriminate.
Defined.

Lemma main_counters_bounded_witness :
  exists v,
    centers_remaining_cap
      (snd (@main grid_numerics prefs_ABC [school_S 105] [center_A; center_C] tt)) !! "C"
    = Some v
    /\ 0 <= v <= 50.
Proof.
  apply (@main_counters_bounded grid_numerics prefs_ABC [school_S 105] [center_A; center_C] tt
           "C" 50).
  - intros c [<-|[<-|[]]]; cbn; lia.
  - vm_compute. reflexivity.
Defined.

Lemma returned_allocated_centers_witness :
  let w := grid_world [center_A; center_C] in
  let w' := snd (allocate_to_centers [cand_A; cand_C] (school_S 105) 105 false w) in
  NoDup (dict_keys [("A", cand_A)])
  /\ forall k x, In (k, x) [("A", cand_A)] ->
       k = cscode (cand x) /\ In x [cand_A; cand_C] /\ is_Some (recorded w' "S" k).
Proof.
  intros w w'.
  apply (@returned_allocated_centers grid_numerics [cand_A; cand_C] (school_S 105) 105 false
           w 0 [("A", cand_A)] w').
  vm_compute. reflexivity.
Defined.

Lemma allocate_to_centers_returns_witness :
  exists st' w',
    allocate_to_centers [cand_A; cand_C] (school_S 105) 105 true
      (grid_world [center_A; center_C]) = (Ok st', w').
Proof.
  apply (@allocate_to_centers_returns grid_numerics [cand_A; cand_C] (school_S 105) 105 true
           (grid_world [center_A; center_C])).
  intros x [<-|[<-|[]]]; eexists; vm_compute; reflexivity.
Defined.

Lemma main_no_key_or_index_error_witness :
  fst (@main grid_numerics ∅ [school_S3] [center_C1] tt) = Raise TypeError
  /\ (TypeError <> KeyError /\ TypeError <> IndexError).
Proof.
  assert (Hrun : fst (@main grid_numerics ∅ [school_S3] [center_C1] tt) = Raise TypeError)
    by (vm_compute; reflexivity).
  split; [exact Hrun|].
  apply (@main_no_key_or_index_error grid_numerics ∅ [school_S3] [center_C1] tt TypeError
           Hrun).
Defined.

Lemma main_ok_places_everyone_witness :
  (forall code,
      school_total (snd (@main grid_numerics prefs_ABC [school_S 105] [center_A; center_C] tt))
        code
      = count_total [school_S 105] code)
  /\ cap_total (snd (@main grid_numerics prefs_ABC [school_S 105] [center_A; center_C] tt))
     = cap_total (@initial_world grid_numerics [center_A; center_C] tt)
       - fold_right (fun s acc => count s + acc) 0 [school_S 105].
Proof.
  apply (@main_ok_places_everyone grid_numerics prefs_ABC [school_S 105]
           [center_A; center_C] tt).
  - intros s [<-|[]]. cbn. lia.
  - vm_compute. reflexivity.
Defined.

Lemma small_leftover_redirect_witness :
  let w := snd (allocate_to_centers_body [cand_A; cand_C] (school_S 105) 100 false cand_A
                  (105, []) (grid_world [center_A; center_C])) in
  let w' := snd (allocate_to_centers_body [cand_A; cand_C] (school_S 105) 100 false cand_C
                   (5, [("A", cand_A)]) w) in
  snd (0, [("A", cand_A)]) = [("A", cand_A)]
  /\ recorded w' "S" "A"
     = Some (match recorded w "S" "A" with
             | Some m => m + (5 - fst (0, [("A", cand_A)]))
             | None => 5 - fst (0, [("A", cand_A)])
             end)
  /\ centers_remaining_cap w'
     = <["C" := 50 - (5 - fst (0, [("A", cand_A)]))]> (centers_remaining_cap w)
  /\ ("A" <> "C" -> centers_remaining_cap w' !! "A" = centers_remaining_cap w !! "A").
Proof.
  intros w w'.
  apply (@small_leftover_redirect grid_numerics cand_A [cand_C] (school_S 105) 100 false
           cand_C 5 [("A", cand_A)] w 50 (0, [("A", cand_A)]) w').
  - vm_compute. reflexivity.
  - vm_compute. reflexivity.
  - cbn. lia.
  - cbn. unfold MIN_STUDENT_IN_CENTER. lia.
  - discriminate.
Defined.

Lemma remainder_within_bounds_witness :
  let w := grid_world [center_C1] in
  let w' := snd (allocate_to_centers [cand_C1] school_S3 500 false w) in
  0 <= fst (470, [("C1", cand_C1)]) <= 500
  /\ (fst (470, [("C1", cand_C1)]) = 500 ->
      allocations w' = allocations w
      /\ centers_remaining_cap w' = centers_remaining_cap w).
Proof.
  intros w w'.
  apply (@remainder_within_bounds grid_numerics [cand_C1] school_S3 500 false w
           (470, [("C1", cand_C1)]) w').
  - lia.
  - vm_compute. reflexivity.
Defined.

Lemma trace_rows_witness :
  let w := grid_world [center_A; center_C] in
  let w' := snd (allocate_to_centers [cand_A; cand_C] (school_S 105) 105 false w) in
  intermediate_file w'
  = (intermediate_file w ++ map (fun c => (school_S 105, c)) [cand_A; cand_C])%list.
Proof.
  intros w w'.
  apply (@trace_rows grid_numerics [cand_A; cand_C] (school_S 105) 105 false w
           (0, [("A", cand_A)]) w').
  vm_compute. reflexivity.
Defined.

Lemma main_records_positive_witness : 0 < 105.
Proof.
  apply (@main_records_positive grid_numerics prefs_ABC [school_S 105] [center_A; center_C] tt
           "S" "A" 105).
  vm_compute. reflexivity.
Defined.

(** ** The counters and the records over a run *)

(** C3 on the rows of the example: the counter of center C starts at 50 and
    stays between 0 and 50 at every point of the run. *)
Lemma counter_never_below_zero_witness :
  exists v,
    centers_remaining_cap (@initial_world grid_numerics [center_A; center_C] tt)
      !! cscode center_C = Some v
    /\ never_below_zero (cscode center_C) v
         (snd (@main grid_numerics prefs_ABC [school_S 105] [center_A; center_C] tt))
    /\ (forall (schools : list School) (w0 : World) (n : nat),
          sorted school_sort_key [school_S 105]
            (@initial_world grid_numerics [center_A; center_C] tt) = (Ok schools, w0) ->
          never_below_zero (cscode center_C) v
            (snd (for_each (firstn n schools)
                    (school_iteration prefs_ABC [center_A; center_C]) tt w0))
          /\ forall (s : School) (cands : list CandidateCenter) (w1 : World) (m : nat),
               centers_within_distance prefs_ABC s [center_A; center_C]
                 (float_of_int PREF_DISTANCE_THRESHOLD)
                 (snd (for_each (firstn n schools)
                         (school_iteration prefs_ABC [center_A; center_C]) tt w0))
               = (Ok cands, w1) ->
               never_below_zero (cscode center_C) v
                 (snd (for_each (firstn m cands)
                         (allocate_to_centers_body cands s (calc_per_center (count s)) false)
                         (count s, []) w1)))
    /\ (forall (cands : list CandidateCenter) (s : School) (to_allot : Z) (w : World),
          call_allocate_to_centers cands s to_allot [("stretch_capacity", true)] w
          = (Raise TypeError, w)).
Proof.
  apply (@counter_never_below_zero grid_numerics prefs_ABC [school_S 105]
           [center_A; center_C] tt center_C).
  right. left. reflexivity.
Defined.

Lemma recorded_within_capacity_and_leftovers_witness :
  exists v',
    centers_remaining_cap
      (snd (@main grid_numerics prefs_ABC [school_S 105] [center_A; center_C] tt)) !! "A"
    = Some v'
    /\ allocated_to_center
         (snd (@main grid_numerics prefs_ABC [school_S 105] [center_A; center_C] tt)) "A" + v'
       <= 100 + (MIN_STUDENT_IN_CENTER - 1) * Z.of_nat (length [school_S 105])
    /\ allocated_to_center
         (snd (@main grid_numerics prefs_ABC [school_S 105] [center_A; center_C] tt)) "A"
       <= Z.max 0 100 + (MIN_STUDENT_IN_CENTER - 1) * Z.of_nat (length [school_S 105]).
Proof.
  apply (@recorded_within_capacity_and_leftovers grid_numerics prefs_ABC [school_S 105]
           [center_A; center_C] tt "A" 100).
  vm_compute. reflexivity.
Defined.
